(** * UmmahWay TV: schedule utilities, offline cache worker and data proxies

    A shallow embedding of the TypeScript/JavaScript sources of the
    display (the dashboard client [app/TVClient.tsx], the Aurora client,
    the legacy board client, the service worker and the two proxy
    routes) together with the properties their specification states.

    Conventions.
    - A JavaScript string is a [string]; every [ascii] stands for one
      UTF-16 code unit (so the model covers code units 0..255).
    - A JavaScript Number is a binary64 [float]; the operations that the
      language defines on the exact mathematical value (parsing a
      literal, printing, [Math.floor], [%]) are computed on the exact
      value and rounded once, as ECMA-262 prescribes.
    - The 32-bit integer arithmetic of the hadith hash is written in [Z]
      with its wrap-around spelled out. *)

From Stdlib Require Import ZArith List String Ascii Bool Lia.
From Stdlib Require Import Numbers.DecimalString.
From Corelib Require Import PrimFloat SpecFloat FloatOps FloatAxioms.
Import ListNotations.

#[local] Set Warnings "-register-all".

Local Open Scope string_scope.
Local Open Scope Z_scope.

(* ===================================================================== *)
(** * ECMAScript primitives used by the program *)
(* ===================================================================== *)

Module JS.

(** ** Strings *)

Definition chars (s : string) : list ascii := list_ascii_of_string s.
Definition str (l : list ascii) : string := string_of_list_ascii l.

(** [s.slice(0, n)] *)
Definition slice0 (n : nat) (s : string) : string := str (firstn n (chars s)).

(** [s.split(sep)] for a one-character separator: never empty. *)
Fixpoint split_chars (sep : ascii) (cur : list ascii) (l : list ascii)
  : list string :=
  match l with
  | [] => [str (rev cur)]
  | c :: l' =>
      if Ascii.eqb c sep then str (rev cur) :: split_chars sep [] l'
      else split_chars sep (c :: cur) l'
  end.

Definition split (sep : ascii) (s : string) : list string :=
  split_chars sep [] (chars s).

(** [parts.join(sep)] on strings. *)
Fixpoint join (sep : string) (l : list string) : string :=
  match l with
  | [] => ""
  | [x] => x
  | x :: l' => x ++ sep ++ join sep l'
  end.

(** [s.padStart(2, "0")] *)
Definition padStart2 (s : string) : string :=
  match String.length s with
  | O => "00"
  | S O => "0" ++ s
  | _ => s
  end.

(** WhiteSpace and LineTerminator code units below 256:
    TAB, LF, VT, FF, CR, SP and NBSP. *)
Definition is_space (c : ascii) : bool :=
  let n := nat_of_ascii c in
  ((9 <=? n) && (n <=? 13) || (n =? 32) || (n =? 160))%nat.

Fixpoint drop_space (l : list ascii) : list ascii :=
  match l with
  | c :: l' => if is_space c then drop_space l' else l
  | [] => []
  end.

Definition trim_chars (l : list ascii) : list ascii :=
  rev (drop_space (rev (drop_space l))).

(** [s.trim()] *)
Definition trim (s : string) : string := str (trim_chars (chars s)).

(** ** Numbers: from exact values to binary64 *)

(** The double nearest to [m * 2^e] (ties to even). *)
Definition of_scaled (m e : Z) : float :=
  SF2Prim (binary_normalize prec emax m e false).

Definition of_Z (z : Z) : float := of_scaled z 0.

(** Number of decimal digits of a positive integer. *)
Definition ndigits (z : Z) : Z :=
  Z.of_nat (String.length (NilEmpty.string_of_uint (N.to_uint (Z.to_N z)))).

(** The double nearest to [m * 10^e], for [m >= 0].  A quotient is
    computed with 64 guard bits and a sticky bit, which rounds like the
    exact value; magnitudes beyond the range of binary64 are answered
    without building the power of ten. *)
Definition of_decimal (m e : Z) : float :=
  if m =? 0 then zero
  else if 400 <? ndigits m + e then infinity
  else if ndigits m + e <? -400 then zero
  else if 0 <=? e then of_Z (m * 10 ^ e)
  else
    let d := 10 ^ (- e) in
    let s := Z.log2 d + 65 in
    let q := Z.shiftl m s / d in
    let sticky := if Z.shiftl m s mod d =? 0 then 0 else 1 in
    of_scaled (2 * q + sticky) (- s - 1).

(** ** [StringToNumber] (ECMA-262, 7.1.4.1.1) *)

Definition digit_val (base : Z) (c : ascii) : option Z :=
  let n := Z.of_nat (nat_of_ascii c) in
  let v :=
    if (48 <=? n) && (n <=? 57) then n - 48
    else if (97 <=? n) && (n <=? 102) then n - 87
    else if (65 <=? n) && (n <=? 70) then n - 55
    else 99 in
  if v <? base then Some v else None.

(** Longest prefix of digits in [base]: (value, count, rest). *)
Fixpoint take_digits (base : Z) (acc : Z) (cnt : Z) (l : list ascii)
  : Z * Z * list ascii :=
  match l with
  | c :: l' =>
      match digit_val base c with
      | Some v => take_digits base (acc * base + v) (cnt + 1) l'
      | None => (acc, cnt, l)
      end
  | [] => (acc, cnt, [])
  end.

(** [0x..], [0o..], [0b..]: at least one digit, nothing after them. *)
Definition parse_radix (l : list ascii) : option float :=
  match l with
  | "0"%char :: p :: l' =>
      let base :=
        if (Ascii.eqb p "x" || Ascii.eqb p "X")%char then 16
        else if (Ascii.eqb p "o" || Ascii.eqb p "O")%char then 8
        else if (Ascii.eqb p "b" || Ascii.eqb p "B")%char then 2
        else 0 in
      if base =? 0 then None
      else
        match take_digits base 0 0 l' with
        | (v, cnt, []) => if 0 <? cnt then Some (of_Z v) else None
        | _ => None
        end
  | _ => None
  end.

(** ExponentPart: [e] or [E], an optional sign, at least one digit. *)
Definition parse_exponent (l : list ascii) : option Z :=
  match l with
  | [] => Some 0
  | c :: l' =>
      if (Ascii.eqb c "e" || Ascii.eqb c "E")%char then
        let '(neg, l'') :=
          match l' with
          | "-"%char :: r => (true, r)
          | "+"%char :: r => (false, r)
          | _ => (false, l')
          end in
        match take_digits 10 0 0 l'' with
        | (v, cnt, []) =>
            if 0 <? cnt then Some (if neg then - v else v) else None
        | _ => None
        end
      else None
  end.

(** StrUnsignedDecimalLiteral. *)
Definition parse_unsigned (l : list ascii) : option float :=
  if String.eqb (str l) "Infinity" then Some infinity
  else
    let '(ip, icnt, r1) := take_digits 10 0 0 l in
    let '(fp, fcnt, r2) :=
      match r1 with
      | "."%char :: r => take_digits 10 ip 0 r
      | _ => (ip, 0, r1)
      end in
    if (icnt =? 0) && (fcnt =? 0) then None
    else
      match parse_exponent r2 with
      | Some ex => Some (of_decimal fp (ex - fcnt))
      | None => None
      end.

Definition parse_decimal (l : list ascii) : option float :=
  match l with
  | "-"%char :: r => option_map opp (parse_unsigned r)
  | "+"%char :: r => parse_unsigned r
  | _ => parse_unsigned l
  end.

(** [Number(s)] for a string [s]. *)
Definition StringToNumber (s : string) : float :=
  match trim_chars (chars s) with
  | [] => zero
  | l =>
      match parse_radix l with
      | Some x => x
      | None =>
          match parse_decimal l with
          | Some x => x
          | None => nan
          end
      end
  end.

(** ** [Number::toString] (ECMA-262, 6.1.6.1.20), radix 10 *)

Definition digits (z : Z) : string :=
  NilEmpty.string_of_uint (N.to_uint (Z.to_N z)).

(** The exact value of a finite double, as a fraction [A / B]. *)
Definition fraction (m : positive) (e : Z) : Z * Z :=
  if 0 <=? e then (Zpos m * 2 ^ e, 1) else (Zpos m, 2 ^ (- e)).

(** The [n] with [10^(n-1) <= A/B < 10^n], for [A/B >= 10^-324]. *)
Definition magnitude (A B : Z) : Z :=
  if B <=? A then ndigits (A / B) else ndigits (A * 10 ^ 400 / B) - 400.

(** The [s] of [k] digits for which [s * 10^(n-k)] reads back as [ax],
    nearest to [A/B] (the even one on a tie), if there is one. *)
Definition candidate (ax : float) (A B k n : Z) : option Z :=
  let p := n - k in
  let P := 10 ^ Z.max p 0 in
  let Q := 10 ^ Z.max (- p) 0 in
  let lo := (A * Q) / (B * P) in
  let ok s :=
    (10 ^ (k - 1) <=? s) && (s <? 10 ^ k)
    && PrimFloat.eqb (of_decimal s p) ax in
  let dist s := Z.abs (s * P * B - A * Q) in
  match ok lo, ok (lo + 1) with
  | true, true =>
      Some (if dist lo <? dist (lo + 1) then lo
            else if dist (lo + 1) <? dist lo then lo + 1
            else if Z.even lo then lo else lo + 1)
  | true, false => Some lo
  | false, true => Some (lo + 1)
  | false, false => None
  end.

(** The shortest digit string: [(k, n, s)], trying [k = 1, 2, ...];
    seventeen digits always read back. *)
Fixpoint shortest (fuel : nat) (ax : float) (A B n0 k : Z) : Z * Z * Z :=
  match fuel with
  | O => (17, n0, A * 10 ^ Z.max (17 - n0) 0 / (B * 10 ^ Z.max (n0 - 17) 0))
  | S fuel' =>
      match candidate ax A B k n0 with
      | Some s => (k, n0, s)
      | None =>
          match candidate ax A B k (n0 + 1) with
          | Some s => (k, n0 + 1, s)
          | None => shortest fuel' ax A B n0 (k + 1)
          end
      end
  end.

Definition zeros (n : Z) : string := str (repeat "0"%char (Z.to_nat n)).

(** Steps 6 to 12 of [Number::toString]: where the point or the
    exponent goes. *)
Definition layout (k n s : Z) : string :=
  let d := digits s in
  if (k <=? n) && (n <=? 21) then d ++ zeros (n - k)
  else if (0 <? n) && (n <=? 21) then
    slice0 (Z.to_nat n) d ++ "." ++ str (skipn (Z.to_nat n) (chars d))
  else if (-6 <? n) && (n <=? 0) then "0." ++ zeros (- n) ++ d
  else
    let e := n - 1 in
    let ex := (if e <? 0 then "-" else "+") ++ digits (Z.abs e) in
    if k =? 1 then d ++ "e" ++ ex
    else slice0 1 d ++ "." ++ str (skipn 1 (chars d)) ++ "e" ++ ex.

(** [String(x)], [`${x}`] for a Number [x]. *)
Definition NumberToString (x : float) : string :=
  match Prim2SF x with
  | S754_nan => "NaN"
  | S754_zero _ => "0"
  | S754_infinity s => if s then "-Infinity" else "Infinity"
  | S754_finite sg m e =>
      let '(A, B) := fraction m e in
      let '(k, n, s) := shortest 17 (abs x) A B (magnitude A B) 1 in
      (if sg then "-" else "") ++ layout k n s
  end.

(** ** Arithmetic helpers *)

(** [Number.isFinite(x)] for a Number [x]. *)
Definition isFinite (x : float) : bool := is_finite x.

(** [a >= b] and [a < b], [a <= b] on Numbers (false on NaN). *)
Definition ge (a b : float) : bool := PrimFloat.leb b a.
Definition lt (a b : float) : bool := PrimFloat.ltb a b.
Definition le (a b : float) : bool := PrimFloat.leb a b.

(** [Math.floor(x)] *)
Definition floor (x : float) : float :=
  match Prim2SF x with
  | S754_finite s m e =>
      if 0 <=? e then x
      else
        let q := Z.shiftr (Zpos m) (- e) in
        let exact := Zpos m =? Z.shiftl q (- e) in
        if s then of_Z (- (if exact then q else q + 1)) else of_Z q
  | _ => x
  end.

(** [n % d] ([Number::remainder]): the sign of the dividend, exact. *)
Definition rem (n d : float) : float :=
  match Prim2SF n, Prim2SF d with
  | S754_nan, _ | _, S754_nan => nan
  | S754_infinity _, _ => nan
  | _, S754_zero _ => nan
  | _, S754_infinity _ => n
  | S754_zero _, _ => n
  | S754_finite sn mn en, S754_finite _ md ed =>
      let e := Z.min en ed in
      let r := Z.rem (Zpos mn * 2 ^ (en - e)) (Zpos md * 2 ^ (ed - e)) in
      if r =? 0 then (if sn then neg_zero else zero)
      else if sn then opp (of_scaled r e) else of_scaled r e
  end.

(** ** Values read from JSON *)

(** What [JSON.parse] builds, and [undefined].  An object is the list of
    its own properties; after parsing their names are distinct. *)
Inductive value :=
| VUndefined
| VNull
| VBool (b : bool)
| VNumber (x : float)
| VString (s : string)
| VArray (l : list value)
| VObject (l : list (string * value)).

Fixpoint lookup (k : string) (l : list (string * value)) : value :=
  match l with
  | [] => VUndefined
  | (k', v) :: l' => if String.eqb k k' then v else lookup k l'
  end.

Definition has_key (k : string) (l : list (string * value)) : bool :=
  existsb (fun kv => String.eqb k (fst kv)) l.

(** [v?.k] for the property names the program reads (none of them is
    inherited from a prototype). *)
Definition get (v : value) (k : string) : value :=
  match v with
  | VObject l => lookup k l
  | _ => VUndefined
  end.

(** [v?.[i]] and, for a value that is neither null nor undefined,
    [v[i]]. *)
Definition at_index (v : value) (i : nat) : value :=
  match v with
  | VArray l => nth i l VUndefined
  | VString s =>
      match nth_error (chars s) i with
      | Some c => VString (String c "")
      | None => VUndefined
      end
  | VObject l => lookup (digits (Z.of_nat i)) l
  | _ => VUndefined
  end.

(** ToBoolean. *)
Definition truthy (v : value) : bool :=
  match v with
  | VUndefined | VNull => false
  | VBool b => b
  | VNumber x => negb (is_nan x || is_zero x)
  | VString s => negb (String.eqb s "")
  | VArray _ | VObject _ => true
  end.

(** [a || b] and [a ?? b]. *)
Definition or_else (a b : value) : value := if truthy a then a else b.
Definition coalesce (a b : value) : value :=
  match a with
  | VUndefined | VNull => b
  | _ => a
  end.

(** ToString; [None] is the TypeError of an object whose own
    [toString] property (never callable after parsing) hides the
    inherited one.  An array is joined as by [Array.prototype.join]. *)
Fixpoint ToString (v : value) : option string :=
  match v with
  | VUndefined => Some "undefined"
  | VNull => Some "null"
  | VBool b => Some (if b then "true" else "false")
  | VNumber x => Some (NumberToString x)
  | VString s => Some s
  | VArray l =>
      let fix elems (l : list value) : option (list string) :=
        match l with
        | [] => Some []
        | e :: l' =>
            let se :=
              match e with
              | VUndefined | VNull => Some ""
              | _ => ToString e
              end in
            match se, elems l' with
            | Some a, Some b => Some (a :: b)
            | _, _ => None
            end
        end in
      option_map (join ",") (elems l)
  | VObject l => if has_key "toString" l then None else Some "[object Object]"
  end.

Fixpoint all_some {A : Type} (l : list (option A)) : option (list A) :=
  match l with
  | [] => Some []
  | Some a :: l' => option_map (cons a) (all_some l')
  | None :: _ => None
  end.

(** [l.join(sep)] on values: null and undefined elements are empty. *)
Definition join_values (sep : string) (l : list value) : option string :=
  option_map (join sep)
    (all_some
       (map (fun e =>
               match e with
               | VUndefined | VNull => Some ""
               | _ => ToString e
               end) l)).

(** ToNumber. *)
Definition ToNumber (v : value) : option float :=
  match v with
  | VUndefined => Some nan
  | VNull => Some zero
  | VBool b => Some (if b then one else zero)
  | VNumber x => Some x
  | VString s => Some (StringToNumber s)
  | VArray _ | VObject _ => option_map StringToNumber (ToString v)
  end.

(** ToNumber of a destructured array element that may be missing. *)
Definition number_or_nan (o : option float) : float :=
  match o with
  | Some x => x
  | None => nan
  end.

End JS.

(* ===================================================================== *)
(** * Schedule utilities *)
(* ===================================================================== *)

(** The result of a call: a value, or an exception that nothing in the
    callee catches. *)
Inductive outcome (A : Type) :=
| Returns (a : A)
| Throws.
Arguments Returns {A} a.
Arguments Throws {A}.

Definition bind {A B : Type} (o : outcome A) (f : A -> outcome B) : outcome B :=
  match o with
  | Returns a => f a
  | Throws => Throws
  end.

Declare Scope outcome_scope.
Delimit Scope outcome_scope with outcome.
Notation "x <- c ;; k" := (bind c (fun x => k))
  (at level 61, c at next level, right associativity) : outcome_scope.
Local Open Scope outcome_scope.

(** ** Types shared by the three clients *)

Inductive PrayerKey := fajr | dhuhr | asr | maghrib | isha.

Definition PrayerKey_eqb (a b : PrayerKey) : bool :=
  match a, b with
  | fajr, fajr | dhuhr, dhuhr | asr, asr | maghrib, maghrib | isha, isha => true
  | _, _ => false
  end.

Record PrayerRow := {
  prayer : PrayerKey;
  start_time : string;
  jamaat_time : string;
  date : string
}.

Definition PRAYER_ORDER : list PrayerKey := [fajr; dhuhr; asr; maghrib; isha].

(** One entry of [Intl.DateTimeFormat.prototype.formatToParts]. *)
Record part := { ptype : string; pvalue : string }.

(** The platform at the instant of the call:
    [formatToParts weekday timeZone] is what
    [new Intl.DateTimeFormat("en-GB", {timeZone, hour: "2-digit", ...,
    weekday}).formatToParts(new Date())] gives, and [None] when the
    constructor rejects [timeZone] with a RangeError. *)
Record Platform := {
  formatToParts : string -> string -> option (list part)
}.

Record Clock := {
  year : float;
  month : float;
  day : float;
  hour : float;
  minute : float;
  second : float;
  weekday : string;
  timeZone : string
}.

(** [tz || "Europe/Rome"] *)
Definition timeZone_or_default (tz : option string) : string :=
  match tz with
  | None => "Europe/Rome"
  | Some z => if String.eqb z "" then "Europe/Rome" else z
  end.

(** [parts.find((p) => p.type === type)?.value ?? ""] *)
Definition get_part (parts : list part) (type : string) : string :=
  match find (fun p => String.eqb (ptype p) type) parts with
  | Some p => pvalue p
  | None => ""
  end.

(** The body common to [nowInTimeZone] and [nowInTz]; they differ in
    the weekday style they ask for. *)
Definition clock_in (P : Platform) (style : string) (tz : option string)
  : outcome Clock :=
  let timeZone := timeZone_or_default tz in
  match formatToParts P style timeZone with
  | None => Throws
  | Some parts =>
      let get := get_part parts in
      Returns {|
        year := JS.StringToNumber (get "year");
        month := JS.StringToNumber (get "month");
        day := JS.StringToNumber (get "day");
        hour := JS.StringToNumber (get "hour");
        minute := JS.StringToNumber (get "minute");
        second := JS.StringToNumber (get "second");
        weekday := get "weekday";
        timeZone := timeZone
      |}
  end.

(** [String(n).padStart(2, "0")] *)
Definition two (n : float) : string := JS.padStart2 (JS.NumberToString n).

(** [`${c.year}-${two(c.month)}-${two(c.day)}`] *)
Definition ymd_of (c : Clock) : string :=
  JS.NumberToString (year c) ++ "-" ++ two (month c) ++ "-" ++ two (day c).

(** [n.hour * 60 + n.minute] *)
Definition minutes_of (c : Clock) : float := (hour c * 60 + minute c)%float.

(** [rows.find((r) => r.prayer === key)] *)
Definition find_row (key : PrayerKey) (rows : list PrayerRow) : option PrayerRow :=
  find (fun r => PrayerKey_eqb (prayer r) key) rows.

(** [prayers.filter((p) => p.date === today)] *)
Definition rows_of (today : string) (prayers : list PrayerRow) : list PrayerRow :=
  filter (fun p => String.eqb (date p) today) prayers.

(** [t.slice(0, 5).split(":").map(Number)] *)
Definition time_fields (t : string) : list float :=
  map JS.StringToNumber (JS.split ":" (JS.slice0 5 t)).

(** The end of the [countdown] memo of the dashboard and of the legacy
    client, which read alike: hours and minutes of [diff]. *)
Definition countdown_text (diff : float) : string :=
  let h := JS.floor (diff / 60)%float in
  let m := JS.rem diff 60%float in
  if JS.le h 0%float then JS.NumberToString m ++ " min"
  else JS.NumberToString h ++ "h " ++ JS.NumberToString m ++ "m".

(** The placeholder shown without a next prayer: an em dash, written
    here in UTF-8. *)
Definition placeholder : string := "—".

(** ** The dashboard client, [app/TVClient.tsx] *)

Module Dashboard.

(** [{ prayer, mins }]; the field [prayer] is [next_prayer] here, apart
    from the one of [PrayerRow]. *)
Record NextPrayer := { next_prayer : PrayerKey; mins : float }.

Definition timeToMinutes (t : option string) : option float :=
  match t with
  | None => None
  | Some t =>
      if String.eqb t "" then None
      else
        let fields := time_fields t in
        match nth_error fields 0, nth_error fields 1 with
        | Some hh, Some mm =>
            if negb (JS.isFinite hh) || negb (JS.isFinite mm) then None
            else Some (hh * 60 + mm)%float
        | _, _ => None
        end
  end.

Definition nowInTimeZone (P : Platform) (tz : option string) : outcome Clock :=
  clock_in P "short" tz.

Definition ymdFromClock (c : Clock) : string := ymd_of c.

(** The [for (const key of PRAYER_ORDER)] loop. *)
Fixpoint scan (todayRows : list PrayerRow) (minutesNow : float)
  (keys : list PrayerKey) : option NextPrayer :=
  match keys with
  | [] => None
  | key :: keys' =>
      match find_row key todayRows with
      | None => scan todayRows minutesNow keys'
      | Some row =>
          match timeToMinutes (Some (jamaat_time row)) with
          | None => scan todayRows minutesNow keys'
          | Some m =>
              if JS.ge m minutesNow
              then Some {| next_prayer := key; mins := m |}
              else scan todayRows minutesNow keys'
          end
      end
  end.

Definition computeNextPrayer (P : Platform) (prayers : list PrayerRow)
  (tz : option string) : outcome (option NextPrayer) :=
  n <- nowInTimeZone P tz ;;
  let today := ymdFromClock n in
  let minutesNow := minutes_of n in
  let todayRows := rows_of today prayers in
  match scan todayRows minutesNow PRAYER_ORDER with
  | Some r => Returns (Some r)
  | None =>
      match find_row fajr todayRows with
      | Some first =>
          match timeToMinutes (Some (jamaat_time first)) with
          | Some m => Returns (Some {| next_prayer := fajr; mins := m |})
          | None => Returns None
          end
      | None => Returns None
      end
  end.

(** The [countdown] memo of the component. *)
Definition countdown (P : Platform) (next : option NextPrayer)
  (tz : option string) : outcome string :=
  match next with
  | None => Returns placeholder
  | Some next =>
      n <- nowInTimeZone P tz ;;
      let nowM := minutes_of n in
      let diff := (mins next - nowM)%float in
      let diff := if JS.lt diff 0%float then (diff + 1440)%float else diff in
      Returns (countdown_text diff)
  end.

End Dashboard.

(** ** The legacy board client *)

Module Legacy.

(** [{ prayer, mins }], with [prayer] named [next_prayer] as in the
    dashboard. *)
Record NextPrayer := { next_prayer : PrayerKey; mins : float }.

Definition nowInTimeZone (P : Platform) (tz : option string) : outcome Clock :=
  clock_in P "short" tz.

(** [const [hh, mm] = row.jamaat_time.slice(0, 5).split(":").map(Number);
    hh * 60 + mm] *)
Definition raw_minutes (t : string) : float :=
  let fields := time_fields t in
  let hh := JS.number_or_nan (nth_error fields 0) in
  let mm := JS.number_or_nan (nth_error fields 1) in
  (hh * 60 + mm)%float.

Fixpoint scan (todayRows : list PrayerRow) (minutesNow : float)
  (keys : list PrayerKey) : option NextPrayer :=
  match keys with
  | [] => None
  | key :: keys' =>
      match find_row key todayRows with
      | None => scan todayRows minutesNow keys'
      | Some row =>
          let m := raw_minutes (jamaat_time row) in
          if JS.ge m minutesNow
          then Some {| next_prayer := key; mins := m |}
          else scan todayRows minutesNow keys'
      end
  end.

Definition computeNextPrayer (P : Platform) (prayers : list PrayerRow)
  (tz : option string) : outcome (option NextPrayer) :=
  n <- nowInTimeZone P tz ;;
  let today := ymd_of n in
  let minutesNow := minutes_of n in
  let todayRows := rows_of today prayers in
  match scan todayRows minutesNow PRAYER_ORDER with
  | Some r => Returns (Some r)
  | None =>
      match find_row fajr todayRows with
      | Some first =>
          Returns (Some {| next_prayer := fajr;
                           mins := raw_minutes (jamaat_time first) |})
      | None => Returns None
      end
  end.

Definition countdown (P : Platform) (next : option NextPrayer)
  (tz : option string) : outcome string :=
  match next with
  | None => Returns placeholder
  | Some next =>
      n <- nowInTimeZone P tz ;;
      let nowM := minutes_of n in
      let diff := (mins next - nowM)%float in
      let diff := if JS.lt diff 0%float then (diff + 1440)%float else diff in
      Returns (countdown_text diff)
  end.

End Legacy.

(** ** The Aurora client *)

Module Aurora.

Record NextPrayer := {
  key : PrayerKey;
  row : PrayerRow;
  mins : float;
  diff : float
}.

Definition timeToMins (t : option string) : option float :=
  match t with
  | None => None
  | Some t =>
      if String.eqb t "" then None
      else
        let fields := time_fields t in
        match nth_error fields 0, nth_error fields 1 with
        | Some h, Some m =>
            if JS.isFinite h && JS.isFinite m then Some (h * 60 + m)%float
            else None
        | _, _ => None
        end
  end.

Definition nowInTz (P : Platform) (tz : option string) : outcome Clock :=
  clock_in P "long" tz.

Definition ymd (c : Clock) : string := ymd_of c.

Fixpoint scan (todayRows : list PrayerRow) (nowM : float)
  (keys : list PrayerKey) : option NextPrayer :=
  match keys with
  | [] => None
  | k :: keys' =>
      match find_row k todayRows with
      | None => scan todayRows nowM keys'
      | Some r =>
          match timeToMins (Some (jamaat_time r)) with
          | Some m =>
              if JS.ge m nowM
              then Some {| key := k; row := r; mins := m;
                           diff := (m - nowM)%float |}
              else scan todayRows nowM keys'
          | None => scan todayRows nowM keys'
          end
      end
  end.

Definition getNextPrayer (P : Platform) (prayers : list PrayerRow)
  (tz : option string) : outcome (option NextPrayer) :=
  n <- nowInTz P tz ;;
  let today := ymd n in
  let nowM := minutes_of n in
  let todayRows := rows_of today prayers in
  Returns (scan todayRows nowM PRAYER_ORDER).

Definition formatCountdown (mins : float) : string :=
  if JS.lt mins 60%float then JS.NumberToString mins ++ " min"
  else
    let h := JS.floor (mins / 60)%float in
    let m := JS.rem mins 60%float in
    if PrimFloat.eqb m 0%float then JS.NumberToString h ++ "h"
    else JS.NumberToString h ++ "h " ++ JS.NumberToString m ++ "m".

End Aurora.

(* ===================================================================== *)
(** * Offline cache worker *)
(* ===================================================================== *)

Module Worker.

Definition VERSION := "v1".
Definition APP_SHELL_CACHE := "ummahway-shell-" ++ VERSION.
Definition API_CACHE := "ummahway-api-" ++ VERSION.

(** A request: its method, its URL as [request.url] serialises it (the
    fragment included), its mode and its header list. *)
Record Request := {
  method : string;
  url : string;
  mode : string;
  request_headers : list (string * string)
}.

(** A response body: text received from the network, or the text
    [JSON.stringify] gives for a value. *)
Inductive Body :=
| Text (s : string)
| Json (v : JS.value).

Record Response := {
  status : Z;
  headers : list (string * string);
  body : Body
}.

(** ** The Cache API, after the Service Worker specification *)

(** Header names compare without regard to ASCII case. *)
Definition lower (c : ascii) : ascii :=
  let n := nat_of_ascii c in
  if ((65 <=? n) && (n <=? 90))%nat then ascii_of_nat (n + 32) else c.

Definition same_name (a b : string) : bool :=
  String.eqb (JS.str (map lower (JS.chars a))) (JS.str (map lower (JS.chars b))).

(** "get" of a header list: the values under the name, joined with a
    comma and a space; [None] is null. *)
Definition header_get (name : string) (l : list (string * string))
  : option string :=
  match filter (fun h => same_name (fst h) name) l with
  | [] => None
  | hs => Some (JS.join ", " (map snd hs))
  end.

Definition same_value (a b : option string) : bool :=
  match a, b with
  | Some x, Some y => String.eqb x y
  | None, None => true
  | _, _ => false
  end.

(** Optional whitespace of a header field: space and tab. *)
Definition is_ows (c : ascii) : bool :=
  Ascii.eqb c " " || Ascii.eqb c "009".

Fixpoint drop_ows (l : list ascii) : list ascii :=
  match l with
  | c :: l' => if is_ows c then drop_ows l' else l
  | [] => []
  end.

Definition trim_ows (s : string) : string :=
  JS.str (rev (drop_ows (rev (drop_ows (JS.chars s))))).

(** The field values of the [Vary] header of a response. *)
Definition vary_fields (r : Response) : list string :=
  match header_get "Vary" (headers r) with
  | Some v => map trim_ows (JS.split "," v)
  | None => []
  end.

(** A URL without its fragment; URLs are compared that way. *)
Fixpoint before_fragment (l : list ascii) : list ascii :=
  match l with
  | [] => []
  | c :: l' => if Ascii.eqb c "#" then [] else c :: before_fragment l'
  end.

Definition without_fragment (u : string) : string :=
  JS.str (before_fragment (JS.chars u)).

Definition same_url (a b : string) : bool :=
  String.eqb (without_fragment a) (without_fragment b).

(** A cache lists the requests it was given with their responses, in
    the order of their insertion; the cache storage lists the named
    caches of the origin in the order of their creation. *)
Definition Cache := list (Request * Response).
Definition CacheStorage := list (string * Cache).

(** "Request matches cached item", without options: the cached request
    is a GET, the URLs are equal apart from the fragment, and for every
    field that the cached response varies on, which must not be "*",
    the two requests carry the same value. *)
Definition matches_item (query : Request) (item : Request * Response) : bool :=
  String.eqb (method (fst item)) "GET"
  && same_url (url query) (url (fst item))
  && forallb
       (fun field =>
          negb (String.eqb field "*")
          && same_value (header_get field (request_headers (fst item)))
               (header_get field (request_headers query)))
       (vary_fields (snd item)).

(** What [cache.put(request, response)] accepts: a GET over http or
    https, a response that is no partial content (206) and does not
    vary on "*". *)
Definition is_http (u : string) : bool :=
  String.prefix "http://" u || String.prefix "https://" u.

Definition put_accepts (request : Request) (r : Response) : bool :=
  is_http (url request)
  && String.eqb (method request) "GET"
  && negb (status r =? 206)
  && forallb (fun field => negb (String.eqb field "*")) (vary_fields r).

(** The state a strategy runs in: the cache storage, and the requests
    handed to [fetch] so far, oldest first. *)
Record World := { caches : CacheStorage; fetched : list Request }.

(** An asynchronous function of the worker: it changes the world and
    resolves to a value or rejects. *)
Definition M (A : Type) := World -> outcome A * World.

Definition ret {A : Type} (a : A) : M A := fun w => (Returns a, w).

Definition bindM {A B : Type} (c : M A) (f : A -> M B) : M B :=
  fun w =>
    match c w with
    | (Returns a, w') => f a w'
    | (Throws, w') => (Throws, w')
    end.

(** [try { c } catch { h }] *)
Definition try_catch {A : Type} (c : M A) (h : M A) : M A :=
  fun w =>
    match c w with
    | (Returns a, w') => (Returns a, w')
    | (Throws, w') => h w'
    end.

Declare Scope worker_scope.
Delimit Scope worker_scope with worker.
Notation "x <- c ;; k" := (bindM c (fun x => k))
  (at level 61, c at next level, right associativity) : worker_scope.
Local Open Scope worker_scope.

Section Strategies.

(** The network at the time of the call: the response to a request, or
    [None] when [fetch] rejects (offline, DNS failure, abort).  An HTTP
    error status is a response like any other. *)
Variable network : Request -> option Response.

(** [fetch(request)] *)
Definition fetch (request : Request) : M Response :=
  fun w =>
    let w' := {| caches := caches w; fetched := (fetched w ++ [request])%list |} in
    match network request with
    | Some r => (Returns r, w')
    | None => (Throws, w')
    end.

(** [cache.match(request)]: the response of the first item that the
    request matches; a request that is not a GET matches none. *)
Definition cache_match (request : Request) (c : Cache) : option Response :=
  if String.eqb (method request) "GET"
  then option_map snd (find (matches_item request) c)
  else None.

Fixpoint storage_match (request : Request) (cs : CacheStorage)
  : option Response :=
  match cs with
  | [] => None
  | (_, c) :: cs' =>
      match cache_match request c with
      | Some r => Some r
      | None => storage_match request cs'
      end
  end.

(** [caches.match(request)]: the first match over all caches. *)
Definition caches_match (request : Request) : M (option Response) :=
  fun w => (Returns (storage_match request (caches w)), w).

Definition has_cache (name : string) (cs : CacheStorage) : bool :=
  existsb (fun e => String.eqb (fst e) name) cs.

(** [caches.open(name)]: creates the cache when there is none. *)
Definition caches_open (name : string) : M string :=
  fun w =>
    if has_cache name (caches w) then (Returns name, w)
    else (Returns name,
          {| caches := (caches w ++ [(name, [])])%list; fetched := fetched w |}).

(** The "put" operation on a cache: the items that the request matches
    are removed and the new item is appended. *)
Definition put_entry (request : Request) (r : Response) (c : Cache) : Cache :=
  (filter (fun item => negb (matches_item request item)) c
   ++ [(request, r)])%list.

Fixpoint storage_put (name : string) (request : Request) (r : Response)
  (cs : CacheStorage) : CacheStorage :=
  match cs with
  | [] => []
  | (n, c) :: cs' =>
      if String.eqb n name then (n, put_entry request r c) :: cs'
      else (n, c) :: storage_put name request r cs'
  end.

(** [cache.put(request, response)] on the cache opened as [name], for
    a storage that has room for the item.  The program does not await
    the call and does not catch its rejection: a put that the cache
    does not accept leaves the storage as it is, and the caller goes
    on. *)
Definition cache_put (name : string) (request : Request) (r : Response)
  : M unit :=
  fun w =>
    if put_accepts request r
    then (Returns tt,
          {| caches := storage_put name request r (caches w);
             fetched := fetched w |})
    else (Returns tt, w).

Definition cacheFirst (request : Request) : M Response :=
  cached <- caches_match request ;;
  match cached with
  | Some r => ret r
  | None =>
      fresh <- fetch request ;;
      cache <- caches_open APP_SHELL_CACHE ;;
      _ <- cache_put cache request fresh ;;
      ret fresh
  end.

Definition offline_response : Response :=
  {| status := 503;
     headers := [("Content-Type", "application/json")];
     body := Json (JS.VObject [("error", JS.VString "Offline and no cache")]) |}.

Definition networkFirst (request : Request) : M Response :=
  try_catch
    (fresh <- fetch request ;;
     cache <- caches_open API_CACHE ;;
     _ <- cache_put cache request fresh ;;
     ret fresh)
    (cached <- caches_match request ;;
     match cached with
     | Some r => ret r
     | None => ret offline_response
     end).

End Strategies.

(** The response kept under a URL in a named cache of the storage: that
    of the first item of the cache whose request has this URL. *)
Definition entry (name u : string) (cs : CacheStorage) : option Response :=
  match find (fun e => String.eqb (fst e) name) cs with
  | Some (_, c) =>
      option_map snd (find (fun item => String.eqb (url (fst item)) u) c)
  | None => None
  end.

(** What [cache.match(request)] gives in the named cache of the
    storage; [None] also when there is no such cache. *)
Definition cached_in (name : string) (request : Request) (cs : CacheStorage)
  : option Response :=
  match find (fun e => String.eqb (fst e) name) cs with
  | Some (_, c) => cache_match request c
  | None => None
  end.

End Worker.

(* ===================================================================== *)
(** * Remote data proxies *)
(* ===================================================================== *)

(** What a route handler answers with [NextResponse.json(body, init)]:
    the status, the value the JSON text of the body denotes, and the
    Cache-Control header if one is set. *)
Record HttpResponse := {
  code : Z;
  payload : JS.value;
  cache_control : option string
}.

(** An upstream HTTP response as the handlers use it: [r.ok],
    [r.status] and the value [r.json()] resolves to ([None] when the
    body is not JSON and [r.json()] rejects). *)
Record Reply := { ok : bool; reply_status : Z; json : option JS.value }.

(** [searchParams.get(name) || fallback] *)
Definition param_or (o : option string) (fallback : string) : string :=
  match o with
  | Some s => if String.eqb s "" then fallback else s
  | None => fallback
  end.

(** Truthiness of [searchParams.get(name)]. *)
Definition present (o : option string) : bool :=
  match o with
  | Some s => negb (String.eqb s "")
  | None => false
  end.

(** [l.map((x, i) => f(x, i))] *)
Fixpoint mapi_from {A B : Type} (i : nat) (f : nat -> A -> B) (l : list A)
  : list B :=
  match l with
  | [] => []
  | x :: l' => f i x :: mapi_from (S i) f l'
  end.

Definition mapi {A B : Type} (f : nat -> A -> B) (l : list A) : list B :=
  mapi_from 0 f l.

(** The value that the text [JSON.stringify(v)] denotes: a Number that
    is not finite becomes null, a negative zero loses its sign, an
    undefined array element becomes null and an undefined property is
    left out. *)
Definition json_number (x : float) : JS.value :=
  if JS.isFinite x then JS.VNumber (if is_zero x then zero else x)
  else JS.VNull.

Fixpoint stringify (v : JS.value) : JS.value :=
  match v with
  | JS.VNumber x => json_number x
  | JS.VUndefined => JS.VNull
  | JS.VArray l => JS.VArray (map stringify l)
  | JS.VObject l =>
      let fix props (l : list (string * JS.value)) :=
        match l with
        | [] => []
        | (k, JS.VUndefined) :: l' => props l'
        | (k, x) :: l' => (k, stringify x) :: props l'
        end in
      JS.VObject (props l)
  | _ => v
  end.

Definition error_body (msg : string) : JS.value :=
  JS.VObject [("error", JS.VString msg)].

Module Weather.

Record Location := { name : string; latitude : float; longitude : float }.

Record Current := {
  temperature : option float;
  current_weathercode : option float
}.

Record Daily := {
  daily_date : JS.value;
  tmax : option float;
  tmin : option float;
  precipProbMax : option float;
  weathercode : option float
}.

Record WeatherOut := {
  location : Location;
  current : Current;
  daily : list Daily
}.

(** The two services behind the proxy, each by the query its URL
    carries: the geocoder by the city name, the forecast by the strings
    of the latitude and the longitude and by the time zone.  [None]:
    [fetch] rejects. *)
Record Upstream := {
  geocode : string -> option Reply;
  forecast : string -> string -> string -> option Reply
}.

(** [number | null]: [None] is null. *)
Definition num (v : JS.value) : option float :=
  match v with
  | JS.VNumber x => if JS.isFinite x then Some x else None
  | _ => None
  end.

Definition json_nullable (o : option float) : JS.value :=
  match o with
  | Some x => json_number x
  | None => JS.VNull
  end.

(** The body [NextResponse.json(out, ...)] sends. *)
Definition json_of_out (out : WeatherOut) : JS.value :=
  JS.VObject
    [ ("location",
       JS.VObject
         [ ("name", JS.VString (name (location out)));
           ("latitude", json_number (latitude (location out)));
           ("longitude", json_number (longitude (location out))) ]);
      ("current",
       JS.VObject
         [ ("temperature", json_nullable (temperature (current out)));
           ("weathercode", json_nullable (current_weathercode (current out))) ]);
      ("daily",
       JS.VArray
         (map (fun d =>
                 JS.VObject
                   [ ("date", stringify (daily_date d));
                     ("tmax", json_nullable (tmax d));
                     ("tmin", json_nullable (tmin d));
                     ("precipProbMax", json_nullable (precipProbMax d));
                     ("weathercode", json_nullable (weathercode d)) ])
              (daily out))) ].

(** [f?.daily?.<field> || []] *)
Definition daily_array (f : JS.value) (field : string) : JS.value :=
  JS.or_else (JS.get (JS.get f "daily") field) (JS.VArray []).

(** [dailyTimes.map((date, i) => ({...}))]; a [time] that is truthy but
    no array has no [map], and the call throws. *)
Definition daily_entries (f : JS.value) : outcome (list Daily) :=
  let dailyTimes := daily_array f "time" in
  let tmaxArr := daily_array f "temperature_2m_max" in
  let tminArr := daily_array f "temperature_2m_min" in
  let ppArr := daily_array f "precipitation_probability_max" in
  let wcArr := daily_array f "weathercode" in
  match dailyTimes with
  | JS.VArray times =>
      Returns
        (mapi (fun i date =>
                 {| daily_date := date;
                    tmax := num (JS.at_index tmaxArr i);
                    tmin := num (JS.at_index tminArr i);
                    precipProbMax := num (JS.at_index ppArr i);
                    weathercode := num (JS.at_index wcArr i) |})
              times)
  | _ => Throws
  end.

(** Step 2 of the handler: the forecast for known coordinates. *)
Definition forecast_step (U : Upstream) (tz locName : string)
  (latitude longitude : float) : outcome HttpResponse :=
  match forecast U (JS.NumberToString latitude) (JS.NumberToString longitude) tz with
  | None => Throws
  | Some fRes =>
      if negb (ok fRes) then
        Returns {| code := 502; payload := error_body "Forecast failed";
                   cache_control := None |}
      else
        match json fRes with
        | None => Throws
        | Some f =>
            days <- daily_entries f ;;
            let out :=
              {| location := {| name := locName; latitude := latitude;
                                longitude := longitude |};
                 current :=
                   {| temperature :=
                        num (JS.get (JS.get f "current_weather") "temperature");
                      current_weathercode :=
                        num (JS.get (JS.get f "current_weather") "weathercode") |};
                 daily := days |} in
            Returns {| code := 200; payload := json_of_out out;
                       cache_control :=
                         Some "public, s-maxage=900, stale-while-revalidate=1800" |}
        end
  end.

(** [[first?.name, first?.admin1, first?.country].filter(Boolean)
    .join(", ") || city] *)
Definition location_name (first : JS.value) (city : string) : outcome string :=
  let named :=
    filter JS.truthy
      [JS.get first "name"; JS.get first "admin1"; JS.get first "country"] in
  match JS.join_values ", " named with
  | Some s => Returns (if String.eqb s "" then city else s)
  | None => Throws
  end.

(** [q ? Number(q) : null] *)
Definition number_param (q : option string) : option float :=
  match q with
  | Some t => if String.eqb t "" then None else Some (JS.StringToNumber t)
  | None => None
  end.

Definition GET (searchParams : string -> option string) (U : Upstream)
  : outcome HttpResponse :=
  let city := JS.trim (param_or (searchParams "city") "") in
  let tz := JS.trim (param_or (searchParams "tz") "Europe/Rome") in
  let latQ := searchParams "lat" in
  let lonQ := searchParams "lon" in
  if String.eqb city "" && (negb (present latQ) || negb (present lonQ)) then
    Returns {| code := 400; payload := error_body "Missing city (or lat/lon)";
               cache_control := None |}
  else
    let latitude := number_param latQ in
    let longitude := number_param lonQ in
    let locName := if String.eqb city "" then "Unknown" else city in
    match latitude, longitude with
    | Some la, Some lo => forecast_step U tz locName la lo
    | _, _ =>
        match geocode U city with
        | None => Throws
        | Some geoRes =>
            if negb (ok geoRes) then
              Returns {| code := 502; payload := error_body "Geocoding failed";
                         cache_control := None |}
            else
              match json geoRes with
              | None => Throws
              | Some geo =>
                  let first := JS.at_index (JS.get geo "results") 0 in
                  let latitude := num (JS.get first "latitude") in
                  let longitude := num (JS.get first "longitude") in
                  locName <- location_name first city ;;
                  match latitude, longitude with
                  | Some la, Some lo => forecast_step U tz locName la lo
                  | _, _ =>
                      Returns {| code := 404;
                                 payload := error_body "City not found";
                                 cache_control := None |}
                  end
              end
        end
    end.

End Weather.

Module Hadith.

(** ToInt32: the value modulo 2^32, read as a signed 32-bit integer. *)
Definition to_int32 (z : Z) : Z := (z + 2 ^ 31) mod 2 ^ 32 - 2 ^ 31.

(** [Math.imul(a, b)] *)
Definition imul (a b : Z) : Z := to_int32 (to_int32 a * to_int32 b).

(** [a ^ b] *)
Definition xor32 (a b : Z) : Z := Z.lxor (to_int32 a) (to_int32 b).

(** The body of the loop, over the code units of the string. *)
Fixpoint hash_loop (h : Z) (l : list ascii) : Z :=
  match l with
  | [] => h
  | c :: l' =>
      hash_loop (imul (xor32 h (Z.of_nat (nat_of_ascii c))) 16777619) l'
  end.

Definition hashToInt (s : string) : Z :=
  Z.abs (hash_loop 2166136261 (JS.chars s)).

(** [Array.from({ length: 5 }, (_, i) => ((base + i * 997) % 9000) + 1)] *)
Definition guesses (base : Z) : list Z :=
  map (fun i => Z.rem (base + i * 997) 9000 + 1) [0; 1; 2; 3; 4].

(** The mirrors behind the proxy: the reply to a URL ([None]: [fetch]
    rejects), the message of the error with which [fetch(url)] or
    [r.json()] rejects for that URL, and the message of the TypeError of
    a failing conversion. *)
Record Upstream := {
  fetch : string -> option Reply;
  failure : string -> string;
  type_error : string
}.

(** The handler's answer together with the URLs it requested, in
    order. *)
Definition traced (A : Type) : Type := A * list string.

(** The [for (const url of urls)] loop; [inr] is the error thrown. *)
Fixpoint fetch_loop (U : Upstream) (urls : list string) (lastErr : option string)
  : traced (JS.value + string) :=
  match urls with
  | [] =>
      (inr (match lastErr with
            | Some e => e
            | None => "Hadith fetch failed"
            end), [])
  | url :: urls' =>
      let continue_with e :=
        let '(r, t) := fetch_loop U urls' (Some e) in (r, url :: t) in
      match fetch U url with
      | None => continue_with (failure U url)
      | Some r =>
          if negb (ok r) then
            continue_with ("HTTP " ++ JS.digits (reply_status r) ++ " for " ++ url)
          else
            match json r with
            | Some v => (inl v, [url])
            | None => continue_with (failure U url)
            end
      end
  end.

Definition fetchJsonWithFallback (U : Upstream) (urls : list string)
  : traced (JS.value + string) :=
  fetch_loop U urls None.

(** The four URLs tried for one hadith number. *)
Definition urls_of (edition : string) (hadithNo : Z) : list string :=
  let n := JS.digits hadithNo in
  let endpoint := "editions/" ++ edition ++ "/" ++ n ++ ".min.json" in
  [ "https://cdn.jsdelivr.net/gh/fawazahmed0/hadith-api@1/" ++ endpoint;
    "https://cdn.jsdelivr.net/gh/fawazahmed0/hadith-api@1/editions/"
      ++ edition ++ "/" ++ n ++ ".json";
    "https://raw.githubusercontent.com/fawazahmed0/hadith-api/1/" ++ endpoint;
    "https://raw.githubusercontent.com/fawazahmed0/hadith-api/1/editions/"
      ++ edition ++ "/" ++ n ++ ".json" ].

(** The [HadithOut] built from a payload whose hadith has a text;
    [None] when a conversion throws. *)
Definition hadith_out (edition : string) (hadithNo : Z) (j : JS.value)
  : option JS.value :=
  let metaName := JS.or_else (JS.get (JS.get j "metadata") "name") (JS.VString "Hadith") in
  let h := JS.at_index (JS.get j "hadiths") 0 in
  match JS.ToNumber (JS.coalesce (JS.get h "hadithnumber")
                       (JS.VNumber (JS.of_Z hadithNo))),
        JS.ToString (JS.get h "text") with
  | Some n, Some text =>
      Some (JS.VObject
              [ ("collection", metaName);
                ("edition", JS.VString edition);
                ("hadithnumber", JS.VNumber n);
                ("text", JS.VString text);
                ("grade",
                 JS.coalesce
                   (JS.get (JS.at_index (JS.get h "grades") 0) "grade") JS.VNull);
                ("reference", JS.coalesce (JS.get h "reference") JS.VUndefined) ])
  | _, _ => None
  end.

(** The [for (const hadithNo of guesses)] loop. *)
Fixpoint attempts (U : Upstream) (edition : string) (candidates : list Z)
  (last : option string) : traced HttpResponse :=
  match candidates with
  | [] =>
      ({| code := 502;
          payload :=
            JS.VObject
              [ ("error", JS.VString "Hadith fetch failed");
                ("detail",
                 JS.VString (match last with
                             | Some m => m
                             | None => ""
                             end)) ];
          cache_control := None |}, [])
  | hadithNo :: rest =>
      let '(res, t) := fetchJsonWithFallback U (urls_of edition hadithNo) in
      let continue_with e :=
        let '(r, t') := attempts U edition rest (Some e) in (r, (t ++ t')%list) in
      match res with
      | inr e => continue_with e
      | inl j =>
          let h := JS.at_index (JS.get j "hadiths") 0 in
          if negb (JS.truthy (JS.get h "text")) then
            continue_with "Hadith payload missing text"
          else
            match hadith_out edition hadithNo j with
            | Some out =>
                ({| code := 200; payload := stringify out;
                    cache_control :=
                      Some "public, s-maxage=21600, stale-while-revalidate=43200" |},
                 t)
            | None => continue_with (type_error U)
            end
      end
  end.

(** [edition] and [seed] as the handler reads them; [today] is
    [new Date().toISOString().slice(0, 10)]. *)
Definition edition_of (searchParams : string -> option string) : string :=
  JS.trim (param_or (searchParams "edition") "eng-bukhari").

Definition seed_of (searchParams : string -> option string) (today : string)
  : string :=
  JS.trim (param_or (searchParams "seed") today).

Definition GET (searchParams : string -> option string) (today : string)
  (U : Upstream) : traced HttpResponse :=
  let edition := edition_of searchParams in
  let seed := seed_of searchParams today in
  let base := hashToInt (edition ++ ":" ++ seed) in
  attempts U edition (guesses base) None.

End Hadith.

(* ===================================================================== *)
(** * Offline cache worker: the events *)
(* ===================================================================== *)

Module WorkerEvents.

Import Worker.
Local Open Scope worker_scope.

Definition APP_SHELL_ASSETS : list string :=
  ["/"; "/manifest.webmanifest"; "/favicon.ico"].

(** [throw new Error(...)] *)
Definition throw {A : Type} : M A := fun w => (Throws, w).

Section Events.

Variable network : Request -> option Response.

(** [self.location.origin], and what [new URL(u)] gives as [origin] and
    [pathname] of an absolute URL [u]. *)
Variable self_origin : string.
Variable origin_of : string -> string.
Variable pathname_of : string -> string.

(** The request that the string "/" stands for in [caches.match("/")]:
    a GET of the root document of the worker's origin, without
    headers. *)
Definition shell_request : Request :=
  {| method := "GET"; url := self_origin ++ "/"; mode := "cors";
     request_headers := [] |}.

Definition networkWithShellFallback (request : Request) : M Response :=
  try_catch
    (fresh <- fetch network request ;;
     cache <- caches_open APP_SHELL_CACHE ;;
     _ <- cache_put cache request fresh ;;
     ret fresh)
    (cached <- caches_match request ;;
     match cached with
     | Some r => ret r
     | None =>
         shell <- caches_match shell_request ;;
         match shell with
         | Some r => ret r
         | None => throw
         end
     end).

(** What the fetch listener does with an event: nothing (the browser
    handles the request itself), or [event.respondWith(...)]. *)
Inductive Handling :=
| PassThrough
| RespondWith (strategy : M Response).

(** The listener of the fetch event. *)
Definition on_fetch (request : Request) : Handling :=
  if negb (String.eqb (method request) "GET") then PassThrough
  else
    let pathname := pathname_of (url request) in
    let isSameOrigin := String.eqb (origin_of (url request)) self_origin in
    if negb isSameOrigin then PassThrough
    else if String.eqb (mode request) "navigate" then
      RespondWith (networkWithShellFallback request)
    else if String.prefix "/_next/static/" pathname
            || existsb (String.eqb pathname) APP_SHELL_ASSETS then
      RespondWith (cacheFirst network request)
    else if String.prefix "/api/" pathname then
      RespondWith (networkFirst network request)
    else PassThrough.

End Events.

(** [![APP_SHELL_CACHE, API_CACHE].includes(key)] *)
Definition is_stale (key : string) : bool :=
  negb (existsb (String.eqb key) [APP_SHELL_CACHE; API_CACHE]).

(** The work of the activate listener on the cache storage:
    [caches.delete(key)] for every stale key of [caches.keys()]. *)
Definition activate : M unit :=
  fun w =>
    (Returns tt,
     {| caches := filter (fun e => negb (is_stale (fst e))) (caches w);
        fetched := fetched w |}).

End WorkerEvents.

(* ===================================================================== *)
(** * The pages: query parameters, Jumu'ah, date ranges, slides *)
(* ===================================================================== *)

Module Math.

(** [Math.max(a, b)]: NaN when either is; +0 is above -0. *)
Definition max (a b : float) : float :=
  if is_nan a || is_nan b then nan
  else
    match classify a, classify b with
    | FloatClass.NZero, FloatClass.PZero => b
    | _, _ => if JS.lt a b then b else a
    end.

(** [Math.min(a, b)]: NaN when either is; -0 is below +0. *)
Definition min (a b : float) : float :=
  if is_nan a || is_nan b then nan
  else
    match classify a, classify b with
    | FloatClass.PZero, FloatClass.NZero => b
    | _, _ => if JS.lt b a then b else a
    end.

End Math.

(** [a <= b] on strings: code units in lexicographic order.  Strings are
    held in UTF-8 here, whose byte order is that of UTF-16 code units
    for every text without characters beyond U+D7FF. *)
Definition string_le (a b : string) : bool :=
  match String.compare a b with
  | Gt => false
  | _ => true
  end.

(** [!s] for [s : string | null] *)
Definition absent (s : option string) : bool :=
  match s with
  | None => true
  | Some s => String.eqb s ""
  end.

(** [Math.max(floor, Number(sp.get("cycle") ?? initial))] *)
Definition cycle_seconds (floor initial : float) (cycle : option string)
  : float :=
  Math.max floor
    (match cycle with
     | Some s => JS.StringToNumber s
     | None => initial
     end).

(** The rows of Jumu'ah times, which the dashboard and Aurora declare
    alike; the field [jamaat_time] is [jumuah_jamaat_time] here, apart
    from the one of [PrayerRow]. *)
Record JumuahRow := {
  id : float;
  slot : float;
  khutbah_time : string;
  jumuah_jamaat_time : string;
  language : option string;
  notes : option string;
  valid_from : option string;
  valid_to : option string
}.

(** [(!r.valid_from || r.valid_from <= ymd) &&
     (!r.valid_to || r.valid_to >= ymd)], which both clients compute
    for their Jumu'ah rows. *)
Definition in_date_range (r : JumuahRow) (ymd : string) : bool :=
  let fromOk :=
    absent (valid_from r)
    || match valid_from r with
       | Some f => string_le f ymd
       | None => false
       end in
  let toOk :=
    absent (valid_to r)
    || match valid_to r with
       | Some t => string_le ymd t
       | None => false
       end in
  fromOk && toOk.

(** ** The dashboard client, [app/TVClient.tsx]: the component *)

Module DashboardPage.

Record NextJumuah := { row : JumuahRow; mins : float }.

Inductive SlideKey := board | jumuah | announcements.

Definition formatTimeHHMM (time : option string) : string :=
  if absent time then placeholder
  else match time with Some t => JS.slice0 5 t | None => placeholder end.

(** The [for (const row of jumuah)] loop. *)
Fixpoint scan (minutesNow : float) (jumuah : list JumuahRow)
  : option NextJumuah :=
  match jumuah with
  | [] => None
  | r :: rest =>
      match Dashboard.timeToMinutes (Some (khutbah_time r)) with
      | None => scan minutesNow rest
      | Some m =>
          if JS.ge m minutesNow then Some {| row := r; mins := m |}
          else scan minutesNow rest
      end
  end.

Definition computeNextJumuah (P : Platform) (jumuah : list JumuahRow)
  (tz : option string) : outcome (option NextJumuah) :=
  n <- Dashboard.nowInTimeZone P tz ;;
  let minutesNow := minutes_of n in
  Returns (scan minutesNow jumuah).

Definition cycleSec (cycle : option string) : float :=
  cycle_seconds 8 14 cycle.

(** [clock.weekday === "Fri"] *)
Definition isFriday (clock : Clock) : bool := String.eqb (weekday clock) "Fri".

Definition filterActiveByDate (rows : list JumuahRow) (ymd : string)
  : list JumuahRow :=
  filter (fun r => in_date_range r ymd) rows.

(** The slides of the slideshow effect; the list lengths are those of
    [activeJumuah] and [announcements]. *)
Definition slides (isFriday : bool)
  (activeJumuah_length announcements_length : nat) : list SlideKey :=
  ([board]
   ++ (if isFriday && (0 <? activeJumuah_length)%nat then [jumuah] else [])
   ++ (if (0 <? announcements_length)%nat then [announcements] else []))%list.

(** The [nextJ] memo. *)
Definition nextJ (P : Platform) (isFriday : bool)
  (activeJumuah : list JumuahRow) (tz : option string)
  : outcome (option NextJumuah) :=
  if isFriday then computeNextJumuah P activeJumuah tz else Returns None.

(** The end of the [jumuahCountdown] memo: a past khutbah counts as
    zero minutes. *)
Definition clamp (diff : float) : float :=
  if JS.lt diff 0%float then 0%float else diff.

(** The [jumuahCountdown] memo: [None] is [null]. *)
Definition jumuahCountdown (P : Platform) (isFriday : bool)
  (nextJ : option NextJumuah) (tz : option string) : outcome (option string) :=
  match nextJ with
  | Some nextJ =>
      if negb isFriday then Returns None
      else
        n <- Dashboard.nowInTimeZone P tz ;;
        let nowM := minutes_of n in
        let diff := clamp (mins nextJ - nowM)%float in
        Returns (Some (countdown_text diff))
  | None => Returns None
  end.

End DashboardPage.

(** ** The legacy client: the component *)

Module LegacyPage.

Inductive SlideKey := board | announcements.

(** [time?.slice(0, 5) ?? "—"]: only [null] gives the placeholder. *)
Definition formatTimeHHMM (time : option string) : string :=
  match time with
  | Some t => JS.slice0 5 t
  | None => placeholder
  end.

Definition cycleSec (cycle : option string) : float :=
  cycle_seconds 8 14 cycle.

Definition slides (announcements_length : nat) : list SlideKey :=
  if (0 <? announcements_length)%nat then [board; announcements] else [board].

End LegacyPage.

(** ** Aurora: the component *)

Module AuroraPage.

Inductive SlideType :=
| welcome | clock | prayers | next_prayer | jumuah | announcement
| weather | hadith | qr.

Definition SlideType_eqb (a b : SlideType) : bool :=
  match a, b with
  | welcome, welcome | clock, clock | prayers, prayers
  | next_prayer, next_prayer | jumuah, jumuah | announcement, announcement
  | weather, weather | hadith, hadith | qr, qr => true
  | _, _ => false
  end.

Definition formatTime (t : option string) : string :=
  if absent t then placeholder
  else match t with Some t => JS.slice0 5 t | None => placeholder end.

Definition cycleSec (cycle : option string) : float :=
  cycle_seconds 6 10 cycle.

(** [clock.weekday === "Friday"] *)
Definition isFriday (c : Clock) : bool := String.eqb (weekday c) "Friday".

(** The filter of the Jumu'ah rows in the loader. *)
Definition active (j : list JumuahRow) (today : string) : list JumuahRow :=
  filter (fun r => in_date_range r today) j.

Section Slides.

(** The rows of announcements, the weather and the hadith are only
    counted or tested here. *)
Variables AnnouncementRow WeatherOut HadithOut : Type.

(** The [slides] memo. *)
Definition slides (P : Platform) (prayerRows : list PrayerRow)
  (tz : option string) (isFriday : bool) (jumuahSlots : list JumuahRow)
  (announcements : list AnnouncementRow) (weatherOut : option WeatherOut)
  (hadithOut : option HadithOut) : outcome (list SlideType) :=
  next <- Aurora.getNextPrayer P prayerRows tz ;;
  Returns
    ([welcome; clock; prayers]
     ++ (match next with Some _ => [next_prayer] | None => [] end)
     ++ (if isFriday && (0 <? List.length jumuahSlots)%nat then [jumuah]
         else [])
     ++ map (fun _ => announcement) announcements
     ++ (match weatherOut with Some _ => [weather] | None => [] end)
     ++ (match hadithOut with Some _ => [hadith] | None => [] end)
     ++ [qr])%list.

(** [slides.slice(0, currentSlide + 1)
      .filter((s) => s === "announcement").length - 1] *)
Definition announcementIndex (slides : list SlideType) (currentSlide : nat)
  : Z :=
  Z.of_nat
    (List.length
       (filter (fun s => SlideType_eqb s announcement)
          (firstn (currentSlide + 1) slides))) - 1.

(** [announcements[announcementIndex]], [None] for [undefined] *)
Definition shown_announcement (announcements : list AnnouncementRow)
  (slides : list SlideType) (currentSlide : nat) : option AnnouncementRow :=
  let i := announcementIndex slides currentSlide in
  if i <? 0 then None else nth_error announcements (Z.to_nat i).

End Slides.

(** [(prev + 1) % slides.length], of the rotation timer; the effect
    does not start the timer for an empty list. *)
Definition rotate (slides_length prev : nat) : nat :=
  ((prev + 1) mod slides_length)%nat.

End AuroraPage.

(** ** The first display, [TvHome] *)

Module TvHome.

Record PrayerRow := {
  prayer : PrayerKey;
  start_time : string;
  jamaat_time : string
}.

Definition hhmm (t : option string) : string :=
  if absent t then placeholder
  else match t with Some t => JS.slice0 5 t | None => placeholder end.

(** [getParam(name)]; [window] is [None] where there is no window,
    else it is [new URLSearchParams(window.location.search).get]. *)
Definition getParam (window : option (string -> option string))
  (name : string) : option string :=
  match window with
  | None => None
  | Some get =>
      match get name with
      | Some v =>
          if negb (String.eqb v "") && (0 <? String.length (JS.trim v))%nat
          then Some (JS.trim v)
          else None
      | None => None
      end
  end.

(** The object [map] of the loader: a row or [null] under each of the
    five keys. *)
Definition PrayerMap := PrayerKey -> option PrayerRow.

Definition empty_map : PrayerMap := fun _ => None.

(** [map[key] = r] *)
Definition set_row (map : PrayerMap) (key : PrayerKey) (r : PrayerRow)
  : PrayerMap :=
  fun k => if PrayerKey_eqb k key then Some r else map k.

(** [pData?.forEach((r) => { map[r.prayer] = r; })] from the empty map *)
Definition prayers_of (pData : option (list PrayerRow)) : PrayerMap :=
  match pData with
  | Some rows => fold_left (fun map r => set_row map (prayer r) r) rows empty_map
  | None => empty_map
  end.

(** The two buttons of the rotation setting, and the state
    [slideSeconds] after some presses, from its initial value. *)
Inductive Press := Minus | Plus.

Definition press (s : float) (p : Press) : float :=
  match p with
  | Minus => Math.max 4 (s - 2)
  | Plus => Math.min 30 (s + 2)
  end.

Definition slideSeconds (presses : list Press) : float :=
  fold_left press presses 10%float.


End TvHome.

(** A sample platform: Monday 2 November 2026, [hh:mi:00], in every
    zone it knows; any other identifier is rejected. *)
Definition sample_parts (style hh mi : string) : list part :=
  [ {| ptype := "weekday"; pvalue := if String.eqb style "long" then "Monday" else "Mon" |};
    {| ptype := "literal"; pvalue := ", " |};
    {| ptype := "day"; pvalue := "02" |};
    {| ptype := "literal"; pvalue := "/" |};
    {| ptype := "month"; pvalue := "11" |};
    {| ptype := "literal"; pvalue := "/" |};
    {| ptype := "year"; pvalue := "2026" |};
    {| ptype := "literal"; pvalue := ", " |};
    {| ptype := "hour"; pvalue := hh |};
    {| ptype := "literal"; pvalue := ":" |};
    {| ptype := "minute"; pvalue := mi |};
    {| ptype := "literal"; pvalue := ":" |};
    {| ptype := "second"; pvalue := "00" |} ].

Definition sample_platform (hh mi : string) : Platform :=
  {| formatToParts := fun style tz =>
       if String.eqb tz "Europe/Rome" || String.eqb tz "Asia/Karachi"
       then Some (sample_parts style hh mi) else None |}.

Definition mk (k : PrayerKey) (s j : string) : PrayerRow :=
  {| prayer := k; start_time := s; jamaat_time := j; date := "2026-11-02" |}.

Definition sample_rows : list PrayerRow :=
  [ mk fajr "05:00:00" "05:20:00"; mk dhuhr "13:00:00" "13:15:00";
    mk asr "16:00:00" "16:20:00"; mk maghrib "19:00:00" "19:05:00";
    mk isha "20:30:00" "20:45:00" ].


(* ===================================================================== *)
(** * Notions used to state the properties *)
(* ===================================================================== *)

(** Position of a prayer in [PRAYER_ORDER]. *)
Definition rank (k : PrayerKey) : nat :=
  match k with
  | fajr => 0
  | dhuhr => 1
  | asr => 2
  | maghrib => 3
  | isha => 4
  end.

(** A prayer is due when the first of today's rows that carries its name
    has a jamaat time, in minutes, that [minutes] can read and that is
    not before [now]. *)
Definition due (minutes : string -> option float) (todayRows : list PrayerRow)
  (now : float) (k : PrayerKey) : option (PrayerRow * float) :=
  match find_row k todayRows with
  | Some r =>
      match minutes (jamaat_time r) with
      | Some m => if JS.ge m now then Some (r, m) else None
      | None => None
      end
  | None => None
  end.

(** [k] is the first prayer of the canonical order that is due. *)
Definition first_due (minutes : string -> option float)
  (todayRows : list PrayerRow) (now : float) (k : PrayerKey)
  (r : PrayerRow) (m : float) : Prop :=
  due minutes todayRows now k = Some (r, m)
  /\ forall k', (rank k' < rank k)%nat -> due minutes todayRows now k' = None.

Definition none_due (minutes : string -> option float)
  (todayRows : list PrayerRow) (now : float) : Prop :=
  forall k, due minutes todayRows now k = None.

(** How each client reads a jamaat time. *)
Definition dashboard_minutes (t : string) : option float :=
  Dashboard.timeToMinutes (Some t).
Definition aurora_minutes (t : string) : option float :=
  Aurora.timeToMins (Some t).
Definition legacy_minutes (t : string) : option float :=
  Some (Legacy.raw_minutes t).

(** A time without a colon in its first five characters has no minutes
    field. *)
Definition lacks_minutes (t : string) : bool :=
  negb (existsb (Ascii.eqb ":") (firstn 5 (JS.chars t))).

(** The integers [lo], [lo + 1], ..., [hi - 1]. *)
Fixpoint upto (n : nat) (lo : Z) : list Z :=
  match n with
  | O => []
  | S n' => lo :: upto n' (lo + 1)
  end.

Definition range (lo hi : Z) : list Z := upto (Z.to_nat (hi - lo)) lo.

(** The Number of a small integer, by the machine conversion. *)
Definition small (z : Z) : float :=
  if z <? 0 then opp (of_uint63 (Uint63Axioms.of_Z (- z)))
  else of_uint63 (Uint63Axioms.of_Z z).

(** The countdown of the dashboard for [d] whole minutes, as the
    specification words it. *)
Definition countdown_spec (d : Z) : string :=
  if d <? 60 then JS.digits d ++ " min"
  else JS.digits (d / 60) ++ "h " ++ JS.digits (d mod 60) ++ "m".

(** The countdown of Aurora for [d] whole minutes: no minutes part when
    it is zero. *)
Definition aurora_countdown_spec (d : Z) : string :=
  if d <? 60 then JS.digits d ++ " min"
  else if d mod 60 =? 0 then JS.digits (d / 60) ++ "h"
  else JS.digits (d / 60) ++ "h " ++ JS.digits (d mod 60) ++ "m".

(** [diff < 0 ? diff + 24 * 60 : diff] *)
Definition wrap_day (diff : float) : float :=
  if JS.lt diff 0%float then (diff + 1440)%float else diff.

(** A JSON value that is null or a finite number. *)
Definition finite_or_null (v : JS.value) : bool :=
  match v with
  | JS.VNull => true
  | JS.VNumber x => JS.isFinite x
  | _ => false
  end.

(** A sample world of the worker: one static asset in the app-shell
    cache, one API response in the API cache. *)
Definition sample_asset : Worker.Response :=
  {| Worker.status := 200;
     Worker.headers := [("Content-Type", "text/javascript")];
     Worker.body := Worker.Text "console.log(1)" |}.

Definition sample_api_response : Worker.Response :=
  {| Worker.status := 404;
     Worker.headers := [("Content-Type", "application/json")];
     Worker.body := Worker.Json (error_body "City not found") |}.

Definition asset_request : Worker.Request :=
  {| Worker.method := "GET";
     Worker.url := "https://tv.example/_next/static/app.js";
     Worker.mode := "no-cors";
     Worker.request_headers := [("Accept", "*/*")] |}.

Definition api_request : Worker.Request :=
  {| Worker.method := "GET";
     Worker.url := "https://tv.example/api/weather?city=Atlantis";
     Worker.mode := "cors";
     Worker.request_headers := [("Accept", "application/json")] |}.

Definition sample_world : Worker.World :=
  {| Worker.caches :=
       [ (Worker.APP_SHELL_CACHE, [(asset_request, sample_asset)]);
         (Worker.API_CACHE, [(api_request, sample_api_response)]) ];
     Worker.fetched := [] |}.

Definition offline (_ : Worker.Request) : option Worker.Response := None.

(** A sample forecast: three days, a temperature sent as a string, a
    precipitation array that is one day short. *)
Definition sample_forecast : JS.value :=
  JS.VObject
    [ ("current_weather",
       JS.VObject [ ("temperature", JS.VString "21.5");
                    ("weathercode", JS.VNumber 3) ]);
      ("daily",
       JS.VObject
         [ ("time", JS.VArray [ JS.VString "2026-11-02"; JS.VString "2026-11-03";
                                JS.VString "2026-11-04" ]);
           ("temperature_2m_max",
            JS.VArray [ JS.VNumber 18; JS.VNull; JS.VString "17" ]);
           ("temperature_2m_min",
            JS.VArray [ JS.VNumber 9; JS.VNumber 8; JS.VNumber 7 ]);
           ("precipitation_probability_max",
            JS.VArray [ JS.VNumber 10; JS.VNumber 60 ]);
           ("weathercode",
            JS.VArray [ JS.VNumber 3; JS.VNumber 61; JS.VNumber 0 ]) ]) ].

Definition sample_weather_upstream : Weather.Upstream :=
  {| Weather.geocode := fun _ => None;
     Weather.forecast := fun _ _ _ =>
       Some {| ok := true; reply_status := 200; json := Some sample_forecast |} |}.

Definition sample_weather_query (k : string) : option string :=
  if String.eqb k "lat" then Some "41.9"
  else if String.eqb k "lon" then Some "12.5"
  else None.

(** The response of the weather proxy to the sample query. *)
Definition sample_weather_response : HttpResponse :=
  match Weather.GET sample_weather_query sample_weather_upstream with
  | Returns r => r
  | Throws => {| code := 500; payload := JS.VUndefined; cache_control := None |}
  end.

(** The expectation of the claim on the daily mapping, in its own
    words.  [upstream_array f column] is the array that the upstream
    payload [f] holds under [daily.<column>], the empty array when it
    holds nothing there, and [None] when it holds something else;
    [number_or_null l i] is the number at index [i] of [l] when there
    is a finite number there, and null otherwise. *)
Definition upstream_array (f : JS.value) (column : string)
  : option (list JS.value) :=
  match JS.get (JS.get f "daily") column with
  | JS.VArray l => Some l
  | v => if JS.truthy v then None else Some []
  end.

Definition number_or_null (l : list JS.value) (i : nat) : JS.value :=
  match nth_error l i with
  | Some (JS.VNumber x) =>
      if JS.isFinite x then JS.VNumber (if is_zero x then zero else x)
      else JS.VNull
  | _ => JS.VNull
  end.

(** [l1] is an initial segment of [l2]. *)
Definition prefix {A : Type} (l1 l2 : list A) : Prop :=
  exists l3, l2 = (l1 ++ l3)%list.

(** A trace of the hadith proxy over the candidates [candidates]: for
    an initial segment of them, in order, a non-empty initial segment of
    the four URLs of each. *)
Definition candidate_trace (edition : string) (candidates : list Z)
  (trace : list string) : Prop :=
  exists tried chunks,
    prefix tried candidates
    /\ Forall2 (fun g chunk =>
                  chunk <> [] /\ prefix chunk (Hadith.urls_of edition g))
         tried chunks
    /\ trace = List.concat chunks.

(** Two sample queries for the hadith proxy that name the same edition
    and seed in different ways, and mirrors that are all down. *)
Definition hadith_query_a (k : string) : option string :=
  if String.eqb k "edition" then Some "eng-bukhari"
  else if String.eqb k "seed" then Some "2026-11-02"
  else None.

Definition hadith_query_b (k : string) : option string :=
  if String.eqb k "seed" then Some " 2026-11-02 "
  else if String.eqb k "debug" then Some "1"
  else None.

Definition mirrors_down : Hadith.Upstream :=
  {| Hadith.fetch := fun _ => None;
     Hadith.failure := fun _ => "fetch failed";
     Hadith.type_error := "Cannot convert object to primitive value" |}.

(** The storage after [caches.open(name)], and after the
    [cache.put(request, r)] that follows it in the three strategies. *)
Definition opened (name : string) (cs : Worker.CacheStorage)
  : Worker.CacheStorage :=
  if Worker.has_cache name cs then cs else (cs ++ [(name, [])])%list.

Definition stored (name : string) (request : Worker.Request)
  (r : Worker.Response) (cs : Worker.CacheStorage) : Worker.CacheStorage :=
  if Worker.put_accepts request r
  then Worker.storage_put name request r (opened name cs)
  else opened name cs.

(** A strategy that, from any world, changes what the caches answer
    only in the cache [target] and only for requests whose URL is, the
    fragment apart, that of its request, and that sends at most the
    request itself to the network. *)
Definition writes_only (target : string) (request : Worker.Request)
    (run : Worker.M Worker.Response) : Prop :=
  forall w o w',
    run w = (o, w') ->
    (forall name q,
        name <> target
        \/ Worker.same_url (Worker.url q) (Worker.url request) = false ->
        Worker.cached_in name q (Worker.caches w')
        = Worker.cached_in name q (Worker.caches w))
    /\ (forall q,
           Worker.same_url (Worker.url q) (Worker.url request) = false ->
           Worker.storage_match q (Worker.caches w')
           = Worker.storage_match q (Worker.caches w))
    /\ (forall name u,
           name <> target \/ Worker.same_url u (Worker.url request) = false ->
           Worker.entry name u (Worker.caches w')
           = Worker.entry name u (Worker.caches w))
    /\ (Worker.fetched w' = Worker.fetched w
        \/ Worker.fetched w' = (Worker.fetched w ++ [request])%list).




Definition api_request_at_top : Worker.Request :=
  {| Worker.method := "GET";
     Worker.url := "https://tv.example/api/weather?city=Atlantis#top";
     Worker.mode := "cors";
     Worker.request_headers := [] |}.

(** A sample page of the worker's origin, its navigation request, a
    request that writes, a network that serves the page for every
    request, and a world whose storage has an outdated cache. *)
Definition sample_origin : string := "https://tv.example".

Definition sample_page : Worker.Response :=
  {| Worker.status := 200;
     Worker.headers := [("Content-Type", "text/html")];
     Worker.body := Worker.Text "<!doctype html>" |}.

Definition page_request : Worker.Request :=
  {| Worker.method := "GET";
     Worker.url := "https://tv.example/aurora?masjid=7";
     Worker.mode := "navigate";
     Worker.request_headers := [("Accept", "text/html")] |}.


Definition post_request : Worker.Request :=
  {| Worker.method := "POST";
     Worker.url := "https://tv.example/api/weather";
     Worker.mode := "cors";
     Worker.request_headers := [] |}.

Definition online (_ : Worker.Request) : option Worker.Response :=
  Some sample_page.

Definition outdated_world : Worker.World :=
  {| Worker.caches :=
       [ ("ummahway-shell-v0", [(page_request, sample_page)]);
         (Worker.APP_SHELL_CACHE, [(asset_request, sample_asset)]);
         (Worker.API_CACHE, [(api_request, sample_api_response)]) ];
     Worker.fetched := [asset_request] |}.

(** The origin and the pathname of an absolute http(s) URL without
    userinfo: the text before the third slash, and the text from there
    to the query or the fragment. *)
Fixpoint skip_slashes (n : nat) (u : list ascii) : list ascii * list ascii :=
  match u with
  | [] => ([], [])
  | c :: rest =>
      if Ascii.eqb c "/" then
        match n with
        | O => ([], u)
        | S n' => let '(o, p) := skip_slashes n' rest in (c :: o, p)
        end
      else let '(o, p) := skip_slashes n rest in (c :: o, p)
  end.

Fixpoint until_query (p : list ascii) : list ascii :=
  match p with
  | [] => []
  | c :: rest =>
      if Ascii.eqb c "?" || Ascii.eqb c "#" then [] else c :: until_query rest
  end.

Definition sample_origin_of (u : string) : string :=
  JS.str (fst (skip_slashes 2 (JS.chars u))).

Definition sample_pathname_of (u : string) : string :=
  match until_query (snd (skip_slashes 2 (JS.chars u))) with
  | [] => "/"
  | p => JS.str p
  end.

(** A slide duration that is never under [floor] seconds, is NaN
    exactly for a [cycle] parameter that is given and is not a number,
    and is otherwise the larger of [floor] and the number given. *)
Definition floor_or_nan (floor : float) (cycleSec : option string -> float)
  : Prop :=
  forall cycle,
    (is_nan (cycleSec cycle) = true
     <-> exists s, cycle = Some s /\ is_nan (JS.StringToNumber s) = true)
    /\ (is_nan (cycleSec cycle) = false ->
        PrimFloat.leb floor (cycleSec cycle) = true)
    /\ (forall s,
           cycle = Some s -> is_nan (JS.StringToNumber s) = false ->
           cycleSec cycle
           = if PrimFloat.ltb floor (JS.StringToNumber s)
             then JS.StringToNumber s else floor).

(** The minutes of a khutbah that the dashboard can read and that are
    not before [now]. *)
Definition khutbah_due (now : float) (r : JumuahRow) : option float :=
  match Dashboard.timeToMinutes (Some (khutbah_time r)) with
  | Some m => if JS.ge m now then Some m else None
  | None => None
  end.

(** A calendar date [(year, month, day)], its ISO form as the database
    sends it, and chronological order. *)
Definition iso_date (d : Z * Z * Z) : string :=
  let '(y, m, dd) := d in
  JS.digits y ++ "-" ++ JS.padStart2 (JS.digits m) ++ "-"
  ++ JS.padStart2 (JS.digits dd).

Definition date_le (a b : Z * Z * Z) : bool :=
  let '(y1, m1, d1) := a in
  let '(y2, m2, d2) := b in
  (y1 <? y2) || (y1 =? y2) && ((m1 <? m2) || (m1 =? m2) && (d1 <=? d2)).

Definition calendar (d : Z * Z * Z) : Prop :=
  let '(y, m, dd) := d in
  1000 <= y <= 9999 /\ 1 <= m <= 12 /\ 1 <= dd <= 31.

(** The decimal digit [k] as a character. *)
Definition digit_char (k : Z) : ascii := ascii_of_N (Z.to_N (48 + k)).

(** A Jumu'ah row with a khutbah time and a date range. *)
Definition jumuah_row (n : Z) (khutbah : string) (from to : option string)
  : JumuahRow :=
  {| id := JS.of_Z n; slot := JS.of_Z n; khutbah_time := khutbah;
     jumuah_jamaat_time := khutbah; language := None; notes := None;
     valid_from := from; valid_to := to |}.

Definition sample_jumuah : list JumuahRow :=
  [ jumuah_row 1 "12:30:00" None None;
    jumuah_row 2 "tbc" (Some "2026-10-01") None;
    jumuah_row 3 "13:30:00" (Some "2026-10-25") (Some "2027-03-27") ].

Definition same_comparison (a b : comparison) : bool :=
  match a, b with
  | Eq, Eq | Lt, Lt | Gt, Gt => true
  | _, _ => false
  end.

(** The date [today] is within the bounds that are given. *)
Definition within (from : option (Z * Z * Z)) (today : Z * Z * Z)
  (to : option (Z * Z * Z)) : bool :=
  match from with Some f => date_le f today | None => true end
  && match to with Some t => date_le today t | None => true end.

Definition calendar_bound (b : option (Z * Z * Z)) : Prop :=
  match b with Some d => calendar d | None => True end.

(** A clock that shows the calendar date [d]. *)
Definition shows (c : Clock) (d : Z * Z * Z) : Prop :=
  let '(y, m, dd) := d in
  year c = JS.of_Z y /\ month c = JS.of_Z m /\ day c = JS.of_Z dd.

(** A mirror refuses a URL when [fetch] rejects or the reply is not ok;
    [refusal] is the message of the error the proxy then keeps. *)
Definition refuses (U : Hadith.Upstream) (url : string) : Prop :=
  match Hadith.fetch U url with
  | None => True
  | Some r => ok r = false
  end.

Definition refusal (U : Hadith.Upstream) (url : string) : string :=
  match Hadith.fetch U url with
  | None => Hadith.failure U url
  | Some r => "HTTP " ++ JS.digits (reply_status r) ++ " for " ++ url
  end.

(** The error kept after the URLs [urls] were all refused. *)
Definition error_after (U : Hadith.Upstream) (urls : list string)
  (lastErr : option string) : option string :=
  fold_left (fun _ url => Some (refusal U url)) urls lastErr.

(** Mirrors that answer every URL with a 404. *)
Definition mirrors_404 : Hadith.Upstream :=
  {| Hadith.fetch := fun _ =>
       Some {| ok := false; reply_status := 404; json := None |};
     Hadith.failure := fun _ => "fetch failed";
     Hadith.type_error := "Cannot convert object to primitive value" |}.

(** The two shapes of an answer of the hadith proxy. *)
Definition hadith_answer (r : HttpResponse) : Prop :=
  (code r = 200
   /\ cache_control r
      = Some "public, s-maxage=21600, stale-while-revalidate=43200")
  \/ (code r = 502
      /\ cache_control r = None
      /\ exists detail,
           payload r
           = JS.VObject [ ("error", JS.VString "Hadith fetch failed");
                          ("detail", JS.VString detail) ]).

(** The answers of the weather proxy: the forecast with its
    fifteen-minute Cache-Control header, or one of four errors without
    a header. *)
Definition weather_answer (r : HttpResponse) : Prop :=
  (code r = 200
   /\ cache_control r = Some "public, s-maxage=900, stale-while-revalidate=1800")
  \/ (cache_control r = None
      /\ In (code r, payload r)
           [ (400, error_body "Missing city (or lat/lon)");
             (502, error_body "Geocoding failed");
             (404, error_body "City not found");
             (502, error_body "Forecast failed") ]).

(** A query with coordinates that do not read as numbers, and an
    upstream that records the coordinates it is asked for in the error
    it answers with. *)
Definition unreadable_coordinates (k : string) : option string :=
  if String.eqb k "lat" then Some "north"
  else if String.eqb k "lon" then Some "12.5"
  else None.

(* ===================================================================== *)
(** * The primitives on known values *)
(* ===================================================================== *)

(** [String(Number(s))] as an ECMAScript engine prints it. *)
Example number_round_trips :
  map (fun s => JS.NumberToString (JS.StringToNumber s))
    [ "05"; "0.1"; " 1e3 "; "0x1F"; "1e-9"; "-.5e1"; "1e309"; "5e-324";
      "2e-324"; "9007199254740993"; "1e23"; "abc"; ""; "1e21";
      "123456789012345678901234567890"; "0.000001234";
      "1.7976931348623157e308"; "-0"; "4.2"; "0.0000001"; "12:30"; "0b101";
      "0o17"; ".5"; "5."; "+7"; "Infinity"; "-Infinity"; "1e"; "."; "-1.5";
      "100"; "0.30000000000000004"; "1234.5678"; "2.5e-7"; "123e-20" ]
  = [ "5"; "0.1"; "1000"; "31"; "1e-9"; "-5"; "Infinity"; "5e-324";
      "0"; "9007199254740992"; "1e+23"; "NaN"; "0"; "1e+21";
      "1.2345678901234568e+29"; "0.000001234";
      "1.7976931348623157e+308"; "0"; "4.2"; "1e-7"; "NaN"; "5";
      "15"; "0.5"; "5"; "7"; "Infinity"; "-Infinity"; "NaN"; "NaN"; "-1.5";
      "100"; "0.30000000000000004"; "1234.5678"; "2.5e-7"; "1.23e-18" ].
Proof. vm_compute. reflexivity. Qed.

Example floor_values :
  map (fun s => JS.NumberToString (JS.floor (JS.StringToNumber s)))
    [ "0.5"; "-0.5"; "2.7"; "-2.7"; "8"; "-3"; "1e300"; "59.999"; "abc" ]
  = [ "0"; "-1"; "2"; "-3"; "8"; "-3"; "1e+300"; "59"; "NaN" ].
Proof. vm_compute. reflexivity. Qed.

Example remainder_values :
  map (fun s => JS.NumberToString (JS.rem (JS.StringToNumber s) 60))
    [ "480"; "59"; "60"; "-61"; "0.5"; "125.5"; "1e22"; "Infinity"; "abc" ]
  = [ "0"; "59"; "0"; "-1"; "0.5"; "5.5"; "40"; "NaN"; "NaN" ].
Proof. vm_compute. reflexivity. Qed.

(** The hash is the 32-bit FNV-1a hash, made non-negative. *)
Example hash_values :
  map Hadith.hashToInt [""; "a"; "abc"]
  = [2166136261; 468965076; 440920331].
Proof. vm_compute. reflexivity. Qed.

(** Jamaat times as the dashboard reads them: the seconds are cut off,
    a time without a colon has no minutes and is no value. *)
Example time_values :
  map (fun t => option_map JS.NumberToString (dashboard_minutes t))
    [ "05:20:00"; "16:00"; "5:0:0"; "05"; "0520"; ""; "ab:cd"; "24:00:00" ]
  = [ Some "320"; Some "960"; Some "300"; None; None; None; None; Some "1440" ].
Proof. vm_compute. reflexivity. Qed.

Example legacy_time_values :
  map (fun t => JS.NumberToString (Legacy.raw_minutes t))
    [ "05:20:00"; "05"; "0520"; ""; "ab:cd" ]
  = [ "320"; "NaN"; "NaN"; "NaN"; "NaN" ].
Proof. vm_compute. reflexivity. Qed.

(** The sample day at 14:00: asr, at its jamaat time 16:20. *)
Example sample_day_at_two :
  Dashboard.computeNextPrayer (sample_platform "14" "00") sample_rows None
  = Returns (Some {| Dashboard.next_prayer := asr; Dashboard.mins := 980 |})
  /\ Aurora.getNextPrayer (sample_platform "14" "00") sample_rows None
     = Returns (Some {| Aurora.key := asr;
                        Aurora.row := mk asr "16:00:00" "16:20:00";
                        Aurora.mins := 980; Aurora.diff := 140 |})
  /\ Aurora.formatCountdown 140 = "2h 20m".
Proof. repeat split; vm_compute; reflexivity. Qed.

(** A binary64 value that is a zero or a finite non-zero number. *)
Definition finite_SF (x : spec_float) : bool :=
  match x with
  | S754_zero _ | S754_finite _ _ _ => true
  | _ => false
  end.

(* ===================================================================== *)
(** * Schedule utilities: properties *)
(* ===================================================================== *)

Section NextPrayer.

Variable todayRows : list PrayerRow.
Variable now : float.

Lemma dashboard_scan_cons k keys :
  Dashboard.scan todayRows now (k :: keys) =
  match due dashboard_minutes todayRows now k with
  | Some (_, m) => Some {| Dashboard.next_prayer := k; Dashboard.mins := m |}
  | None => Dashboard.scan todayRows now keys
  end.
Proof.
  unfold due, dashboard_minutes. cbn [Dashboard.scan].
  destruct (find_row k todayRows) as [r|]; [|reflexivity].
  destruct (Dashboard.timeToMinutes (Some (jamaat_time r))) as [m|]; [|reflexivity].
  destruct (JS.ge m now); reflexivity.
Qed.

Lemma legacy_scan_cons k keys :
  Legacy.scan todayRows now (k :: keys) =
  match due legacy_minutes todayRows now k with
  | Some (_, m) => Some {| Legacy.next_prayer := k; Legacy.mins := m |}
  | None => Legacy.scan todayRows now keys
  end.
Proof.
  unfold due, legacy_minutes. cbn [Legacy.scan].
  destruct (find_row k todayRows) as [r|]; [|reflexivity].
  destruct (JS.ge (Legacy.raw_minutes (jamaat_time r)) now); reflexivity.
Qed.

Lemma aurora_scan_cons k keys :
  Aurora.scan todayRows now (k :: keys) =
  match due aurora_minutes todayRows now k with
  | Some (r, m) =>
      Some {| Aurora.key := k; Aurora.row := r; Aurora.mins := m;
              Aurora.diff := (m - now)%float |}
  | None => Aurora.scan todayRows now keys
  end.
Proof.
  unfold due, aurora_minutes. cbn [Aurora.scan].
  destruct (find_row k todayRows) as [r|]; [|reflexivity].
  destruct (Aurora.timeToMins (Some (jamaat_time r))) as [m|]; [|reflexivity].
  destruct (JS.ge m now); reflexivity.
Qed.

(** Rewrites a scan of [PRAYER_ORDER] up to the first due prayer [k],
    using that the prayers before it are not due. *)
Ltac scan_to cons_lemma k Hk Hbefore :=
  unfold PRAYER_ORDER;
  destruct k; cbn [rank] in Hbefore;
  repeat (rewrite cons_lemma;
          first [ rewrite Hk; reflexivity
                | rewrite Hbefore by (cbn [rank]; lia) ]).

Lemma dashboard_scan_first k r m :
  first_due dashboard_minutes todayRows now k r m ->
  Dashboard.scan todayRows now PRAYER_ORDER =
  Some {| Dashboard.next_prayer := k; Dashboard.mins := m |}.
Proof. intros [Hk Hbefore]. scan_to dashboard_scan_cons k Hk Hbefore. Qed.

Lemma legacy_scan_first k r m :
  first_due legacy_minutes todayRows now k r m ->
  Legacy.scan todayRows now PRAYER_ORDER =
  Some {| Legacy.next_prayer := k; Legacy.mins := m |}.
Proof. intros [Hk Hbefore]. scan_to legacy_scan_cons k Hk Hbefore. Qed.

Lemma aurora_scan_first k r m :
  first_due aurora_minutes todayRows now k r m ->
  Aurora.scan todayRows now PRAYER_ORDER =
  Some {| Aurora.key := k; Aurora.row := r; Aurora.mins := m;
          Aurora.diff := (m - now)%float |}.
Proof. intros [Hk Hbefore]. scan_to aurora_scan_cons k Hk Hbefore. Qed.

Lemma dashboard_scan_none :
  none_due dashboard_minutes todayRows now ->
  Dashboard.scan todayRows now PRAYER_ORDER = None.
Proof.
  intros H. unfold PRAYER_ORDER.
  repeat (rewrite dashboard_scan_cons, H). reflexivity.
Qed.

Lemma legacy_scan_none :
  none_due legacy_minutes todayRows now ->
  Legacy.scan todayRows now PRAYER_ORDER = None.
Proof.
  intros H. unfold PRAYER_ORDER.
  repeat (rewrite legacy_scan_cons, H). reflexivity.
Qed.

Lemma aurora_scan_none :
  none_due aurora_minutes todayRows now ->
  Aurora.scan todayRows now PRAYER_ORDER = None.
Proof.
  intros H. unfold PRAYER_ORDER.
  repeat (rewrite aurora_scan_cons, H). reflexivity.
Qed.

End NextPrayer.

Lemma rows_of_idem today prayers :
  rows_of today (rows_of today prayers) = rows_of today prayers.
Proof.
  unfold rows_of. induction prayers as [|p l IH]; [reflexivity|].
  cbn [filter]. destruct (String.eqb (date p) today) eqn:E; [|exact IH].
  cbn [filter]. rewrite E, IH. reflexivity.
Qed.

(** Some prayer is due first, or none is due. *)
Lemma due_cases minutes todayRows now :
  (exists k r m, first_due minutes todayRows now k r m)
  \/ none_due minutes todayRows now.
Proof.
  unfold first_due, none_due.
  destruct (due minutes todayRows now fajr) as [[r0 m0]|] eqn:E0.
  { left. exists fajr, r0, m0. split; [exact E0|].
    intros k'; destruct k'; cbn [rank]; intros; lia. }
  destruct (due minutes todayRows now dhuhr) as [[r1 m1]|] eqn:E1.
  { left. exists dhuhr, r1, m1. split; [exact E1|].
    intros k'; destruct k'; cbn [rank]; intros; solve [assumption | lia]. }
  destruct (due minutes todayRows now asr) as [[r2 m2]|] eqn:E2.
  { left. exists asr, r2, m2. split; [exact E2|].
    intros k'; destruct k'; cbn [rank]; intros; solve [assumption | lia]. }
  destruct (due minutes todayRows now maghrib) as [[r3 m3]|] eqn:E3.
  { left. exists maghrib, r3, m3. split; [exact E3|].
    intros k'; destruct k'; cbn [rank]; intros; solve [assumption | lia]. }
  destruct (due minutes todayRows now isha) as [[r4 m4]|] eqn:E4.
  { left. exists isha, r4, m4. split; [exact E4|].
    intros k'; destruct k'; cbn [rank]; intros; solve [assumption | lia]. }
  right. intros k; destruct k; assumption.
Qed.

(** C1 (as amended).  With today's rows being the rows dated the
    current local date and [now] the current local minutes since
    midnight: the dashboard and the legacy [computeNextPrayer] and the
    Aurora [getNextPrayer] return the first prayer, in the order fajr,
    dhuhr, asr, maghrib, isha, whose row has a jamaat time in minutes
    that is not before [now].  When no prayer is due, the dashboard
    returns fajr with today's fajr minutes if a fajr row exists and its
    time can be read, the legacy client returns fajr with the minutes
    computed from the fajr row if one exists, both return nothing
    without a fajr row, and Aurora returns nothing. *)
Theorem next_prayer_first_due_or_fajr :
  forall (P : Platform) (prayers : list PrayerRow) (tz : option string),
    (forall n, Dashboard.nowInTimeZone P tz = Returns n ->
       let rows := rows_of (ymd_of n) prayers in
       let now := minutes_of n in
       (forall k r m, first_due dashboard_minutes rows now k r m ->
          Dashboard.computeNextPrayer P prayers tz =
          Returns (Some {| Dashboard.next_prayer := k; Dashboard.mins := m |}))
       /\ (none_due dashboard_minutes rows now ->
           Dashboard.computeNextPrayer P prayers tz =
           Returns
             match find_row fajr rows with
             | Some first =>
                 match dashboard_minutes (jamaat_time first) with
                 | Some m =>
                     Some {| Dashboard.next_prayer := fajr; Dashboard.mins := m |}
                 | None => None
                 end
             | None => None
             end))
    /\ (forall n, Legacy.nowInTimeZone P tz = Returns n ->
        let rows := rows_of (ymd_of n) prayers in
        let now := minutes_of n in
        (forall k r m, first_due legacy_minutes rows now k r m ->
           Legacy.computeNextPrayer P prayers tz =
           Returns (Some {| Legacy.next_prayer := k; Legacy.mins := m |}))
        /\ (none_due legacy_minutes rows now ->
            Legacy.computeNextPrayer P prayers tz =
            Returns
              match find_row fajr rows with
              | Some first =>
                  Some {| Legacy.next_prayer := fajr;
                          Legacy.mins := Legacy.raw_minutes (jamaat_time first) |}
              | None => None
              end))
    /\ (forall n, Aurora.nowInTz P tz = Returns n ->
        let rows := rows_of (ymd_of n) prayers in
        let now := minutes_of n in
        (forall k r m, first_due aurora_minutes rows now k r m ->
           Aurora.getNextPrayer P prayers tz =
           Returns (Some {| Aurora.key := k; Aurora.row := r; Aurora.mins := m;
                            Aurora.diff := (m - now)%float |}))
        /\ (none_due aurora_minutes rows now ->
            Aurora.getNextPrayer P prayers tz = Returns None)).
Proof.
  intros P prayers tz.
  split; [|split]; intros n Hn rows now; subst rows now; split.
  - intros k r m H. unfold Dashboard.computeNextPrayer.
    rewrite Hn. cbn [bind]. unfold Dashboard.ymdFromClock.
    rewrite (dashboard_scan_first _ _ k r m H). reflexivity.
  - intros H. unfold Dashboard.computeNextPrayer.
    rewrite Hn. cbn [bind]. unfold Dashboard.ymdFromClock.
    rewrite (dashboard_scan_none _ _ H). unfold dashboard_minutes.
    destruct (find_row fajr _) as [first|]; [|reflexivity].
    destruct (Dashboard.timeToMinutes _); reflexivity.
  - intros k r m H. unfold Legacy.computeNextPrayer.
    rewrite Hn. cbn [bind].
    rewrite (legacy_scan_first _ _ k r m H). reflexivity.
  - intros H. unfold Legacy.computeNextPrayer.
    rewrite Hn. cbn [bind].
    rewrite (legacy_scan_none _ _ H).
    destruct (find_row fajr _); reflexivity.
  - intros k r m H. unfold Aurora.getNextPrayer.
    rewrite Hn. cbn [bind]. unfold Aurora.ymd.
    rewrite (aurora_scan_first _ _ k r m H). reflexivity.
  - intros H. unfold Aurora.getNextPrayer.
    rewrite Hn. cbn [bind]. unfold Aurora.ymd.
    rewrite (aurora_scan_none _ _ H). reflexivity.
Qed.

Lemma next_prayer_first_due_or_fajr_witness :
  Dashboard.computeNextPrayer (sample_platform "14" "00") sample_rows None =
    Returns (Some {| Dashboard.next_prayer := asr; Dashboard.mins := 980 |})
  /\ Dashboard.computeNextPrayer (sample_platform "21" "00") sample_rows None =
    Returns (Some {| Dashboard.next_prayer := fajr; Dashboard.mins := 320 |}).
Proof.
  split.
  - edestruct (proj1 (next_prayer_first_due_or_fajr
                        (sample_platform "14" "00") sample_rows None))
      as [Hfirst _]; [reflexivity|].
    apply (Hfirst asr (mk asr "16:00:00" "16:20:00") 980%float).
    split; [vm_compute; reflexivity|].
    intros k'; destruct k'; cbn [rank]; intros Hlt;
      solve [vm_compute; reflexivity | lia].
  - edestruct (proj1 (next_prayer_first_due_or_fajr
                        (sample_platform "21" "00") sample_rows None))
      as [_ Hnone]; [reflexivity|].
    rewrite Hnone; [vm_compute; reflexivity|].
    intros k; destruct k; vm_compute; reflexivity.
Defined.

(** C1, counterexample: at 21:00 every prayer of the sample day has
    passed and the day has a fajr row, yet the Aurora client returns
    nothing instead of fajr. *)
Lemma next_prayer_aurora_has_no_fallback :
  none_due aurora_minutes (rows_of "2026-11-02" sample_rows)
    (JS.StringToNumber "21" * 60 + JS.StringToNumber "00")%float
  /\ find_row fajr (rows_of "2026-11-02" sample_rows)
     = Some (mk fajr "05:00:00" "05:20:00")
  /\ Aurora.getNextPrayer (sample_platform "21" "00") sample_rows None
     = Returns None.
Proof.
  split; [|split].
  - intros k; destruct k; vm_compute; reflexivity.
  - vm_compute; reflexivity.
  - vm_compute; reflexivity.
Qed.

(** C9.  The next-prayer computation of each client depends on the rows
    dated the current local date only: it gives the same result on the
    rows restricted to today's date key, and on any two lists with the
    same rows of today. *)
Theorem next_prayer_depends_on_today_only :
  forall (P : Platform) (prayers : list PrayerRow) (tz : option string),
    (forall n, Dashboard.nowInTimeZone P tz = Returns n ->
       Dashboard.computeNextPrayer P prayers tz =
       Dashboard.computeNextPrayer P (rows_of (ymd_of n) prayers) tz
       /\ forall prayers',
            rows_of (ymd_of n) prayers' = rows_of (ymd_of n) prayers ->
            Dashboard.computeNextPrayer P prayers' tz =
            Dashboard.computeNextPrayer P prayers tz)
    /\ (forall n, Legacy.nowInTimeZone P tz = Returns n ->
        Legacy.computeNextPrayer P prayers tz =
        Legacy.computeNextPrayer P (rows_of (ymd_of n) prayers) tz
        /\ forall prayers',
             rows_of (ymd_of n) prayers' = rows_of (ymd_of n) prayers ->
             Legacy.computeNextPrayer P prayers' tz =
             Legacy.computeNextPrayer P prayers tz)
    /\ (forall n, Aurora.nowInTz P tz = Returns n ->
        Aurora.getNextPrayer P prayers tz =
        Aurora.getNextPrayer P (rows_of (ymd_of n) prayers) tz
        /\ forall prayers',
             rows_of (ymd_of n) prayers' = rows_of (ymd_of n) prayers ->
             Aurora.getNextPrayer P prayers' tz =
             Aurora.getNextPrayer P prayers tz).
Proof.
  intros P prayers tz. split; [|split]; intros n Hn; split.
  - unfold Dashboard.computeNextPrayer, Dashboard.ymdFromClock.
    rewrite Hn. cbn [bind]. rewrite rows_of_idem. reflexivity.
  - intros prayers' H.
    unfold Dashboard.computeNextPrayer, Dashboard.ymdFromClock.
    rewrite Hn. cbn [bind]. rewrite H. reflexivity.
  - unfold Legacy.computeNextPrayer.
    rewrite Hn. cbn [bind]. rewrite rows_of_idem. reflexivity.
  - intros prayers' H. unfold Legacy.computeNextPrayer.
    rewrite Hn. cbn [bind]. rewrite H. reflexivity.
  - unfold Aurora.getNextPrayer, Aurora.ymd.
    rewrite Hn. cbn [bind]. rewrite rows_of_idem. reflexivity.
  - intros prayers' H. unfold Aurora.getNextPrayer, Aurora.ymd.
    rewrite Hn. cbn [bind]. rewrite H. reflexivity.
Qed.

Lemma next_prayer_depends_on_today_only_witness :
  Dashboard.computeNextPrayer (sample_platform "14" "00")
    (mk isha "20:30:00" "13:59:00" :: sample_rows
       ++ [{| prayer := dhuhr; start_time := "13:00:00";
              jamaat_time := "14:30:00"; date := "2026-11-03" |}])%list
    None =
  Dashboard.computeNextPrayer (sample_platform "14" "00")
    (mk isha "20:30:00" "13:59:00" :: sample_rows) None.
Proof.
  edestruct (proj1 (next_prayer_depends_on_today_only
                      (sample_platform "14" "00")
                      (mk isha "20:30:00" "13:59:00" :: sample_rows) None))
    as [_ Hsame]; [reflexivity|].
  apply Hsame. vm_compute. reflexivity.
Defined.

(** C8 (as amended).  [nowInTimeZone] and [nowInTz] ask the platform for
    the parts of the current instant in the zone [tz || "Europe/Rome"]:
    an absent zone (null or the empty string) is read as "Europe/Rome",
    any other string is used as it is.  When the platform accepts the
    zone the result is the breakdown {year, month, day, hour, minute,
    second, weekday} of the parts it gives; when the platform rejects
    the zone, the call throws. *)
Theorem local_clock_default_and_breakdown :
  forall (P : Platform) (tz : option string),
    (Dashboard.nowInTimeZone P tz = clock_in P "short" tz
     /\ Legacy.nowInTimeZone P tz = clock_in P "short" tz
     /\ Aurora.nowInTz P tz = clock_in P "long" tz)
    /\ (tz = None \/ tz = Some "" ->
        forall style, clock_in P style tz = clock_in P style (Some "Europe/Rome"))
    /\ (forall z, tz = Some z -> z <> "" -> timeZone_or_default tz = z)
    /\ (forall style parts,
          formatToParts P style (timeZone_or_default tz) = Some parts ->
          clock_in P style tz =
          Returns {| year := JS.StringToNumber (get_part parts "year");
                     month := JS.StringToNumber (get_part parts "month");
                     day := JS.StringToNumber (get_part parts "day");
                     hour := JS.StringToNumber (get_part parts "hour");
                     minute := JS.StringToNumber (get_part parts "minute");
                     second := JS.StringToNumber (get_part parts "second");
                     weekday := get_part parts "weekday";
                     timeZone := timeZone_or_default tz |})
    /\ (forall style,
          formatToParts P style (timeZone_or_default tz) = None ->
          clock_in P style tz = Throws).
Proof.
  intros P tz. split; [repeat split|]. split; [|split; [|split]].
  - intros [-> | ->] style; reflexivity.
  - intros z -> Hz. unfold timeZone_or_default.
    destruct (String.eqb_spec z ""); [contradiction|reflexivity].
  - intros style parts H. unfold clock_in. rewrite H. reflexivity.
  - intros style H. unfold clock_in. rewrite H. reflexivity.
Qed.

Lemma local_clock_default_and_breakdown_witness :
  Dashboard.nowInTimeZone (sample_platform "14" "00") (Some "") =
  Returns {| year := 2026; month := 11; day := 2; hour := 14; minute := 0;
             second := 0; weekday := "Mon"; timeZone := "Europe/Rome" |}.
Proof.
  destruct (local_clock_default_and_breakdown
              (sample_platform "14" "00") (Some ""))
    as [[Hd _] [Hdefault [_ [Hparts _]]]].
  rewrite Hd, (Hparts "short" (sample_parts "short" "14" "00"));
    vm_compute; reflexivity.
Defined.

(** C8, counterexample: a zone identifier that the platform does not
    know is not replaced by the default zone; the clock throws although
    the default zone would have been accepted. *)
Lemma local_clock_invalid_zone_throws :
  Dashboard.nowInTimeZone (sample_platform "14" "00") (Some "Mars/Phobos") = Throws
  /\ Aurora.nowInTz (sample_platform "14" "00") (Some "Mars/Phobos") = Throws
  /\ Dashboard.nowInTimeZone (sample_platform "14" "00") (Some "Europe/Rome")
     <> Throws.
Proof.
  split; [|split]; try (vm_compute; reflexivity).
  vm_compute. discriminate.
Qed.

Lemma split_chars_no_sep sep cur l :
  existsb (Ascii.eqb sep) l = false ->
  JS.split_chars sep cur l = [JS.str (rev cur ++ l)].
Proof.
  revert cur. induction l as [|c l IH]; intros cur H; cbn [JS.split_chars].
  - rewrite app_nil_r. reflexivity.
  - cbn [existsb] in H. apply orb_false_iff in H as [Hc Hl].
    rewrite Ascii.eqb_sym, Hc. rewrite (IH _ Hl). cbn [rev].
    rewrite <- app_assoc. reflexivity.
Qed.

Lemma chars_str l : JS.chars (JS.str l) = l.
Proof. apply list_ascii_of_string_of_list_ascii. Qed.

Lemma time_fields_lacking_minutes t :
  lacks_minutes t = true -> exists hh, time_fields t = [hh].
Proof.
  unfold lacks_minutes, time_fields, JS.split, JS.slice0. intros H.
  apply negb_true_iff in H. rewrite chars_str.
  rewrite (split_chars_no_sep _ _ _ H). eexists. reflexivity.
Qed.

(** The dashboard and Aurora read a time that lacks the minutes field
    as no value, so its prayer is never due. *)
Lemma lacking_minutes_is_no_value t :
  lacks_minutes t = true ->
  dashboard_minutes t = None /\ aurora_minutes t = None.
Proof.
  intros H. destruct (time_fields_lacking_minutes t H) as [hh Hf].
  unfold dashboard_minutes, aurora_minutes, Dashboard.timeToMinutes,
    Aurora.timeToMins.
  rewrite Hf. destruct (String.eqb t ""); split; reflexivity.
Qed.

Lemma dashboard_scan_is_due todayRows now keys res :
  Dashboard.scan todayRows now keys = Some res ->
  exists r,
    due dashboard_minutes todayRows now (Dashboard.next_prayer res)
    = Some (r, Dashboard.mins res).
Proof.
  induction keys as [|k keys IH]; [discriminate|].
  rewrite dashboard_scan_cons.
  destruct (due dashboard_minutes todayRows now k) as [[r m]|] eqn:E; [|exact IH].
  intros [= <-]. exists r. exact E.
Qed.

Lemma aurora_scan_is_due todayRows now keys res :
  Aurora.scan todayRows now keys = Some res ->
  due aurora_minutes todayRows now (Aurora.key res)
  = Some (Aurora.row res, Aurora.mins res).
Proof.
  induction keys as [|k keys IH]; [discriminate|].
  rewrite aurora_scan_cons.
  destruct (due aurora_minutes todayRows now k) as [[r m]|] eqn:E; [|exact IH].
  intros [= <-]. exact E.
Qed.

Lemma lacking_minutes_is_not_due minutes todayRows now k r :
  find_row k todayRows = Some r ->
  minutes (jamaat_time r) = None ->
  due minutes todayRows now k = None.
Proof. intros Hr Hm. unfold due. rewrite Hr, Hm. reflexivity. Qed.

(** The dashboard and Aurora skip a prayer whose row of today lacks the
    minutes field: they never return it, neither from the scan nor as
    the fajr fallback. *)
Lemma rows_lacking_minutes_are_skipped P prayers tz n k r :
  clock_in P "short" tz = Returns n ->
  find_row k (rows_of (ymd_of n) prayers) = Some r ->
  lacks_minutes (jamaat_time r) = true ->
  forall res,
    Dashboard.computeNextPrayer P prayers tz = Returns (Some res) ->
    Dashboard.next_prayer res <> k.
Proof.
  intros Hn Hr Hlack res. unfold Dashboard.computeNextPrayer,
    Dashboard.nowInTimeZone, Dashboard.ymdFromClock.
  rewrite Hn. cbn [bind].
  destruct (lacking_minutes_is_no_value _ Hlack) as [Hd _].
  pose proof (lacking_minutes_is_not_due dashboard_minutes _ (minutes_of n)
                k r Hr Hd) as Hdue.
  destruct (Dashboard.scan _ _ PRAYER_ORDER) as [res'|] eqn:Es.
  - intros [= <-] Hk. destruct (dashboard_scan_is_due _ _ _ _ Es) as [r' Hr'].
    rewrite Hk, Hdue in Hr'. discriminate.
  - destruct (find_row fajr _) as [first|] eqn:Ef; [|discriminate].
    destruct (Dashboard.timeToMinutes _) as [m|] eqn:Em; [|discriminate].
    intros [= <-] Hk. cbn [Dashboard.next_prayer] in Hk. subst k.
    rewrite Ef in Hr. injection Hr as ->.
    unfold dashboard_minutes in Hd. rewrite Hd in Em. discriminate.
Qed.

Lemma aurora_rows_lacking_minutes_are_skipped P prayers tz n k r :
  clock_in P "long" tz = Returns n ->
  find_row k (rows_of (ymd_of n) prayers) = Some r ->
  lacks_minutes (jamaat_time r) = true ->
  forall res,
    Aurora.getNextPrayer P prayers tz = Returns (Some res) ->
    Aurora.key res <> k.
Proof.
  intros Hn Hr Hlack res. unfold Aurora.getNextPrayer, Aurora.nowInTz,
    Aurora.ymd.
  rewrite Hn. cbn [bind].
  destruct (lacking_minutes_is_no_value _ Hlack) as [_ Ha].
  pose proof (lacking_minutes_is_not_due aurora_minutes _ (minutes_of n)
                k r Hr Ha) as Hdue.
  intros H Hk.
  assert (Es : Aurora.scan (rows_of (ymd_of n) prayers) (minutes_of n)
                 PRAYER_ORDER = Some res) by congruence.
  apply aurora_scan_is_due in Es. rewrite Hk, Hdue in Es. discriminate.
Qed.

(** ** Minutes read from two finite fields are never NaN

    The product and the sum of binary64 round a non-negative integer
    mantissa, which never gives NaN. *)

Section Rounding.

Lemma shr_1_nonneg mrs : 0 <= shr_m mrs -> 0 <= shr_m (shr_1 mrs).
Proof.
  destruct mrs as [m r s]. cbn [shr_m]. intros H.
  destruct m as [|p|p]; [| |lia]; cbn.
  - lia.
  - destruct p; cbn; lia.
Qed.

Lemma iter_pos_nonneg p :
  forall mrs, 0 <= shr_m mrs -> 0 <= shr_m (iter_pos shr_1 p mrs).
Proof.
  induction p as [p IH|p IH|]; intros mrs H; cbn [iter_pos].
  - apply IH, IH, shr_1_nonneg, H.
  - apply IH, IH, H.
  - apply shr_1_nonneg, H.
Qed.

Lemma shr_nonneg mrs e n : 0 <= shr_m mrs -> 0 <= shr_m (fst (shr mrs e n)).
Proof.
  intros H. unfold shr. destruct n; cbn [fst]; auto using iter_pos_nonneg.
Qed.

Lemma shr_fexp_nonneg m e l :
  0 <= m -> 0 <= shr_m (fst (shr_fexp prec emax m e l)).
Proof.
  intros H. unfold shr_fexp. apply shr_nonneg.
  destruct l as [|[]]; exact H.
Qed.

Lemma round_nearest_even_nonneg m l : 0 <= m -> 0 <= round_nearest_even m l.
Proof.
  intros H. unfold round_nearest_even.
  destruct l as [|[]]; try lia. destruct (Z.even m); lia.
Qed.

Lemma binary_round_aux_not_nan sx mx ex lx :
  0 <= mx -> binary_round_aux prec emax sx mx ex lx <> S754_nan.
Proof.
  intros H. unfold binary_round_aux.
  pose proof (shr_fexp_nonneg mx ex lx H) as H1.
  destruct (shr_fexp prec emax mx ex lx) as [mrs' e']. cbn [fst] in H1.
  pose proof (shr_fexp_nonneg _ e' loc_Exact
                (round_nearest_even_nonneg _ (loc_of_shr_record mrs') H1)) as H2.
  destruct (shr_fexp prec emax _ e' loc_Exact) as [mrs'' e'']. cbn [fst] in H2.
  destruct (shr_m mrs'') as [|p|p]; [discriminate| |lia].
  destruct (Z.leb e'' _); discriminate.
Qed.

Lemma binary_normalize_not_nan m e szero :
  binary_normalize prec emax m e szero <> S754_nan.
Proof.
  unfold binary_normalize, binary_round.
  destruct m as [|p|p]; [discriminate| |];
    destruct (shl_align _ _ _) as [mz ez]; apply binary_round_aux_not_nan; lia.
Qed.

End Rounding.

Lemma SFcompare_refl x : x <> S754_nan -> SFcompare x x = Some Eq.
Proof.
  destruct x as [s|s| |s m e]; intros H; cbn [SFcompare]; try congruence.
  - destruct s; reflexivity.
  - rewrite Z.compare_refl.
    replace (Pos.compare_cont Eq m m) with Eq
      by (symmetry; apply Pos.compare_cont_refl).
    destruct s; reflexivity.
Qed.

Lemma is_nan_Prim2SF x : is_nan x = false <-> Prim2SF x <> S754_nan.
Proof.
  unfold is_nan. rewrite FloatAxioms.eqb_spec, negb_false_iff. unfold SFeqb. split.
  - intros H E. rewrite E in H. discriminate.
  - intros H. rewrite (SFcompare_refl _ H). reflexivity.
Qed.

Lemma is_finite_Prim2SF x : is_finite x = true -> finite_SF (Prim2SF x) = true.
Proof.
  unfold is_finite, is_nan, is_infinity.
  rewrite negb_true_iff, orb_false_iff, negb_false_iff.
  rewrite !FloatAxioms.eqb_spec, abs_spec. intros [Hn Hi].
  destruct (Prim2SF x) as [s|s| |s m e]; try reflexivity.
  - exfalso. revert Hi. vm_compute. discriminate.
  - exfalso. revert Hn. vm_compute. discriminate.
Qed.

Lemma SFmul_not_nan x y :
  finite_SF x = true -> finite_SF y = true -> SFmul prec emax x y <> S754_nan.
Proof.
  destruct x as [s|s| |s m e]; try discriminate;
    destruct y as [s'|s'| |s' m' e']; try discriminate;
    intros _ _; cbn [SFmul]; try discriminate.
  apply binary_round_aux_not_nan. lia.
Qed.

Lemma SFadd_not_nan x y :
  x <> S754_nan -> finite_SF y = true -> SFadd prec emax x y <> S754_nan.
Proof.
  destruct x as [s|s| |s m e]; try congruence;
    destruct y as [s'|s'| |s' m' e']; try discriminate;
    intros _ _; cbn [SFadd]; try discriminate.
  - destruct s, s'; discriminate.
  - apply binary_normalize_not_nan.
Qed.

Lemma minutes_not_nan hh mm :
  is_finite hh = true -> is_finite mm = true ->
  is_nan (hh * 60 + mm)%float = false.
Proof.
  intros Hh Hm. apply is_nan_Prim2SF. rewrite add_spec, mul_spec.
  apply SFadd_not_nan; [|apply is_finite_Prim2SF, Hm].
  apply SFmul_not_nan; [apply is_finite_Prim2SF, Hh|].
  vm_compute. reflexivity.
Qed.

Lemma dashboard_minutes_not_nan t m :
  dashboard_minutes t = Some m -> is_nan m = false.
Proof.
  unfold dashboard_minutes, Dashboard.timeToMinutes.
  destruct (String.eqb t ""); [discriminate|].
  destruct (nth_error (time_fields t) 0) as [hh|]; [|discriminate].
  destruct (nth_error (time_fields t) 1) as [mm|]; [|discriminate].
  unfold JS.isFinite.
  destruct (is_finite hh) eqn:Hh; [|discriminate].
  destruct (is_finite mm) eqn:Hm; [|discriminate].
  intros [= <-]. apply minutes_not_nan; assumption.
Qed.

Lemma aurora_minutes_not_nan t m :
  aurora_minutes t = Some m -> is_nan m = false.
Proof.
  unfold aurora_minutes, Aurora.timeToMins.
  destruct (String.eqb t ""); [discriminate|].
  destruct (nth_error (time_fields t) 0) as [hh|]; [|discriminate].
  destruct (nth_error (time_fields t) 1) as [mm|]; [|discriminate].
  unfold JS.isFinite.
  destruct (is_finite hh) eqn:Hh; [|discriminate].
  destruct (is_finite mm) eqn:Hm; [|discriminate].
  intros [= <-]. apply minutes_not_nan; assumption.
Qed.

Lemma due_minutes minutes todayRows now k r m :
  due minutes todayRows now k = Some (r, m) ->
  minutes (jamaat_time r) = Some m.
Proof.
  unfold due. destruct (find_row k todayRows) as [r'|]; [|discriminate].
  destruct (minutes (jamaat_time r')) as [m'|] eqn:E; [|discriminate].
  destruct (JS.ge m' now); [|discriminate]. intros [= <- <-]. exact E.
Qed.

(** Whatever the rows, the dashboard and Aurora never return NaN
    minutes. *)
Lemma dashboard_next_prayer_never_nan P prayers tz res :
  Dashboard.computeNextPrayer P prayers tz = Returns (Some res) ->
  is_nan (Dashboard.mins res) = false.
Proof.
  unfold Dashboard.computeNextPrayer.
  destruct (Dashboard.nowInTimeZone P tz) as [n|]; cbn [bind]; [|discriminate].
  destruct (Dashboard.scan _ _ PRAYER_ORDER) as [res'|] eqn:Es.
  - intros [= <-]. destruct (dashboard_scan_is_due _ _ _ _ Es) as [r Hr].
    apply (dashboard_minutes_not_nan (jamaat_time r)), (due_minutes _ _ _ _ _ _ Hr).
  - destruct (find_row fajr _) as [first|]; [|discriminate].
    destruct (Dashboard.timeToMinutes _) as [m|] eqn:Em; [|discriminate].
    intros [= <-]. apply (dashboard_minutes_not_nan (jamaat_time first)), Em.
Qed.

Lemma aurora_next_prayer_never_nan P prayers tz res :
  Aurora.getNextPrayer P prayers tz = Returns (Some res) ->
  is_nan (Aurora.mins res) = false.
Proof.
  unfold Aurora.getNextPrayer.
  destruct (Aurora.nowInTz P tz) as [n|]; cbn [bind]; [|discriminate].
  intros H.
  assert (Es : Aurora.scan (rows_of (Aurora.ymd n) prayers) (minutes_of n)
                 PRAYER_ORDER = Some res) by congruence.
  apply aurora_scan_is_due in Es.
  apply (aurora_minutes_not_nan (jamaat_time (Aurora.row res))),
    (due_minutes _ _ _ _ _ _ Es).
Qed.

(** C7, at the failing input: a fajr row whose jamaat time lacks the
    minutes field, at 21:00.  The legacy client returns fajr with NaN
    minutes and its countdown prints NaN, where the dashboard and Aurora
    return nothing. *)
Theorem legacy_next_prayer_nan_minutes :
  Legacy.computeNextPrayer (sample_platform "21" "00")
    [mk fajr "05:00:00" "05"] None
  = Returns (Some {| Legacy.next_prayer := fajr; Legacy.mins := nan |})
  /\ Legacy.countdown (sample_platform "21" "00")
       (Some {| Legacy.next_prayer := fajr; Legacy.mins := nan |}) None
     = Returns "NaNh NaNm"
  /\ Dashboard.computeNextPrayer (sample_platform "21" "00")
       [mk fajr "05:00:00" "05"] None = Returns None
  /\ Aurora.getNextPrayer (sample_platform "21" "00")
       [mk fajr "05:00:00" "05"] None = Returns None.
Proof. repeat split; vm_compute; reflexivity. Qed.

(* ===================================================================== *)
(** * Countdown: properties *)
(* ===================================================================== *)

(** ** Whole minutes are exact in binary64

    The facts below range over the minutes of a day; each is checked on
    every value of its range. *)

Lemma in_upto n : forall lo z, lo <= z < lo + Z.of_nat n -> In z (upto n lo).
Proof.
  induction n as [|n IH]; intros lo z Hz; [lia|].
  cbn [upto]. destruct (Z.eq_dec lo z) as [->|Hne]; [left; reflexivity|].
  right. apply IH. lia.
Qed.

Lemma forallb_range (f : Z -> bool) lo hi :
  forallb f (range lo hi) = true ->
  forall z, lo <= z < hi -> f z = true.
Proof.
  intros H z Hz. rewrite forallb_forall in H. apply H.
  unfold range. apply in_upto. lia.
Qed.

(** Decides a statement on floats over a range of integers. *)
Ltac by_range f lo hi :=
  apply (forallb_range f lo hi); [vm_compute; reflexivity | lia].

Lemma of_Z_small z : -1440 <= z < 2880 -> JS.of_Z z = small z.
Proof.
  intros Hz. apply Leibniz.eqb_spec.
  by_range (fun z => Leibniz.eqb (JS.of_Z z) (small z)) (-1440) 2880.
Qed.

Lemma minutes_small h mi :
  0 <= h < 24 -> 0 <= mi < 60 ->
  (small h * 60 + small mi)%float = small (h * 60 + mi).
Proof.
  intros Hh Hmi. apply Leibniz.eqb_spec.
  apply (forallb_range
           (fun mi => Leibniz.eqb (small h * 60 + small mi) (small (h * 60 + mi)))
           0 60); [|lia].
  by_range
    (fun h => forallb
       (fun mi => Leibniz.eqb (small h * 60 + small mi) (small (h * 60 + mi)))
       (range 0 60)) 0 24.
Qed.

Lemma sub_small a b :
  0 <= a < 1440 -> 0 <= b < 1440 -> (small a - small b)%float = small (a - b).
Proof.
  intros Ha Hb. apply Leibniz.eqb_spec.
  apply (forallb_range
           (fun b => Leibniz.eqb (small a - small b) (small (a - b))) 0 1440);
    [|lia].
  by_range
    (fun a => forallb
       (fun b => Leibniz.eqb (small a - small b) (small (a - b)))
       (range 0 1440)) 0 1440.
Qed.

Lemma wrap_day_small d :
  -1440 < d < 1440 -> wrap_day (small d) = small (d mod 1440).
Proof.
  intros Hd. apply Leibniz.eqb_spec.
  by_range (fun d => Leibniz.eqb (wrap_day (small d)) (small (d mod 1440)))
    (-1439) 1440.
Qed.

Lemma countdown_text_small d :
  0 <= d < 1440 -> countdown_text (small d) = countdown_spec d.
Proof.
  intros Hd. apply String.eqb_eq.
  by_range
    (fun d => String.eqb (countdown_text (small d)) (countdown_spec d))
    0 1440.
Qed.

Lemma formatCountdown_small d :
  0 <= d < 1440 -> Aurora.formatCountdown (small d) = aurora_countdown_spec d.
Proof.
  intros Hd. apply String.eqb_eq.
  by_range
    (fun d => String.eqb (Aurora.formatCountdown (small d))
                (aurora_countdown_spec d))
    0 1440.
Qed.

(** The countdown shown for whole minutes: [a] of the next prayer,
    [h:mi] on the clock. *)
Lemma countdown_whole_minutes (next_mins nowH nowM : float) a h mi :
  next_mins = JS.of_Z a -> nowH = JS.of_Z h -> nowM = JS.of_Z mi ->
  0 <= a < 1440 -> 0 <= h < 24 -> 0 <= mi < 60 ->
  countdown_text (wrap_day (next_mins - (nowH * 60 + nowM))%float)
  = countdown_spec ((a - (h * 60 + mi)) mod 1440).
Proof.
  intros -> -> -> Ha Hh Hmi.
  rewrite !of_Z_small by lia.
  rewrite minutes_small by lia.
  rewrite sub_small by lia.
  rewrite wrap_day_small by lia.
  apply countdown_text_small. apply Z.mod_pos_bound. lia.
Qed.

(** Aurora's scan never returns a prayer that has passed, and the
    difference it reports is the plain one. *)
Lemma aurora_scan_diff todayRows now keys r :
  Aurora.scan todayRows now keys = Some r ->
  Aurora.diff r = (Aurora.mins r - now)%float
  /\ JS.ge (Aurora.mins r) now = true.
Proof.
  induction keys as [|k keys IH]; cbn [Aurora.scan]; [discriminate|].
  destruct (find_row k todayRows) as [row|]; [|exact IH].
  destruct (Aurora.timeToMins _) as [m|]; [|exact IH].
  destruct (JS.ge m now) eqn:E; [|exact IH].
  intros [= <-]. cbn. split; [reflexivity|exact E].
Qed.

(** C2 (as amended).  In the dashboard and the legacy client the
    countdown is the text of [next.mins] minus the current minutes since
    midnight, plus 1440 when that is negative; for a next prayer at [a]
    whole minutes of the day and a clock showing [h:mi] it is shown as
    "{minutes} min" under one hour and as "{hours}h {minutes}m"
    otherwise; with fajr at 05:00 and the clock at 21:00 it is "8h 0m".  Aurora's [formatCountdown] shows "{d} min"
    under one hour, "{hours}h" when the minutes part is zero and
    "{hours}h {minutes}m" otherwise, of the difference that
    [getNextPrayer] reports, which is never negative and never wrapped. *)
Theorem countdown_wraps_and_formats :
  (forall P tz n next,
      Dashboard.nowInTimeZone P tz = Returns n ->
      Dashboard.countdown P (Some next) tz
      = Returns (countdown_text
                   (wrap_day (Dashboard.mins next - minutes_of n)%float)))
  /\ (forall P tz n next,
      Legacy.nowInTimeZone P tz = Returns n ->
      Legacy.countdown P (Some next) tz
      = Returns (countdown_text
                   (wrap_day (Legacy.mins next - minutes_of n)%float)))
  /\ (forall P tz n k a h mi,
      Dashboard.nowInTimeZone P tz = Returns n ->
      hour n = JS.of_Z h -> minute n = JS.of_Z mi ->
      0 <= h < 24 -> 0 <= mi < 60 -> 0 <= a < 1440 ->
      Dashboard.countdown P
        (Some {| Dashboard.next_prayer := k; Dashboard.mins := JS.of_Z a |}) tz
      = Returns (countdown_spec ((a - (h * 60 + mi)) mod 1440)))
  /\ (forall P tz n k a h mi,
      Legacy.nowInTimeZone P tz = Returns n ->
      hour n = JS.of_Z h -> minute n = JS.of_Z mi ->
      0 <= h < 24 -> 0 <= mi < 60 -> 0 <= a < 1440 ->
      Legacy.countdown P
        (Some {| Legacy.next_prayer := k; Legacy.mins := JS.of_Z a |}) tz
      = Returns (countdown_spec ((a - (h * 60 + mi)) mod 1440)))
  /\ countdown_spec ((300 - (21 * 60 + 0)) mod 1440) = "8h 0m"
  /\ (forall d, 0 <= d < 1440 ->
      Aurora.formatCountdown (JS.of_Z d) = aurora_countdown_spec d)
  /\ (forall P prayers tz r,
      Aurora.getNextPrayer P prayers tz = Returns (Some r) ->
      exists n, Aurora.nowInTz P tz = Returns n
        /\ Aurora.diff r = (Aurora.mins r - minutes_of n)%float
        /\ JS.ge (Aurora.mins r) (minutes_of n) = true).
Proof.
  split; [|split; [|split; [|split; [|split; [|split]]]]].
  - intros P tz n next Hn. unfold Dashboard.countdown. rewrite Hn. reflexivity.
  - intros P tz n next Hn. unfold Legacy.countdown. rewrite Hn. reflexivity.
  - intros P tz n k a h mi Hn Hh Hmi Bh Bmi Ba.
    unfold Dashboard.countdown. rewrite Hn. cbn [bind Dashboard.mins].
    unfold minutes_of. fold (wrap_day (JS.of_Z a - (hour n * 60 + minute n))).
    rewrite (countdown_whole_minutes _ _ _ a h mi); auto.
  - intros P tz n k a h mi Hn Hh Hmi Bh Bmi Ba.
    unfold Legacy.countdown. rewrite Hn. cbn [bind Legacy.mins].
    unfold minutes_of. fold (wrap_day (JS.of_Z a - (hour n * 60 + minute n))).
    rewrite (countdown_whole_minutes _ _ _ a h mi); auto.
  - vm_compute. reflexivity.
  - intros d Hd. rewrite of_Z_small by lia. apply formatCountdown_small, Hd.
  - intros P prayers tz r. unfold Aurora.getNextPrayer.
    destruct (Aurora.nowInTz P tz) as [n|]; cbn [bind]; [|discriminate].
    intros H. exists n. split; [reflexivity|].
    apply (aurora_scan_diff (rows_of (Aurora.ymd n) prayers) (minutes_of n)
             PRAYER_ORDER).
    congruence.
Qed.

Lemma countdown_wraps_and_formats_witness :
  Dashboard.countdown (sample_platform "21" "00")
    (Some {| Dashboard.next_prayer := fajr; Dashboard.mins := JS.of_Z 300 |})
    None
  = Returns (countdown_spec ((300 - (21 * 60 + 0)) mod 1440))
  /\ countdown_spec ((300 - (21 * 60 + 0)) mod 1440) = "8h 0m".
Proof.
  split.
  - apply (proj1 (proj2 (proj2 countdown_wraps_and_formats))
             (sample_platform "21" "00") None
             {| year := 2026; month := 11; day := 2; hour := 21; minute := 0;
                second := 0; weekday := "Mon"; timeZone := "Europe/Rome" |}
             fajr 300 21 0);
      solve [vm_compute; reflexivity | lia].
  - vm_compute. reflexivity.
Defined.

(** C2, counterexample: at 08:15 on the sample day the next prayer is
    dhuhr, 300 minutes ahead; Aurora shows "5h", not "5h 0m" as the
    dashboard does. *)
Lemma countdown_aurora_drops_zero_minutes :
  (exists r, Aurora.getNextPrayer (sample_platform "08" "15") sample_rows None
             = Returns (Some r)
             /\ Aurora.key r = dhuhr
             /\ Aurora.formatCountdown (Aurora.diff r) = "5h")
  /\ Dashboard.countdown (sample_platform "08" "15")
       (Some {| Dashboard.next_prayer := dhuhr; Dashboard.mins := 795 |}) None
     = Returns "5h 0m".
Proof.
  split.
  - exists {| Aurora.key := dhuhr; Aurora.row := mk dhuhr "13:00:00" "13:15:00";
              Aurora.mins := 795; Aurora.diff := 300 |}.
    split; [|split]; vm_compute; reflexivity.
  - vm_compute. reflexivity.
Qed.

(* ===================================================================== *)
(** * Offline cache worker: properties *)
(* ===================================================================== *)

Section WorkerFacts.

Import Worker.


Lemma same_url_refl u : same_url u u = true.
Proof. apply String.eqb_refl. Qed.

Lemma same_url_trans a b c :
  same_url a b = true -> same_url c b = true -> same_url a c = true.
Proof.
  unfold same_url. rewrite !String.eqb_eq. congruence.
Qed.




Lemma matches_same_url q item :
  matches_item q item = true -> same_url (url q) (url (fst item)) = true.
Proof.
  unfold matches_item. rewrite !andb_true_iff. intros [[_ H] _]. exact H.
Qed.

Lemma find_app_last {A : Type} (p : A -> bool) l x :
  find p (l ++ [x])%list
  = match find p l with
    | Some y => Some y
    | None => if p x then Some x else None
    end.
Proof.
  induction l as [|a l IH]; cbn [app find]; [reflexivity|].
  destruct (p a); [reflexivity | exact IH].
Qed.


Lemma find_filter_keep {A : Type} (p keep : A -> bool) l :
  (forall x, p x = true -> keep x = true) ->
  find p (filter keep l) = find p l.
Proof.
  intros H. induction l as [|a l IH]; [reflexivity|]. cbn [filter find].
  destruct (p a) eqn:E.
  - rewrite (H a E). cbn [find]. rewrite E. reflexivity.
  - destruct (keep a); [cbn [find]; rewrite E|]; exact IH.
Qed.


(** A put leaves alone what the cache answers to requests for other
    URLs. *)
Lemma cache_match_put_other q request r c :
  same_url (url q) (url request) = false ->
  cache_match q (put_entry request r c) = cache_match q c.
Proof.
  intros Hne. unfold cache_match, put_entry.
  destruct (String.eqb (method q) "GET"); [|reflexivity].
  rewrite find_app_last.
  assert (Hnew : matches_item q (request, r) = false).
  { destruct (matches_item q (request, r)) eqn:E; [|reflexivity].
    apply matches_same_url in E. cbn [fst] in E. congruence. }
  rewrite Hnew.
  rewrite find_filter_keep.
  - destruct (find (matches_item q) c); reflexivity.
  - intros item Hq. destruct (matches_item request item) eqn:E; [|reflexivity].
    apply matches_same_url in Hq, E.
    rewrite (same_url_trans _ _ _ Hq E) in Hne. discriminate.
Qed.

Lemma url_find_put_other u request r c :
  same_url u (url request) = false ->
  find (fun item => String.eqb (url (fst item)) u) (put_entry request r c)
  = find (fun item => String.eqb (url (fst item)) u) c.
Proof.
  intros Hne. unfold put_entry. rewrite find_app_last. cbn [fst].
  assert (Hnew : String.eqb (url request) u = false).
  { destruct (String.eqb_spec (url request) u) as [E|]; [|reflexivity].
    rewrite <- E, same_url_refl in Hne. discriminate. }
  rewrite Hnew, find_filter_keep.
  - destruct (find _ c); reflexivity.
  - intros item Hu. apply String.eqb_eq in Hu.
    destruct (matches_item request item) eqn:E; [|reflexivity].
    apply matches_same_url in E. rewrite Hu in E.
    rewrite (same_url_trans _ _ _ (same_url_refl u) E) in Hne. discriminate.
Qed.


Lemma cached_in_put_other name request r name' q cs :
  name' <> name \/ same_url (url q) (url request) = false ->
  cached_in name' q (storage_put name request r cs) = cached_in name' q cs.
Proof.
  intros Hne. unfold cached_in.
  induction cs as [|[n c] cs IH]; [reflexivity|]. cbn [storage_put].
  destruct (String.eqb n name) eqn:En; cbn [find fst].
  - destruct (String.eqb n name') eqn:En'; [|reflexivity].
    apply String.eqb_eq in En, En'. subst.
    destruct Hne as [H|H]; [contradiction|].
    apply cache_match_put_other, H.
  - destruct (String.eqb n name'); [reflexivity | exact IH].
Qed.

Lemma entry_put_other name request r name' u cs :
  name' <> name \/ same_url u (url request) = false ->
  entry name' u (storage_put name request r cs) = entry name' u cs.
Proof.
  intros Hne. unfold entry.
  induction cs as [|[n c] cs IH]; [reflexivity|]. cbn [storage_put].
  destruct (String.eqb n name) eqn:En; cbn [find fst].
  - destruct (String.eqb n name') eqn:En'; [|reflexivity].
    apply String.eqb_eq in En, En'. subst.
    destruct Hne as [H|H]; [contradiction|].
    rewrite (url_find_put_other _ _ _ _ H). reflexivity.
  - destruct (String.eqb n name'); [reflexivity | exact IH].
Qed.

Lemma cache_match_empty q : cache_match q [] = None.
Proof. unfold cache_match. destruct (String.eqb (method q) "GET"); reflexivity. Qed.

(** Opening a cache changes no answer. *)
Lemma cached_in_open name name' q cs :
  cached_in name' q (opened name cs) = cached_in name' q cs.
Proof.
  unfold opened. destruct (has_cache name cs); [reflexivity|]. unfold cached_in.
  induction cs as [|[n c] cs IH]; cbn [app find fst].
  - destruct (String.eqb name name'); [apply cache_match_empty | reflexivity].
  - destruct (String.eqb n name'); [reflexivity | exact IH].
Qed.

Lemma entry_open name name' u cs :
  entry name' u (opened name cs) = entry name' u cs.
Proof.
  unfold opened. destruct (has_cache name cs); [reflexivity|]. unfold entry.
  induction cs as [|[n c] cs IH]; cbn [app find fst].
  - destruct (String.eqb name name'); reflexivity.
  - destruct (String.eqb n name'); [reflexivity | exact IH].
Qed.

Lemma storage_match_open request name cs :
  storage_match request (opened name cs) = storage_match request cs.
Proof.
  unfold opened. destruct (has_cache name cs); [reflexivity|].
  induction cs as [|[n c] cs IH]; cbn [app storage_match].
  - rewrite cache_match_empty. reflexivity.
  - destruct (cache_match request c); [reflexivity | exact IH].
Qed.

Lemma storage_match_put_other q name request r cs :
  same_url (url q) (url request) = false ->
  storage_match q (storage_put name request r cs) = storage_match q cs.
Proof.
  intros Hne. induction cs as [|[n c] cs IH]; [reflexivity|].
  cbn [storage_put]. destruct (String.eqb n name); cbn [storage_match].
  - rewrite (cache_match_put_other _ _ _ _ Hne). reflexivity.
  - rewrite IH. reflexivity.
Qed.





Lemma cacheFirst_hit network request w cached :
  storage_match request (caches w) = Some cached ->
  cacheFirst network request w = (Returns cached, w).
Proof.
  intros H. unfold cacheFirst, bindM, caches_match. rewrite H. reflexivity.
Qed.

Lemma cacheFirst_miss network request w fresh :
  storage_match request (caches w) = None ->
  network request = Some fresh ->
  cacheFirst network request w =
  (Returns fresh,
   {| caches := stored APP_SHELL_CACHE request fresh (caches w);
      fetched := (fetched w ++ [request])%list |}).
Proof.
  intros Hmiss Hnet.
  unfold cacheFirst, bindM, caches_match, fetch, caches_open, cache_put, ret,
    stored, opened.
  rewrite Hmiss, Hnet. cbn [caches fetched].
  destruct (has_cache APP_SHELL_CACHE (caches w)); cbn [caches fetched];
    destruct (put_accepts request fresh); reflexivity.
Qed.

Lemma cacheFirst_miss_offline network request w :
  storage_match request (caches w) = None ->
  network request = None ->
  cacheFirst network request w =
  (Throws, {| caches := caches w; fetched := (fetched w ++ [request])%list |}).
Proof.
  intros Hmiss Hnet. unfold cacheFirst, bindM, caches_match, fetch.
  rewrite Hmiss, Hnet. reflexivity.
Qed.

Lemma networkFirst_online network request w fresh :
  network request = Some fresh ->
  networkFirst network request w =
  (Returns fresh,
   {| caches := stored API_CACHE request fresh (caches w);
      fetched := (fetched w ++ [request])%list |}).
Proof.
  intros Hnet.
  unfold networkFirst, try_catch, bindM, fetch, caches_open, cache_put, ret,
    stored, opened.
  rewrite Hnet. cbn [caches fetched].
  destruct (has_cache API_CACHE (caches w)); cbn [caches fetched];
    destruct (put_accepts request fresh); reflexivity.
Qed.

Lemma networkFirst_offline network request w :
  network request = None ->
  networkFirst network request w =
  (Returns match storage_match request (caches w) with
           | Some cached => cached
           | None => offline_response
           end,
   {| caches := caches w; fetched := (fetched w ++ [request])%list |}).
Proof.
  intros Hnet.
  unfold networkFirst, try_catch, bindM, fetch, caches_match, ret.
  rewrite Hnet. cbn [caches fetched].
  destruct (storage_match request (caches w)); reflexivity.
Qed.



Lemma stored_other name request r cs :
  (forall name' q,
      name' <> name \/ same_url (url q) (url request) = false ->
      cached_in name' q (stored name request r cs) = cached_in name' q cs)
  /\ (forall q,
         same_url (url q) (url request) = false ->
         storage_match q (stored name request r cs) = storage_match q cs)
  /\ (forall name' u,
         name' <> name \/ same_url u (url request) = false ->
         entry name' u (stored name request r cs) = entry name' u cs).
Proof.
  unfold stored. split; [|split].
  - intros name' q Hne. destruct (put_accepts request r);
      [rewrite cached_in_put_other by exact Hne|]; apply cached_in_open.
  - intros q Hne. destruct (put_accepts request r);
      [rewrite storage_match_put_other by exact Hne|]; apply storage_match_open.
  - intros name' u Hne. destruct (put_accepts request r);
      [rewrite entry_put_other by exact Hne|]; apply entry_open.
Qed.


End WorkerFacts.







(** The cache compares URLs without their fragment and honours [Vary]:
    offline, the API request with a fragment is answered from the
    entry made without it; a response that varies on a header answers
    only requests that carry the same value of it. *)
Example cache_match_values :
  Worker.networkFirst offline api_request_at_top sample_world
  = (Returns sample_api_response,
     {| Worker.caches := Worker.caches sample_world;
        Worker.fetched := [api_request_at_top] |})
  /\ map (fun accept =>
            Worker.cache_match
              {| Worker.method := "GET"; Worker.url := "https://tv.example/";
                 Worker.mode := "navigate";
                 Worker.request_headers := [("accept", accept)] |}
              [ ({| Worker.method := "GET";
                    Worker.url := "https://tv.example/#clock";
                    Worker.mode := "navigate";
                    Worker.request_headers := [("Accept", "text/html")] |},
                 {| Worker.status := 200;
                    Worker.headers := [("vary", "Accept-Encoding, Accept")];
                    Worker.body := Worker.Text "<!doctype html>" |}) ])
       ["text/html"; "application/json"]
     = [ Some {| Worker.status := 200;
                 Worker.headers := [("vary", "Accept-Encoding, Accept")];
                 Worker.body := Worker.Text "<!doctype html>" |};
         None ].
Proof. split; vm_compute; reflexivity. Qed.

(* ===================================================================== *)
(** * Weather proxy: properties *)
(* ===================================================================== *)

Lemma num_is_finite v x : Weather.num v = Some x -> JS.isFinite x = true.
Proof.
  destruct v; cbn [Weather.num]; try discriminate.
  destruct (JS.isFinite x0) eqn:E; [|discriminate].
  intros [= <-]. exact E.
Qed.

Lemma json_number_finite_or_null x : finite_or_null (json_number x) = true.
Proof.
  unfold json_number. destruct (JS.isFinite x) eqn:E; [|reflexivity].
  cbn [finite_or_null]. destruct (is_zero x); [reflexivity | exact E].
Qed.

Lemma json_nullable_finite_or_null o :
  finite_or_null (Weather.json_nullable o) = true.
Proof. destruct o; [apply json_number_finite_or_null | reflexivity]. Qed.

(** A 200 response of the handler is the serialised forecast. *)
Lemma forecast_step_200 U tz locName la lo r :
  Weather.forecast_step U tz locName la lo = Returns r -> code r = 200 ->
  exists fRes f days,
    Weather.forecast U (JS.NumberToString la) (JS.NumberToString lo) tz = Some fRes
    /\ json fRes = Some f
    /\ Weather.daily_entries f = Returns days
    /\ payload r =
       Weather.json_of_out
         {| Weather.location :=
              {| Weather.name := locName; Weather.latitude := la;
                 Weather.longitude := lo |};
            Weather.current :=
              {| Weather.temperature :=
                   Weather.num (JS.get (JS.get f "current_weather") "temperature");
                 Weather.current_weathercode :=
                   Weather.num (JS.get (JS.get f "current_weather") "weathercode") |};
            Weather.daily := days |}.
Proof.
  unfold Weather.forecast_step.
  destruct (Weather.forecast U _ _ tz) as [fRes|]; [|discriminate].
  destruct (ok fRes); cbn [negb];
    [|intros [= <-]; cbn [code]; discriminate].
  destruct (json fRes) as [f|] eqn:Ef; [|discriminate].
  destruct (Weather.daily_entries f) as [days|] eqn:Ed; cbn [bind];
    [|discriminate].
  intros [= <-] _. exists fRes, f, days. cbn [payload].
  repeat split; auto.
Qed.

Lemma weather_GET_200 searchParams U r :
  Weather.GET searchParams U = Returns r -> code r = 200 ->
  exists tz locName la lo, Weather.forecast_step U tz locName la lo = Returns r.
Proof.
  unfold Weather.GET.
  destruct (_ && _); [intros [= <-]; cbn [code]; discriminate|].
  destruct (Weather.number_param (searchParams "lat")) as [la|];
    destruct (Weather.number_param (searchParams "lon")) as [lo|];
    try (intros H _; do 4 eexists; exact H).
  all: destruct (Weather.geocode U _) as [geoRes|]; [|discriminate];
    (destruct (ok geoRes); cbn [negb];
     [|intros [= <-]; cbn [code]; discriminate]);
    (destruct (json geoRes) as [geo|]; [|discriminate]);
    (destruct (Weather.location_name _ _) as [loc|]; cbn [bind]; [|discriminate]);
    (destruct (Weather.num _) as [la'|];
     [destruct (Weather.num _) as [lo'|]|]);
    try (intros [= <-]; cbn [code]; discriminate);
    intros H _; do 4 eexists; exact H.
Qed.

Lemma mapi_from_length {A B : Type} (f : nat -> A -> B) l :
  forall k, List.length (mapi_from k f l) = List.length l.
Proof.
  induction l as [|x l IH]; intros k; cbn [mapi_from List.length];
    [reflexivity | rewrite IH; reflexivity].
Qed.

Lemma mapi_from_nth {A B : Type} (f : nat -> A -> B) l :
  forall k i x, nth_error l i = Some x ->
    nth_error (mapi_from k f l) i = Some (f (k + i)%nat x).
Proof.
  induction l as [|y l IH]; intros k i x; destruct i as [|i];
    cbn [nth_error mapi_from]; try discriminate.
  - intros [= ->]. rewrite Nat.add_0_r. reflexivity.
  - intros H. rewrite (IH (S k) i x H). f_equal. f_equal. lia.
Qed.

Lemma daily_entries_returns f days :
  Weather.daily_entries f = Returns days ->
  exists times,
    Weather.daily_array f "time" = JS.VArray times
    /\ days =
       mapi (fun i date =>
               {| Weather.daily_date := date;
                  Weather.tmax :=
                    Weather.num (JS.at_index (Weather.daily_array f "temperature_2m_max") i);
                  Weather.tmin :=
                    Weather.num (JS.at_index (Weather.daily_array f "temperature_2m_min") i);
                  Weather.precipProbMax :=
                    Weather.num
                      (JS.at_index
                         (Weather.daily_array f "precipitation_probability_max") i);
                  Weather.weathercode :=
                    Weather.num (JS.at_index (Weather.daily_array f "weathercode") i) |})
            times.
Proof.
  unfold Weather.daily_entries.
  destruct (Weather.daily_array f "time") as [| | | | |times|]; try discriminate.
  intros [= <-]. exists times. split; reflexivity.
Qed.

(** C5.  In every 200 response of the weather proxy, each numeric field
    of the JSON body (the latitude and longitude of the location, the
    current temperature and weathercode, and tmax, tmin, precipProbMax
    and weathercode of every day) is null or a finite number. *)
Theorem weather_numbers_finite_or_null :
  forall (searchParams : string -> option string) (U : Weather.Upstream)
         (r : HttpResponse),
    Weather.GET searchParams U = Returns r -> code r = 200 ->
    finite_or_null (JS.get (JS.get (payload r) "location") "latitude") = true
    /\ finite_or_null (JS.get (JS.get (payload r) "location") "longitude") = true
    /\ finite_or_null (JS.get (JS.get (payload r) "current") "temperature") = true
    /\ finite_or_null (JS.get (JS.get (payload r) "current") "weathercode") = true
    /\ exists entries,
         JS.get (payload r) "daily" = JS.VArray entries
         /\ forall e, In e entries ->
              finite_or_null (JS.get e "tmax") = true
              /\ finite_or_null (JS.get e "tmin") = true
              /\ finite_or_null (JS.get e "precipProbMax") = true
              /\ finite_or_null (JS.get e "weathercode") = true.
Proof.
  intros searchParams U r HGET H200.
  destruct (weather_GET_200 _ _ _ HGET H200) as (tz & locName & la & lo & Hstep).
  destruct (forecast_step_200 _ _ _ _ _ _ Hstep H200)
    as (fRes & f & days & _ & _ & _ & ->).
  repeat split; try apply json_number_finite_or_null;
    try apply json_nullable_finite_or_null.
  eexists. split; [reflexivity|].
  intros e He. cbn [Weather.daily] in He.
  apply in_map_iff in He as (d & <- & _).
  repeat split; apply json_nullable_finite_or_null.
Qed.

Lemma weather_numbers_finite_or_null_witness :
  finite_or_null
    (JS.get (JS.get (payload sample_weather_response) "current") "temperature")
  = true.
Proof.
  apply (weather_numbers_finite_or_null sample_weather_query
           sample_weather_upstream sample_weather_response);
    vm_compute; reflexivity.
Defined.

Lemma weather_GET_200_tz searchParams U r :
  Weather.GET searchParams U = Returns r -> code r = 200 ->
  exists locName la lo,
    Weather.forecast_step U
      (JS.trim (param_or (searchParams "tz") "Europe/Rome")) locName la lo
    = Returns r.
Proof.
  unfold Weather.GET.
  destruct (_ && _); [intros [= <-]; cbn [code]; discriminate|].
  destruct (Weather.number_param (searchParams "lat")) as [la|];
    destruct (Weather.number_param (searchParams "lon")) as [lo|];
    try (intros H _; do 3 eexists; exact H).
  all: destruct (Weather.geocode U _) as [geoRes|]; [|discriminate];
    (destruct (ok geoRes); cbn [negb];
     [|intros [= <-]; cbn [code]; discriminate]);
    (destruct (json geoRes) as [geo|]; [|discriminate]);
    (destruct (Weather.location_name _ _) as [loc|]; cbn [bind]; [|discriminate]);
    (destruct (Weather.num _) as [la'|];
     [destruct (Weather.num _) as [lo'|]|]);
    try (intros [= <-]; cbn [code]; discriminate);
    intros H _; do 3 eexists; exact H.
Qed.

(** The array the handler reads under a column is the upstream one. *)
Lemma daily_array_upstream f column l :
  Weather.daily_array f column = JS.VArray l <->
  upstream_array f column = Some l.
Proof.
  unfold Weather.daily_array, upstream_array, JS.or_else.
  destruct (JS.get (JS.get f "daily") column) as [| |b|x|t|l'|o];
    cbn [JS.truthy];
    try (split; intros [= <-]; reflexivity);
    try (split; discriminate).
  - destruct b; split; intros H; try discriminate; injection H as <-; reflexivity.
  - destruct (negb (is_nan x || is_zero x)); split; intros H;
      try discriminate; injection H as <-; reflexivity.
  - destruct (negb (String.eqb t "")); split; intros H;
      try discriminate; injection H as <-; reflexivity.
Qed.

(** What the handler sends for index [i] of an upstream array. *)
Lemma sent_number l i :
  Weather.json_nullable (Weather.num (nth i l JS.VUndefined))
  = number_or_null l i.
Proof.
  unfold number_or_null. destruct (nth_error l i) as [v|] eqn:E.
  - rewrite (nth_error_nth _ _ _ E).
    destruct v; try reflexivity. cbn [Weather.num].
    destruct (JS.isFinite x) eqn:Ex; [|reflexivity].
    cbn [Weather.json_nullable]. unfold json_number. rewrite Ex. reflexivity.
  - apply nth_error_None in E. rewrite (nth_overflow _ _ E). reflexivity.
Qed.

Lemma sent_column f column l i :
  upstream_array f column = Some l ->
  Weather.json_nullable
    (Weather.num (JS.at_index (Weather.daily_array f column) i))
  = number_or_null l i.
Proof.
  intros H. apply daily_array_upstream in H. rewrite H. cbn [JS.at_index].
  apply sent_number.
Qed.

Lemma number_or_null_absent l i :
  (List.length l <= i)%nat \/ (forall x, nth_error l i <> Some (JS.VNumber x)) ->
  number_or_null l i = JS.VNull.
Proof.
  unfold number_or_null. intros [Hshort | Hnan].
  - apply nth_error_None in Hshort. rewrite Hshort. reflexivity.
  - destruct (nth_error l i) as [[| | |x| | |]|]; try reflexivity.
    exfalso. apply (Hnan x). reflexivity.
Qed.

(** C10.  In every 200 response of the weather proxy, for the payload
    [f] that the forecast service returned for the coordinates the
    response names and the time zone of the query: the daily array has
    one entry per element of the upstream [daily.time] array, in the
    same order, with that element as its date; each numeric field of
    entry [i] is the finite number at index [i] of its upstream column,
    and null when the column is shorter than [daily.time] or holds no
    number there. *)
Theorem weather_daily_follows_times :
  forall (searchParams : string -> option string) (U : Weather.Upstream)
         (r : HttpResponse),
    Weather.GET searchParams U = Returns r -> code r = 200 ->
    exists la lo fRes f times entries,
      Weather.forecast U (JS.NumberToString la) (JS.NumberToString lo)
        (JS.trim (param_or (searchParams "tz") "Europe/Rome")) = Some fRes
      /\ json fRes = Some f
      /\ JS.get (JS.get (payload r) "location") "latitude" = json_number la
      /\ JS.get (JS.get (payload r) "location") "longitude" = json_number lo
      /\ upstream_array f "time" = Some times
      /\ JS.get (payload r) "daily" = JS.VArray entries
      /\ List.length entries = List.length times
      /\ (forall i date, nth_error times i = Some date ->
          exists e,
            nth_error entries i = Some e
            /\ JS.get e "date" = stringify date
            /\ (forall s, date = JS.VString s -> JS.get e "date" = JS.VString s)
            /\ (forall l, upstream_array f "temperature_2m_max" = Some l ->
                JS.get e "tmax" = number_or_null l i)
            /\ (forall l, upstream_array f "temperature_2m_min" = Some l ->
                JS.get e "tmin" = number_or_null l i)
            /\ (forall l,
                upstream_array f "precipitation_probability_max" = Some l ->
                JS.get e "precipProbMax" = number_or_null l i)
            /\ (forall l, upstream_array f "weathercode" = Some l ->
                JS.get e "weathercode" = number_or_null l i))
      /\ (forall l i,
          (List.length l <= i)%nat
          \/ (forall x, nth_error l i <> Some (JS.VNumber x)) ->
          number_or_null l i = JS.VNull).
Proof.
  intros searchParams U r HGET H200.
  destruct (weather_GET_200_tz _ _ _ HGET H200) as (locName & la & lo & Hstep).
  destruct (forecast_step_200 _ _ _ _ _ _ Hstep H200)
    as (fRes & f & days & Hf & Hj & Hd & ->).
  destruct (daily_entries_returns _ _ Hd) as (times & Ht & ->).
  exists la, lo, fRes, f, times.
  eexists. split; [exact Hf|]. split; [exact Hj|].
  split; [reflexivity|]. split; [reflexivity|].
  split; [apply daily_array_upstream, Ht|].
  split; [reflexivity|]. cbn [Weather.daily]. split; [|split].
  - rewrite List.length_map. apply mapi_from_length.
  - intros i date Hi. eexists. split.
    + rewrite nth_error_map. unfold mapi.
      rewrite (mapi_from_nth _ _ 0 i date Hi). reflexivity.
    + cbn [Nat.add Weather.daily_date Weather.tmax Weather.tmin
           Weather.precipProbMax Weather.weathercode].
      split; [reflexivity|]. split; [intros s ->; reflexivity|].
      repeat split; intros l Hl; cbn [JS.get JS.lookup String.eqb Ascii.eqb
                                       Bool.eqb];
        apply sent_column, Hl.
  - intros l i. apply number_or_null_absent.
Qed.

Lemma weather_daily_follows_times_witness :
  exists la lo fRes f times entries,
    Weather.forecast sample_weather_upstream (JS.NumberToString la)
      (JS.NumberToString lo)
      (JS.trim (param_or (sample_weather_query "tz") "Europe/Rome")) = Some fRes
    /\ json fRes = Some f
    /\ JS.get (JS.get (payload sample_weather_response) "location") "latitude"
       = json_number la
    /\ JS.get (JS.get (payload sample_weather_response) "location") "longitude"
       = json_number lo
    /\ upstream_array f "time" = Some times
    /\ JS.get (payload sample_weather_response) "daily" = JS.VArray entries
    /\ List.length entries = List.length times
    /\ (forall i date, nth_error times i = Some date ->
        exists e,
          nth_error entries i = Some e
          /\ JS.get e "date" = stringify date
          /\ (forall s, date = JS.VString s -> JS.get e "date" = JS.VString s)
          /\ (forall l, upstream_array f "temperature_2m_max" = Some l ->
              JS.get e "tmax" = number_or_null l i)
          /\ (forall l, upstream_array f "temperature_2m_min" = Some l ->
              JS.get e "tmin" = number_or_null l i)
          /\ (forall l,
              upstream_array f "precipitation_probability_max" = Some l ->
              JS.get e "precipProbMax" = number_or_null l i)
          /\ (forall l, upstream_array f "weathercode" = Some l ->
              JS.get e "weathercode" = number_or_null l i))
    /\ (forall l i,
        (List.length l <= i)%nat
        \/ (forall x, nth_error l i <> Some (JS.VNumber x)) ->
        number_or_null l i = JS.VNull).
Proof.
  apply (weather_daily_follows_times sample_weather_query
           sample_weather_upstream sample_weather_response);
    vm_compute; reflexivity.
Defined.

(** The sample forecast as the client receives it: the temperature sent
    as a string, the second maximum (null upstream), the third maximum
    (a string) and the missing third precipitation value all arrive as
    null. *)
Example sample_weather_payload :
  payload sample_weather_response =
  JS.VObject
    [ ("location",
       JS.VObject [ ("name", JS.VString "Unknown");
                    ("latitude", JS.VNumber (JS.StringToNumber "41.9"));
                    ("longitude", JS.VNumber 12.5) ]);
      ("current",
       JS.VObject [ ("temperature", JS.VNull); ("weathercode", JS.VNumber 3) ]);
      ("daily",
       JS.VArray
         [ JS.VObject [ ("date", JS.VString "2026-11-02"); ("tmax", JS.VNumber 18);
                        ("tmin", JS.VNumber 9); ("precipProbMax", JS.VNumber 10);
                        ("weathercode", JS.VNumber 3) ];
           JS.VObject [ ("date", JS.VString "2026-11-03"); ("tmax", JS.VNull);
                        ("tmin", JS.VNumber 8); ("precipProbMax", JS.VNumber 60);
                        ("weathercode", JS.VNumber 61) ];
           JS.VObject [ ("date", JS.VString "2026-11-04"); ("tmax", JS.VNull);
                        ("tmin", JS.VNumber 7); ("precipProbMax", JS.VNull);
                        ("weathercode", JS.VNumber 0) ] ]) ].
Proof. vm_compute. reflexivity. Qed.

(* ===================================================================== *)
(** * Hadith proxy: properties *)
(* ===================================================================== *)

Lemma to_int32_range z : - 2 ^ 31 <= Hadith.to_int32 z < 2 ^ 31.
Proof.
  unfold Hadith.to_int32.
  pose proof (Z.mod_pos_bound (z + 2 ^ 31) (2 ^ 32) ltac:(lia)). lia.
Qed.

Lemma hashToInt_nonneg s : 0 <= Hadith.hashToInt s.
Proof. unfold Hadith.hashToInt. apply Z.abs_nonneg. Qed.

(** Five candidates, each a hadith number between 1 and 9000. *)
Lemma guesses_range base :
  0 <= base ->
  List.length (Hadith.guesses base) = 5%nat
  /\ Forall (fun g => 1 <= g <= 9000) (Hadith.guesses base).
Proof.
  intros Hb. split; [reflexivity|]. unfold Hadith.guesses. cbn [map].
  repeat constructor;
    match goal with
    | |- context [Z.rem ?a 9000] =>
        pose proof (Z.rem_bound_pos a 9000 ltac:(lia) ltac:(lia))
    end; lia.
Qed.

Lemma prefix_nil {A : Type} (l : list A) : prefix [] l.
Proof. exists l. reflexivity. Qed.

Lemma prefix_cons {A : Type} (x : A) l1 l2 :
  prefix l1 l2 -> prefix (x :: l1) (x :: l2).
Proof. intros [l3 ->]. exists l3. reflexivity. Qed.

(** The URLs requested for one candidate are an initial segment of its
    URLs, and not empty when there is a URL to try. *)
Lemma fetch_loop_trace U urls :
  forall lastErr,
    prefix (snd (Hadith.fetch_loop U urls lastErr)) urls
    /\ (urls <> [] -> snd (Hadith.fetch_loop U urls lastErr) <> []).
Proof.
  induction urls as [|url urls IH]; intros lastErr; cbn [Hadith.fetch_loop].
  - split; [apply prefix_nil | intros H; contradiction].
  - assert (Hcont : forall e,
       prefix (snd (let '(r, t) := Hadith.fetch_loop U urls (Some e) in
                    (r, url :: t))) (url :: urls)
       /\ (url :: urls <> [] ->
           snd (let '(r, t) := Hadith.fetch_loop U urls (Some e) in
                (r, url :: t)) <> [])).
    { intros e. destruct (IH (Some e)) as [Hp _].
      destruct (Hadith.fetch_loop U urls (Some e)) as [r t]. cbn [snd] in *.
      split; [apply prefix_cons, Hp | discriminate]. }
    destruct (Hadith.fetch U url) as [r|]; [|apply Hcont].
    destruct (ok r); cbn [negb]; [|apply Hcont].
    destruct (json r); [|apply Hcont].
    cbn [snd]. split; [apply prefix_cons, prefix_nil | discriminate].
Qed.

Lemma urls_of_not_nil edition g : Hadith.urls_of edition g <> [].
Proof. unfold Hadith.urls_of. discriminate. Qed.

(** The URLs requested by the loop over the candidates follow the
    candidates in order. *)
Lemma attempts_trace U edition candidates :
  forall last,
    candidate_trace edition candidates
      (snd (Hadith.attempts U edition candidates last)).
Proof.
  induction candidates as [|g rest IH]; intros last; cbn [Hadith.attempts].
  - exists [], []. repeat split; [apply prefix_nil | constructor].
  - unfold Hadith.fetchJsonWithFallback.
    destruct (fetch_loop_trace U (Hadith.urls_of edition g) None) as [Hp Hne].
    specialize (Hne (urls_of_not_nil edition g)).
    destruct (Hadith.fetch_loop U (Hadith.urls_of edition g) None) as [res t].
    cbn [snd] in Hp, Hne.
    assert (Hcont : forall e,
       candidate_trace edition (g :: rest)
         (snd (let '(r, t') := Hadith.attempts U edition rest (Some e) in
               (r, (t ++ t')%list)))).
    { intros e. destruct (IH (Some e)) as (tried & chunks & Ht & Hc & Heq).
      destruct (Hadith.attempts U edition rest (Some e)) as [r t'].
      cbn [snd] in *. exists (g :: tried), (t :: chunks).
      split; [apply prefix_cons, Ht|]. split; [constructor; auto|].
      cbn [List.concat]. rewrite Heq. reflexivity. }
    assert (Hstop : candidate_trace edition (g :: rest) t).
    { exists [g], [t]. split; [apply prefix_cons, prefix_nil|].
      split; [repeat constructor; auto|]. cbn [List.concat].
      rewrite app_nil_r. reflexivity. }
    destruct res as [j|e]; [|apply Hcont].
    destruct (negb _); [apply Hcont|].
    destruct (Hadith.hadith_out edition g j); [exact Hstop | apply Hcont].
Qed.

Lemma fetch_loop_first_ok U url urls lastErr reply j :
  Hadith.fetch U url = Some reply -> ok reply = true -> json reply = Some j ->
  Hadith.fetch_loop U (url :: urls) lastErr = (inl j, [url]).
Proof.
  intros Hfetch Hok Hjson. cbn [Hadith.fetch_loop].
  rewrite Hfetch, Hok. cbn [negb]. rewrite Hjson. reflexivity.
Qed.

Lemma attempts_first_ok U edition g rest last reply j out url urls :
  Hadith.urls_of edition g = url :: urls ->
  Hadith.fetch U url = Some reply -> ok reply = true -> json reply = Some j ->
  JS.truthy (JS.get (JS.at_index (JS.get j "hadiths") 0) "text") = true ->
  Hadith.hadith_out edition g j = Some out ->
  Hadith.attempts U edition (g :: rest) last =
  ({| code := 200; payload := stringify out;
      cache_control :=
        Some "public, s-maxage=21600, stale-while-revalidate=43200" |},
   [url]).
Proof.
  intros Hurls Hfetch Hok Hjson Htext Hout. cbn [Hadith.attempts].
  unfold Hadith.fetchJsonWithFallback.
  rewrite Hurls, (fetch_loop_first_ok U url urls None reply j Hfetch Hok Hjson).
  rewrite Htext. cbn [negb]. rewrite Hout. reflexivity.
Qed.

(** C6.  The hadith proxy is a function of the edition and the seed it
    reads: two invocations that read the same edition and the same seed
    compute the same hash base and the same five candidates, each
    between 1 and 9000, and with the same upstream behaviour answer
    alike and request the same URLs in the same order, whatever the date
    of the call and the other query parameters; the URLs requested
    follow the candidates in order; and when the first URL of the first
    candidate answers with a hadith that has a text, that hadith is the
    answer and nothing else is requested. *)
Theorem hadith_deterministic_in_edition_and_seed :
  (forall (sp1 sp2 : string -> option string) (today1 today2 : string)
          (U : Hadith.Upstream),
      Hadith.edition_of sp1 = Hadith.edition_of sp2 ->
      Hadith.seed_of sp1 today1 = Hadith.seed_of sp2 today2 ->
      Hadith.guesses
        (Hadith.hashToInt (Hadith.edition_of sp1 ++ ":" ++ Hadith.seed_of sp1 today1))
      = Hadith.guesses
          (Hadith.hashToInt (Hadith.edition_of sp2 ++ ":" ++ Hadith.seed_of sp2 today2))
      /\ Hadith.GET sp1 today1 U = Hadith.GET sp2 today2 U)
  /\ (forall (sp : string -> option string) (today : string) (U : Hadith.Upstream),
      let candidates :=
        Hadith.guesses
          (Hadith.hashToInt (Hadith.edition_of sp ++ ":" ++ Hadith.seed_of sp today)) in
      List.length candidates = 5%nat
      /\ Forall (fun g => 1 <= g <= 9000) candidates
      /\ candidate_trace (Hadith.edition_of sp) candidates
           (snd (Hadith.GET sp today U)))
  /\ (forall (sp : string -> option string) (today : string) (U : Hadith.Upstream)
             (reply : Reply) (j out : JS.value),
      let edition := Hadith.edition_of sp in
      let first :=
        Z.rem (Hadith.hashToInt (edition ++ ":" ++ Hadith.seed_of sp today)) 9000 + 1 in
      let url :=
        "https://cdn.jsdelivr.net/gh/fawazahmed0/hadith-api@1/editions/"
          ++ edition ++ "/" ++ JS.digits first ++ ".min.json" in
      Hadith.fetch U url = Some reply -> ok reply = true -> json reply = Some j ->
      JS.truthy (JS.get (JS.at_index (JS.get j "hadiths") 0) "text") = true ->
      Hadith.hadith_out edition first j = Some out ->
      Hadith.GET sp today U =
      ({| code := 200; payload := stringify out;
          cache_control :=
            Some "public, s-maxage=21600, stale-while-revalidate=43200" |},
       [url])).
Proof.
  split; [|split].
  - intros sp1 sp2 today1 today2 U He Hs. unfold Hadith.GET.
    rewrite He, Hs. split; reflexivity.
  - intros sp today U candidates. subst candidates.
    destruct (guesses_range _ (hashToInt_nonneg
                (Hadith.edition_of sp ++ ":" ++ Hadith.seed_of sp today)))
      as [Hlen Hall].
    split; [exact Hlen|]. split; [exact Hall|].
    unfold Hadith.GET. apply attempts_trace.
  - intros sp today U reply j out edition first url Hfetch Hok Hjson Htext Hout.
    unfold Hadith.GET, Hadith.guesses. cbn [map].
    rewrite Z.mul_0_l, Z.add_0_r. fold edition. fold first.
    eapply (attempts_first_ok U edition first _ None reply j out url);
      [reflexivity | assumption ..].
Qed.

Lemma hadith_deterministic_in_edition_and_seed_witness :
  Hadith.guesses
    (Hadith.hashToInt
       (Hadith.edition_of hadith_query_a ++ ":"
          ++ Hadith.seed_of hadith_query_a "2026-11-02"))
  = Hadith.guesses
      (Hadith.hashToInt
         (Hadith.edition_of hadith_query_b ++ ":"
            ++ Hadith.seed_of hadith_query_b "2027-01-01"))
  /\ Hadith.GET hadith_query_a "2026-11-02" mirrors_down
     = Hadith.GET hadith_query_b "2027-01-01" mirrors_down.
Proof.
  apply (proj1 hadith_deterministic_in_edition_and_seed
           hadith_query_a hadith_query_b "2026-11-02" "2027-01-01" mirrors_down);
    vm_compute; reflexivity.
Defined.

(** The candidates of the sample day. *)
Example sample_guesses :
  Hadith.guesses (Hadith.hashToInt "eng-bukhari:2026-11-02")
  = [6701; 7698; 8695; 692; 1689].
Proof. vm_compute. reflexivity. Qed.

(* ===================================================================== *)
(** * Offline cache worker: the events and how the strategies compose *)
(* ===================================================================== *)

Section StrategyFacts.

Import Worker WorkerEvents.

Variable network : Request -> option Response.
Variable self_origin : string.

Lemma shell_fallback_online request w fresh :
  network request = Some fresh ->
  networkWithShellFallback network self_origin request w =
  (Returns fresh,
   {| caches := stored APP_SHELL_CACHE request fresh (caches w);
      fetched := (fetched w ++ [request])%list |}).
Proof.
  intros Hnet.
  unfold networkWithShellFallback, try_catch, bindM, fetch, caches_open,
    cache_put, ret, stored, opened.
  rewrite Hnet. cbn [caches fetched].
  destruct (has_cache APP_SHELL_CACHE (caches w)); cbn [caches fetched];
    destruct (put_accepts request fresh); reflexivity.
Qed.

Lemma shell_fallback_offline request w :
  network request = None ->
  networkWithShellFallback network self_origin request w =
  (match storage_match request (caches w) with
   | Some cached => Returns cached
   | None =>
       match storage_match (shell_request self_origin) (caches w) with
       | Some shell => Returns shell
       | None => Throws
       end
   end,
   {| caches := caches w; fetched := (fetched w ++ [request])%list |}).
Proof.
  intros Hnet.
  unfold networkWithShellFallback, try_catch, bindM, fetch, caches_match, ret,
    throw.
  rewrite Hnet. cbn [caches fetched].
  destruct (storage_match request (caches w)); [reflexivity|].
  cbn [caches fetched].
  destruct (storage_match (shell_request self_origin) (caches w)); reflexivity.
Qed.

Lemma stored_writes_only target request fresh w :
  (forall name q,
      name <> target \/ same_url (url q) (url request) = false ->
      cached_in name q (stored target request fresh (caches w))
      = cached_in name q (caches w))
  /\ (forall q,
         same_url (url q) (url request) = false ->
         storage_match q (stored target request fresh (caches w))
         = storage_match q (caches w))
  /\ (forall name u,
         name <> target \/ same_url u (url request) = false ->
         entry name u (stored target request fresh (caches w))
         = entry name u (caches w))
  /\ (fetched w ++ [request] = fetched w
      \/ fetched w ++ [request] = fetched w ++ [request])%list.
Proof.
  destruct (stored_other target request fresh (caches w)) as (H1 & H2 & H3).
  repeat split; [exact H1 | exact H2 | exact H3 | right; reflexivity].
Qed.

Lemma unchanged_writes_only target request (w : World) :
  (forall name q,
      name <> target \/ same_url (url q) (url request) = false ->
      cached_in name q (caches w) = cached_in name q (caches w))
  /\ (forall q,
         same_url (url q) (url request) = false ->
         storage_match q (caches w) = storage_match q (caches w))
  /\ (forall name u,
         name <> target \/ same_url u (url request) = false ->
         entry name u (caches w) = entry name u (caches w))
  /\ (fetched w ++ [request] = fetched w
      \/ fetched w ++ [request] = fetched w ++ [request])%list.
Proof. repeat split; right; reflexivity. Qed.

Lemma cacheFirst_writes_only request :
  writes_only APP_SHELL_CACHE request (cacheFirst network request).
Proof.
  intros w o w' Hrun.
  destruct (storage_match request (caches w)) as [cached|] eqn:Hm.
  - rewrite (cacheFirst_hit _ _ _ _ Hm) in Hrun.
    injection Hrun as _ <-. repeat split; left; reflexivity.
  - destruct (network request) as [fresh|] eqn:Hnet.
    + rewrite (cacheFirst_miss _ _ _ _ Hm Hnet) in Hrun.
      injection Hrun as _ <-. cbn [caches fetched].
      apply stored_writes_only.
    + rewrite (cacheFirst_miss_offline _ _ _ Hm Hnet) in Hrun.
      injection Hrun as _ <-. cbn [caches fetched].
      apply unchanged_writes_only.
Qed.

Lemma networkFirst_writes_only request :
  writes_only API_CACHE request (networkFirst network request).
Proof.
  intros w o w' Hrun.
  destruct (network request) as [fresh|] eqn:Hnet.
  - rewrite (networkFirst_online _ _ _ _ Hnet) in Hrun.
    injection Hrun as _ <-. cbn [caches fetched]. apply stored_writes_only.
  - rewrite (networkFirst_offline _ _ _ Hnet) in Hrun.
    injection Hrun as _ <-. cbn [caches fetched].
    apply unchanged_writes_only.
Qed.

Lemma shell_fallback_writes_only request :
  writes_only APP_SHELL_CACHE request
    (networkWithShellFallback network self_origin request).
Proof.
  intros w o w' Hrun.
  destruct (network request) as [fresh|] eqn:Hnet.
  - rewrite (shell_fallback_online _ _ _ Hnet) in Hrun.
    injection Hrun as _ <-. cbn [caches fetched]. apply stored_writes_only.
  - rewrite (shell_fallback_offline _ _ Hnet) in Hrun.
    injection Hrun as _ <-. cbn [caches fetched].
    apply unchanged_writes_only.
Qed.

End StrategyFacts.







(** X4.  Each strategy changes what the caches answer only in its own
    cache (the app-shell cache for [cacheFirst] and
    [networkWithShellFallback], the API cache for [networkFirst]) and
    only for requests whose URL is, the fragment apart, the URL of its
    request; what [caches.match] finds for any other URL, and the entry
    kept under any other URL, are as before; and it sends at most the
    request itself to the network. *)
Theorem strategies_write_only_their_entry :
  forall (network : Worker.Request -> option Worker.Response)
         (self_origin : string) (request : Worker.Request),
    writes_only Worker.APP_SHELL_CACHE request
      (Worker.cacheFirst network request)
    /\ writes_only Worker.API_CACHE request
         (Worker.networkFirst network request)
    /\ writes_only Worker.APP_SHELL_CACHE request
         (WorkerEvents.networkWithShellFallback network self_origin request).
Proof.
  intros network self_origin request. split; [|split].
  - apply cacheFirst_writes_only.
  - apply networkFirst_writes_only.
  - apply shell_fallback_writes_only.
Qed.

(** X5.  The fetch listener answers only GET requests of its own
    origin; and whatever it answers with, what the API cache answers
    changes only for requests whose URL is, the fragment apart, the URL
    of the request, and only when the request is not a navigation and
    its path starts with /api/. *)
Theorem fetch_listener_routing :
  forall (network : Worker.Request -> option Worker.Response)
         (self_origin : string) (origin_of pathname_of : string -> string)
         (request : Worker.Request),
    (Worker.method request <> "GET"
     \/ origin_of (Worker.url request) <> self_origin ->
     WorkerEvents.on_fetch network self_origin origin_of pathname_of request
     = WorkerEvents.PassThrough)
    /\ (forall strategy w o w' q,
           WorkerEvents.on_fetch network self_origin origin_of pathname_of
             request = WorkerEvents.RespondWith strategy ->
           strategy w = (o, w') ->
           Worker.cached_in Worker.API_CACHE q (Worker.caches w')
           <> Worker.cached_in Worker.API_CACHE q (Worker.caches w) ->
           Worker.same_url (Worker.url q) (Worker.url request) = true
           /\ Worker.mode request <> "navigate"
           /\ String.prefix "/api/" (pathname_of (Worker.url request)) = true).
Proof.
  intros network self_origin origin_of pathname_of request.
  unfold WorkerEvents.on_fetch. split.
  - intros [H|H].
    + apply String.eqb_neq in H. rewrite H. reflexivity.
    + apply String.eqb_neq in H. rewrite H.
      destruct (String.eqb (Worker.method request) "GET"); reflexivity.
  - intros strategy w o w' q.
    destruct (String.eqb (Worker.method request) "GET"); [|discriminate].
    destruct (String.eqb (origin_of (Worker.url request)) self_origin);
      [|discriminate].
    cbn [negb].
    assert (Hshell : Worker.API_CACHE <> Worker.APP_SHELL_CACHE)
      by (vm_compute; discriminate).
    destruct (String.eqb (Worker.mode request) "navigate") eqn:Hnav.
    { intros [= <-] Hrun Hchg. exfalso. apply Hchg.
      apply (shell_fallback_writes_only network self_origin request w o w' Hrun).
      left. exact Hshell. }
    destruct (String.prefix "/_next/static/" (pathname_of (Worker.url request))
              || existsb (String.eqb (pathname_of (Worker.url request)))
                   WorkerEvents.APP_SHELL_ASSETS).
    { intros [= <-] Hrun Hchg. exfalso. apply Hchg.
      apply (cacheFirst_writes_only network request w o w' Hrun).
      left. exact Hshell. }
    destruct (String.prefix "/api/" (pathname_of (Worker.url request))) eqn:Hapi;
      [|discriminate].
    intros [= <-] Hrun Hchg. split; [|split].
    + destruct (Worker.same_url (Worker.url q) (Worker.url request)) eqn:Eu;
        [reflexivity|].
      exfalso. apply Hchg.
      apply (networkFirst_writes_only network request w o w' Hrun).
      right. exact Eu.
    + apply String.eqb_neq, Hnav.
    + reflexivity.
Qed.

Lemma fetch_listener_routing_witness :
  WorkerEvents.on_fetch online sample_origin sample_origin_of
    sample_pathname_of post_request
  = WorkerEvents.PassThrough.
Proof.
  apply (proj1 (fetch_listener_routing online sample_origin sample_origin_of
                  sample_pathname_of post_request)).
  left. vm_compute. discriminate.
Defined.

(** A put for the API request with a fragment replaces the entry made
    without it: afterwards the cache answers both with the new
    response. *)
Example put_replaces_modulo_fragment :
  map (fun q =>
         Worker.cached_in Worker.API_CACHE q
           (Worker.caches
              (snd (Worker.networkFirst online api_request_at_top
                      sample_world))))
    [api_request; api_request_at_top]
  = [Some sample_page; Some sample_page]
  /\ Worker.entry Worker.API_CACHE (Worker.url api_request)
       (Worker.caches
          (snd (Worker.networkFirst online api_request_at_top sample_world)))
     = None.
Proof. split; vm_compute; reflexivity. Qed.

(** The listener on the sample requests: a page is served by the shell
    fallback, a static asset cache-first, an API call network-first. *)
Example fetch_listener_samples :
  map (WorkerEvents.on_fetch online sample_origin sample_origin_of
         sample_pathname_of)
    [page_request; asset_request; api_request]
  = [ WorkerEvents.RespondWith
        (WorkerEvents.networkWithShellFallback online sample_origin
           page_request);
      WorkerEvents.RespondWith (Worker.cacheFirst online asset_request);
      WorkerEvents.RespondWith (Worker.networkFirst online api_request) ].
Proof.
  cbv - [Worker.cacheFirst Worker.networkFirst
         WorkerEvents.networkWithShellFallback].
  reflexivity.
Qed.

Section ActivateFacts.

Import Worker WorkerEvents.

Lemma entry_filter_current name u cs :
  is_stale name = false ->
  entry name u (filter (fun e => negb (is_stale (fst e))) cs) = entry name u cs.
Proof.
  intros Hcur. unfold entry.
  induction cs as [|[n c] cs IH]; [reflexivity|]. cbn [filter find fst].
  destruct (is_stale n) eqn:En; cbn [negb find fst].
  - destruct (String.eqb n name) eqn:E; [|exact IH].
    apply String.eqb_eq in E. congruence.
  - destruct (String.eqb n name); [reflexivity | exact IH].
Qed.

Lemma entry_filter_stale name u cs :
  is_stale name = true ->
  entry name u (filter (fun e => negb (is_stale (fst e))) cs) = None.
Proof.
  intros Hstale. unfold entry.
  induction cs as [|[n c] cs IH]; [reflexivity|]. cbn [filter find fst].
  destruct (is_stale n) eqn:En; cbn [negb find fst]; [exact IH|].
  destruct (String.eqb n name) eqn:E; [|exact IH].
  apply String.eqb_eq in E. congruence.
Qed.

Lemma filter_idem {A : Type} (f : A -> bool) (l : list A) :
  filter f (filter f l) = filter f l.
Proof.
  induction l as [|a l IH]; [reflexivity|]. cbn [filter].
  destruct (f a) eqn:E; [|exact IH]. cbn [filter]. rewrite E, IH. reflexivity.
Qed.

Lemma is_stale_current name :
  is_stale name = false <-> name = APP_SHELL_CACHE \/ name = API_CACHE.
Proof.
  unfold is_stale. cbn [existsb]. rewrite orb_false_r.
  rewrite negb_false_iff, orb_true_iff, !String.eqb_eq. reflexivity.
Qed.

End ActivateFacts.

(** X6.  Activation deletes the outdated caches and nothing else: it
    never throws, the entries of the app-shell cache and of the API
    cache are as before, no other cache has an entry afterwards (of
    whatever name, so of whatever version), only those two names remain
    in the storage, no request is sent, and activating again changes
    nothing. *)
Theorem activate_keeps_current_caches :
  forall w : Worker.World,
    exists w',
      WorkerEvents.activate w = (Returns tt, w')
      /\ (forall u,
             Worker.entry Worker.APP_SHELL_CACHE u (Worker.caches w')
             = Worker.entry Worker.APP_SHELL_CACHE u (Worker.caches w)
             /\ Worker.entry Worker.API_CACHE u (Worker.caches w')
                = Worker.entry Worker.API_CACHE u (Worker.caches w))
      /\ (forall name u,
             name <> Worker.APP_SHELL_CACHE -> name <> Worker.API_CACHE ->
             Worker.entry name u (Worker.caches w') = None)
      /\ Forall (fun e => fst e = Worker.APP_SHELL_CACHE
                          \/ fst e = Worker.API_CACHE) (Worker.caches w')
      /\ Worker.fetched w' = Worker.fetched w
      /\ WorkerEvents.activate w' = (Returns tt, w').
Proof.
  intros w. eexists. split; [reflexivity|]. cbn [Worker.caches Worker.fetched].
  split; [|split; [|split; [|split]]].
  - intros u. split; apply entry_filter_current, is_stale_current; auto.
  - intros name u H1 H2. apply entry_filter_stale.
    destruct (WorkerEvents.is_stale name) eqn:E; [reflexivity|].
    apply is_stale_current in E. tauto.
  - apply Forall_forall. intros e He. apply filter_In in He.
    destruct He as [_ He]. apply is_stale_current.
    apply negb_true_iff, He.
  - reflexivity.
  - unfold WorkerEvents.activate. cbn [Worker.caches Worker.fetched].
    rewrite filter_idem. reflexivity.
Qed.

(** The sample storage with an outdated cache, once activated. *)
Example activate_sample :
  WorkerEvents.activate outdated_world
  = (Returns tt,
     {| Worker.caches := Worker.caches sample_world;
        Worker.fetched := [asset_request] |}).
Proof. vm_compute. reflexivity. Qed.

(* ===================================================================== *)
(** * The pages: properties *)
(* ===================================================================== *)

Lemma ltb_leb x y : PrimFloat.ltb x y = true -> PrimFloat.leb x y = true.
Proof.
  rewrite ltb_spec, leb_spec. unfold SFltb, SFleb.
  destruct (SFcompare (Prim2SF x) (Prim2SF y)) as [[| |]|];
    congruence.
Qed.

Lemma leb_refl x : is_nan x = false -> PrimFloat.leb x x = true.
Proof.
  intros H. rewrite leb_spec. unfold SFleb.
  rewrite SFcompare_refl; [reflexivity | apply is_nan_Prim2SF, H].
Qed.

Lemma max_floor a b :
  classify a = FloatClass.PNormal -> is_nan a = false ->
  (is_nan (Math.max a b) = true <-> is_nan b = true)
  /\ (is_nan (Math.max a b) = false -> PrimFloat.leb a (Math.max a b) = true).
Proof.
  intros Hc Ha. unfold Math.max. rewrite Ha, Hc. cbn [orb].
  destruct (is_nan b) eqn:Hb.
  - split; [split; reflexivity | vm_compute; discriminate].
  - unfold JS.lt. destruct (PrimFloat.ltb a b) eqn:Hlt.
    + split; [rewrite Hb; tauto | intros _; apply ltb_leb, Hlt].
    + split; [rewrite Ha; split; discriminate | intros _; apply leb_refl, Ha].
Qed.

Lemma max_floor_value a b :
  classify a = FloatClass.PNormal -> is_nan a = false -> is_nan b = false ->
  Math.max a b = if PrimFloat.ltb a b then b else a.
Proof.
  intros Hc Ha Hb. unfold Math.max, JS.lt. rewrite Ha, Hb, Hc. reflexivity.
Qed.

Lemma cycle_seconds_floor floor initial :
  classify floor = FloatClass.PNormal -> is_nan floor = false ->
  is_nan initial = false ->
  floor_or_nan floor (cycle_seconds floor initial).
Proof.
  intros Hc Hf Hi cycle. unfold cycle_seconds.
  destruct (max_floor floor
              match cycle with Some s => JS.StringToNumber s | None => initial end
              Hc Hf) as [Hnan Hle].
  split; [|split; [exact Hle|]].
  - rewrite Hnan. destruct cycle as [s|].
    + split; [intros H; exists s; split; [reflexivity | exact H]|].
      intros [s' [[= <-] H]]. exact H.
    + rewrite Hi. split; [discriminate | intros [s' [H _]]; discriminate].
  - intros s -> Hs. apply max_floor_value; assumption.
Qed.

(** X7.  The seconds per slide, whatever the [cycle] parameter: never
    under 8 in the dashboard and the legacy client and never under 6 in
    Aurora; NaN, which no comparison bounds, exactly when the parameter
    is given and does not read as a number; otherwise the larger of
    that floor and the number given.  Without the parameter they are
    14, 14 and 10; with an empty parameter, which reads as zero, they
    are the floor. *)
Theorem cycle_seconds_never_under_floor :
  floor_or_nan 8 DashboardPage.cycleSec
  /\ floor_or_nan 8 LegacyPage.cycleSec
  /\ floor_or_nan 6 AuroraPage.cycleSec
  /\ (DashboardPage.cycleSec None = 14%float
      /\ LegacyPage.cycleSec None = 14%float
      /\ AuroraPage.cycleSec None = 10%float)
  /\ (DashboardPage.cycleSec (Some "") = 8%float
      /\ LegacyPage.cycleSec (Some "") = 8%float
      /\ AuroraPage.cycleSec (Some "") = 6%float).
Proof.
  split; [|split; [|split; [|split]]];
    try (apply cycle_seconds_floor; vm_compute; reflexivity);
    repeat split; vm_compute; reflexivity.
Qed.

(** The seconds per slide for some [cycle] parameters: absent, above and
    under the floor, empty, not a number, infinite. *)
Example cycle_values :
  map (fun c => (JS.NumberToString (DashboardPage.cycleSec c),
                 JS.NumberToString (AuroraPage.cycleSec c)))
    [ None; Some "20"; Some "3"; Some "7.5"; Some ""; Some "abc";
      Some "12s"; Some "Infinity"; Some "-1e3" ]
  = [ ("14", "10"); ("20", "20"); ("8", "6"); ("8", "7.5"); ("8", "6");
      ("NaN", "NaN"); ("NaN", "NaN"); ("Infinity", "Infinity"); ("8", "6") ].
Proof. vm_compute. reflexivity. Qed.

Lemma jumuah_scan_cons now r rest :
  DashboardPage.scan now (r :: rest)
  = match khutbah_due now r with
    | Some m => Some {| DashboardPage.row := r; DashboardPage.mins := m |}
    | None => DashboardPage.scan now rest
    end.
Proof.
  cbn [DashboardPage.scan]. unfold khutbah_due.
  destruct (Dashboard.timeToMinutes (Some (khutbah_time r))) as [m|];
    [|reflexivity].
  destruct (JS.ge m now); reflexivity.
Qed.

Lemma jumuah_scan_some now rows nj :
  DashboardPage.scan now rows = Some nj <->
  exists before after,
    rows = (before ++ DashboardPage.row nj :: after)%list
    /\ Forall (fun r => khutbah_due now r = None) before
    /\ khutbah_due now (DashboardPage.row nj) = Some (DashboardPage.mins nj).
Proof.
  induction rows as [|r rest IH].
  - split; [discriminate|]. intros (before & after & H & _).
    destruct before; discriminate.
  - rewrite jumuah_scan_cons. destruct (khutbah_due now r) as [m|] eqn:Hr.
    + split.
      * intros [= <-]. exists [], rest. cbn. auto.
      * intros (before & after & H & Hb & Hd). destruct before as [|b before].
        -- cbn in H. injection H as H _. destruct nj as [r' m']. cbn in *.
           congruence.
        -- cbn in H. injection H as H _. inversion Hb; subst. congruence.
    + rewrite IH. split.
      * intros (before & after & H & Hb & Hd). exists (r :: before), after.
        rewrite H. cbn. auto.
      * intros (before & after & H & Hb & Hd). destruct before as [|b before].
        -- cbn in H. injection H as H _. congruence.
        -- cbn in H. injection H as _ H. inversion Hb; subst.
           exists before, after. auto.
Qed.

Lemma jumuah_scan_none now rows :
  DashboardPage.scan now rows = None <->
  Forall (fun r => khutbah_due now r = None) rows.
Proof.
  induction rows as [|r rest IH]; [split; auto|].
  rewrite jumuah_scan_cons. destruct (khutbah_due now r) as [m|] eqn:Hr.
  - split; [discriminate|]. intros H. inversion H; subst. congruence.
  - rewrite IH. split; [auto|]. intros H. inversion H; assumption.
Qed.

Lemma khutbah_due_not_nan now r m :
  khutbah_due now r = Some m -> is_nan m = false.
Proof.
  unfold khutbah_due.
  destruct (Dashboard.timeToMinutes (Some (khutbah_time r))) as [m'|] eqn:E;
    [|discriminate].
  destruct (JS.ge m' now); [|discriminate]. intros [= <-].
  apply (dashboard_minutes_not_nan (khutbah_time r)). exact E.
Qed.

(** X8.  The next Jumu'ah of the dashboard is the first row, in the
    order of the list, whose khutbah time reads as minutes that are not
    before the current minute of the day; rows whose time cannot be read
    are passed over; there is none exactly when no row is due; and its
    minutes are never NaN. *)
Theorem next_jumuah_is_first_due :
  forall (P : Platform) (rows : list JumuahRow) (tz : option string)
         (c : Clock),
    Dashboard.nowInTimeZone P tz = Returns c ->
    (forall nj,
        DashboardPage.computeNextJumuah P rows tz = Returns (Some nj)
        <-> exists before after,
              rows = (before ++ DashboardPage.row nj :: after)%list
              /\ Forall (fun r => khutbah_due (minutes_of c) r = None) before
              /\ khutbah_due (minutes_of c) (DashboardPage.row nj)
                 = Some (DashboardPage.mins nj))
    /\ (DashboardPage.computeNextJumuah P rows tz = Returns None
        <-> Forall (fun r => khutbah_due (minutes_of c) r = None) rows)
    /\ (forall nj,
           DashboardPage.computeNextJumuah P rows tz = Returns (Some nj) ->
           is_nan (DashboardPage.mins nj) = false).
Proof.
  intros P rows tz c Hc. unfold DashboardPage.computeNextJumuah.
  rewrite Hc. cbn [bind]. split; [|split].
  - intros nj. rewrite <- jumuah_scan_some. split; congruence.
  - rewrite <- jumuah_scan_none. split; congruence.
  - intros nj H. assert (Hs : DashboardPage.scan (minutes_of c) rows = Some nj)
      by congruence.
    apply jumuah_scan_some in Hs. destruct Hs as (_ & _ & _ & _ & Hd).
    apply (khutbah_due_not_nan _ _ _ Hd).
Qed.

Lemma next_jumuah_is_first_due_witness :
  DashboardPage.computeNextJumuah (sample_platform "13" "00") sample_jumuah None
  = Returns (Some {| DashboardPage.row := jumuah_row 3 "13:30:00"
                       (Some "2026-10-25") (Some "2027-03-27");
                     DashboardPage.mins := 810 |}).
Proof.
  apply (proj1 (next_jumuah_is_first_due (sample_platform "13" "00")
                  sample_jumuah None
                  {| year := 2026; month := 11; day := 2; hour := 13;
                     minute := 0; second := 0; weekday := "Mon";
                     timeZone := "Europe/Rome" |} ltac:(vm_compute; reflexivity))).
  exists [ jumuah_row 1 "12:30:00" None None;
           jumuah_row 2 "tbc" (Some "2026-10-01") None ], [].
  split; [reflexivity | split].
  - constructor; [vm_compute; reflexivity|].
    constructor; [vm_compute; reflexivity | constructor].
  - vm_compute. reflexivity.
Defined.

Lemma clamp_small d :
  -1440 < d < 1440 -> DashboardPage.clamp (small d) = small (Z.max 0 d).
Proof.
  intros Hd. apply Leibniz.eqb_spec.
  by_range
    (fun d => Leibniz.eqb (DashboardPage.clamp (small d)) (small (Z.max 0 d)))
    (-1439) 1440.
Qed.

(** X9.  The Jumu'ah countdown of the dashboard is shown on Fridays
    only and only with a next Jumu'ah; otherwise it is null, and the
    clock is not read.  For a khutbah at [a] whole minutes of the day
    and a clock showing [h:mi] it is the text of the minutes left, and
    of zero minutes once the khutbah is past: unlike the prayer
    countdown it never wraps to the next day. *)
Theorem jumuah_countdown_clamps :
  forall (P : Platform) (tz : option string) (nj : DashboardPage.NextJumuah),
    DashboardPage.jumuahCountdown P false (Some nj) tz = Returns None
    /\ (forall isFriday,
           DashboardPage.jumuahCountdown P isFriday None tz = Returns None)
    /\ (forall c a h mi,
           Dashboard.nowInTimeZone P tz = Returns c ->
           hour c = JS.of_Z h -> minute c = JS.of_Z mi ->
           DashboardPage.mins nj = JS.of_Z a ->
           0 <= h < 24 -> 0 <= mi < 60 -> 0 <= a < 1440 ->
           DashboardPage.jumuahCountdown P true (Some nj) tz
           = Returns (Some (countdown_spec (Z.max 0 (a - (h * 60 + mi)))))).
Proof.
  intros P tz nj. split; [reflexivity | split; [reflexivity|]].
  intros c a h mi Hc Hh Hmi Ha Bh Bmi Ba.
  unfold DashboardPage.jumuahCountdown. cbn [negb]. rewrite Hc. cbn [bind].
  unfold minutes_of. rewrite Hh, Hmi, Ha.
  rewrite !of_Z_small by lia.
  rewrite minutes_small by lia.
  rewrite sub_small by lia.
  rewrite clamp_small by lia.
  rewrite countdown_text_small by lia. reflexivity.
Qed.

Lemma jumuah_countdown_clamps_witness :
  DashboardPage.jumuahCountdown (sample_platform "13" "45") true
    (Some {| DashboardPage.row := jumuah_row 3 "13:30:00" None None;
             DashboardPage.mins := JS.of_Z 810 |}) None
  = Returns (Some (countdown_spec (Z.max 0 (810 - (13 * 60 + 45)))))
  /\ countdown_spec (Z.max 0 (810 - (13 * 60 + 45))) = "0 min".
Proof.
  split.
  - apply (proj2 (proj2 (jumuah_countdown_clamps (sample_platform "13" "45") None
                    {| DashboardPage.row := jumuah_row 3 "13:30:00" None None;
                       DashboardPage.mins := JS.of_Z 810 |}))
             {| year := 2026; month := 11; day := 2; hour := 13; minute := 45;
                second := 0; weekday := "Mon"; timeZone := "Europe/Rome" |}
             810 13 45);
      solve [vm_compute; reflexivity | lia].
  - vm_compute. reflexivity.
Defined.

Lemma number_text_small y :
  0 <= y < 10000 -> JS.NumberToString (JS.of_Z y) = JS.digits y.
Proof.
  intros Hy. apply String.eqb_eq.
  by_range (fun y => String.eqb (JS.NumberToString (JS.of_Z y)) (JS.digits y))
    0 10000.
Qed.

Lemma digits_of_year y :
  1000 <= y < 10000 ->
  JS.digits y
  = JS.str [ digit_char (y / 1000); digit_char (y / 100 mod 10);
             digit_char (y / 10 mod 10); digit_char (y mod 10) ].
Proof.
  intros Hy. apply String.eqb_eq.
  by_range
    (fun y => String.eqb (JS.digits y)
                (JS.str [ digit_char (y / 1000); digit_char (y / 100 mod 10);
                          digit_char (y / 10 mod 10); digit_char (y mod 10) ]))
    1000 10000.
Qed.

Lemma two_digits m :
  0 <= m < 100 ->
  JS.padStart2 (JS.digits m)
  = JS.str [ digit_char (m / 10); digit_char (m mod 10) ].
Proof.
  intros Hm. apply String.eqb_eq.
  by_range
    (fun m => String.eqb (JS.padStart2 (JS.digits m))
                (JS.str [ digit_char (m / 10); digit_char (m mod 10) ]))
    0 100.
Qed.

Lemma digit_char_compare a b :
  0 <= a < 10 -> 0 <= b < 10 ->
  Ascii.compare (digit_char a) (digit_char b) = Z.compare a b.
Proof.
  intros Ha Hb.
  assert (H : same_comparison (Ascii.compare (digit_char a) (digit_char b))
                (Z.compare a b) = true).
  { apply (forallb_range
             (fun b => same_comparison
                         (Ascii.compare (digit_char a) (digit_char b))
                         (Z.compare a b)) 0 10); [|lia].
    by_range
      (fun a => forallb
         (fun b => same_comparison
                     (Ascii.compare (digit_char a) (digit_char b))
                     (Z.compare a b)) (range 0 10)) 0 10. }
  destruct (Ascii.compare (digit_char a) (digit_char b)), (Z.compare a b);
    solve [reflexivity | discriminate].
Qed.

Lemma iso_date_chars d :
  calendar d ->
  iso_date d
  = (let '(y, m, dd) := d in
     JS.str [ digit_char (y / 1000); digit_char (y / 100 mod 10);
              digit_char (y / 10 mod 10); digit_char (y mod 10); "-"%char;
              digit_char (m / 10); digit_char (m mod 10); "-"%char;
              digit_char (dd / 10); digit_char (dd mod 10) ]).
Proof.
  destruct d as [[y m] dd]. intros (Hy & Hm & Hd). unfold iso_date.
  rewrite digits_of_year by lia. rewrite !two_digits by lia. reflexivity.
Qed.

Lemma four_digits y :
  1000 <= y < 10000 ->
  exists a b c d,
    (0 <= a < 10 /\ 0 <= b < 10 /\ 0 <= c < 10 /\ 0 <= d < 10)
    /\ y = 1000 * a + 100 * b + 10 * c + d
    /\ y / 1000 = a /\ y / 100 mod 10 = b /\ y / 10 mod 10 = c
    /\ y mod 10 = d.
Proof.
  intros Hy. exists (y / 1000), (y / 100 mod 10), (y / 10 mod 10), (y mod 10).
  repeat split; try reflexivity; Z.to_euclidean_division_equations; lia.
Qed.

Lemma two_digit_parts m :
  0 <= m < 100 ->
  exists a b,
    (0 <= a < 10 /\ 0 <= b < 10) /\ m = 10 * a + b
    /\ m / 10 = a /\ m mod 10 = b.
Proof.
  intros Hm. exists (m / 10), (m mod 10).
  repeat split; try reflexivity; Z.to_euclidean_division_equations; lia.
Qed.

Ltac digit_compare :=
  match goal with
  | |- context [Ascii.compare (digit_char ?a) (digit_char ?b)] =>
      rewrite (digit_char_compare a b) by lia;
      destruct (Z.compare_spec a b)
  end.

Ltac year_parts y :=
  let E := fresh "E" in
  let B := fresh "B" in
  destruct (four_digits y ltac:(lia)) as (? & ? & ? & ? & B & E & -> & -> & -> & ->).

Ltac small_parts m :=
  let E := fresh "E" in
  let B := fresh "B" in
  destruct (two_digit_parts m ltac:(lia)) as (? & ? & B & E & -> & ->).

Lemma iso_date_le a b :
  calendar a -> calendar b ->
  string_le (iso_date a) (iso_date b) = date_le a b.
Proof.
  intros Ha Hb. rewrite (iso_date_chars a Ha), (iso_date_chars b Hb).
  destruct a as [[y1 m1] d1], b as [[y2 m2] d2].
  destruct Ha as (Hy1 & Hm1 & Hd1), Hb as (Hy2 & Hm2 & Hd2).
  unfold string_le, JS.str. cbn [string_of_list_ascii String.compare].
  change (Ascii.compare "-" "-") with Eq. cbv iota.
  unfold date_le.
  year_parts y1. year_parts y2. small_parts m1. small_parts m2.
  small_parts d1. small_parts d2.
  repeat digit_compare;
    destruct (Z.ltb_spec y1 y2), (Z.eqb_spec y1 y2), (Z.ltb_spec m1 m2),
      (Z.eqb_spec m1 m2), (Z.leb_spec d1 d2); cbn [orb andb];
      solve [reflexivity | exfalso; lia].
Qed.

Lemma ymd_of_calendar c today :
  shows c today -> calendar today -> ymd_of c = iso_date today.
Proof.
  destruct today as [[y m] d]. intros (Hy & Hm & Hd) (By & Bm & Bd).
  unfold ymd_of, two, iso_date. rewrite Hy, Hm, Hd.
  rewrite !number_text_small by lia. reflexivity.
Qed.

Lemma iso_date_present d : calendar d -> absent (Some (iso_date d)) = false.
Proof.
  intros H. rewrite (iso_date_chars d H). destruct d as [[y m] dd]. reflexivity.
Qed.

Lemma in_date_range_within r today ymd from to :
  ymd = iso_date today -> calendar today ->
  calendar_bound from -> calendar_bound to ->
  valid_from r = option_map iso_date from ->
  valid_to r = option_map iso_date to ->
  in_date_range r ymd = within from today to.
Proof.
  intros -> Ht Hf Hto Hfrom Hto'. unfold in_date_range, within.
  rewrite Hfrom, Hto'. f_equal.
  - destruct from as [f|]; [|reflexivity]. cbn [option_map].
    rewrite (iso_date_present f Hf). cbn [orb]. apply iso_date_le; assumption.
  - destruct to as [t|]; [|reflexivity]. cbn [option_map].
    rewrite (iso_date_present t Hto). cbn [orb]. apply iso_date_le; assumption.
Qed.

(** X10.  Date keys compare as dates.  For a clock that shows a
    calendar date with a four-digit year, the key of the day is the ISO
    form of that date; and a Jumu'ah row whose bounds are ISO dates is
    kept by the date filter of the dashboard and of Aurora exactly when
    the day is, chronologically, not before [valid_from] and not after
    [valid_to], a bound that is absent not counting. *)
Theorem date_range_is_chronological :
  forall (c : Clock) (r : JumuahRow) (today : Z * Z * Z)
         (from to : option (Z * Z * Z)),
    shows c today -> calendar today ->
    calendar_bound from -> calendar_bound to ->
    valid_from r = option_map iso_date from ->
    valid_to r = option_map iso_date to ->
    Dashboard.ymdFromClock c = iso_date today
    /\ Aurora.ymd c = iso_date today
    /\ (forall rows,
           In r (DashboardPage.filterActiveByDate rows (Dashboard.ymdFromClock c))
           <-> In r rows /\ within from today to = true)
    /\ (forall rows,
           In r (AuroraPage.active rows (Aurora.ymd c))
           <-> In r rows /\ within from today to = true).
Proof.
  intros c r today from to Hc Ht Hf Hto Hfrom Hto'.
  pose proof (ymd_of_calendar c today Hc Ht) as Hymd.
  split; [exact Hymd | split; [exact Hymd|]].
  split; intros rows;
    unfold DashboardPage.filterActiveByDate, AuroraPage.active,
      Dashboard.ymdFromClock, Aurora.ymd;
    rewrite filter_In; cbv beta;
    rewrite (in_date_range_within r today _ from to Hymd Ht Hf Hto Hfrom Hto');
    reflexivity.
Qed.

Lemma date_range_is_chronological_witness :
  In (jumuah_row 3 "13:30:00" (Some "2026-10-25") (Some "2027-03-27"))
    (DashboardPage.filterActiveByDate sample_jumuah
       (Dashboard.ymdFromClock
          {| year := 2026; month := 11; day := 2; hour := 13; minute := 0;
             second := 0; weekday := "Mon"; timeZone := "Europe/Rome" |})).
Proof.
  apply (proj1 (proj2 (proj2
           (date_range_is_chronological
              {| year := 2026; month := 11; day := 2; hour := 13; minute := 0;
                 second := 0; weekday := "Mon"; timeZone := "Europe/Rome" |}
              (jumuah_row 3 "13:30:00" (Some "2026-10-25") (Some "2027-03-27"))
              (2026, 11, 2) (Some (2026, 10, 25)) (Some (2027, 3, 27))
              ltac:(vm_compute; repeat split; reflexivity)
              ltac:(cbn; lia) ltac:(cbn; lia) ltac:(cbn; lia)
              ltac:(vm_compute; reflexivity) ltac:(vm_compute; reflexivity))))
           sample_jumuah).
  split; [right; right; left; reflexivity | vm_compute; reflexivity].
Defined.

Section SlideFacts.

Import AuroraPage.

Lemma shown_count_none j l :
  Forall (fun s => s <> announcement) l ->
  List.length (filter (fun s => SlideType_eqb s announcement) (firstn j l)) = 0%nat.
Proof.
  intros H. revert j. induction H as [|s l Hs Hl IH]; intros [|j];
    try reflexivity.
  cbn [firstn filter]. destruct s; try contradiction; cbn; apply IH.
Qed.

Lemma shown_count_mid {A : Type} (anns : list A) post j :
  Forall (fun s => s <> announcement) post ->
  List.length
    (filter (fun s => SlideType_eqb s announcement)
       (firstn j (map (fun _ => announcement) anns ++ post)%list))
  = Nat.min j (List.length anns).
Proof.
  intros Hpost. revert j. induction anns as [|a anns IH]; intros j.
  - cbn [map app List.length]. rewrite Nat.min_0_r.
    apply shown_count_none, Hpost.
  - destruct j as [|j]; [reflexivity|].
    cbn [map app firstn filter SlideType_eqb List.length]. rewrite IH.
    reflexivity.
Qed.

Lemma shown_count {A : Type} pre (anns : list A) post j :
  Forall (fun s => s <> announcement) pre ->
  Forall (fun s => s <> announcement) post ->
  List.length
    (filter (fun s => SlideType_eqb s announcement)
       (firstn j (pre ++ map (fun _ => announcement) anns ++ post)%list))
  = Nat.min (j - List.length pre) (List.length anns).
Proof.
  intros Hpre Hpost. revert j. induction Hpre as [|s pre Hs Hp IH]; intros j.
  - cbn [app List.length]. rewrite Nat.sub_0_r. apply shown_count_mid, Hpost.
  - destruct j as [|j]; [reflexivity|].
    cbn [app firstn filter List.length Nat.sub].
    destruct s; try contradiction; cbn; apply IH.
Qed.

Lemma announcement_positions {A : Type} pre (anns : list A) post i :
  Forall (fun s => s <> announcement) pre ->
  Forall (fun s => s <> announcement) post ->
  nth_error (pre ++ map (fun _ => announcement) anns ++ post)%list i
  = Some announcement
  <-> (List.length pre <= i < List.length pre + List.length anns)%nat.
Proof.
  intros Hpre Hpost. rewrite Forall_forall in Hpre, Hpost. split.
  - intros H. destruct (Nat.lt_ge_cases i (List.length pre)) as [Hlt|Hge].
    + rewrite nth_error_app1 in H by exact Hlt.
      apply nth_error_In in H. apply Hpre in H. contradiction.
    + rewrite nth_error_app2 in H by exact Hge. split; [exact Hge|].
      destruct (Nat.lt_ge_cases (i - List.length pre) (List.length anns))
        as [Hlt|Hge2]; [lia|].
      rewrite nth_error_app2 in H by (rewrite List.length_map; exact Hge2).
      apply nth_error_In in H. apply Hpost in H. contradiction.
  - intros [Hge Hlt]. rewrite nth_error_app2 by exact Hge.
    rewrite nth_error_app1 by (rewrite List.length_map; lia).
    rewrite nth_error_map.
    destruct (nth_error anns (i - List.length pre)) eqn:E; [reflexivity|].
    apply nth_error_None in E. lia.
Qed.

End SlideFacts.

(** X11.  The slides of Aurora.  The announcement slides are a block
    that follows the three to five opening slides, one slide for each
    announcement; the slide at the [k]-th place of the block shows the
    [k]-th announcement, so that an announcement slide never finds its
    announcement undefined; the list is never empty, and the rotation
    keeps the current slide within it and returns to the first slide
    after the last. *)
Theorem announcement_slides_follow_announcements :
  forall (A W H : Type) (P : Platform) (prayerRows : list PrayerRow)
         (tz : option string) (isFriday : bool) (jumuahSlots : list JumuahRow)
         (anns : list A) (w : option W) (h : option H)
         (sl : list AuroraPage.SlideType),
    AuroraPage.slides A W H P prayerRows tz isFriday jumuahSlots anns w h
    = Returns sl ->
    exists base,
      (3 <= base <= 5)%nat
      /\ (forall i,
             nth_error sl i = Some AuroraPage.announcement
             <-> (base <= i < base + List.length anns)%nat)
      /\ (forall k,
             (k < List.length anns)%nat ->
             AuroraPage.shown_announcement A anns sl (base + k)
             = nth_error anns k
             /\ nth_error anns k <> None)
      /\ (4 <= List.length sl)%nat
      /\ (forall prev,
             (prev < List.length sl)%nat ->
             (AuroraPage.rotate (List.length sl) prev < List.length sl)%nat)
      /\ AuroraPage.rotate (List.length sl) (List.length sl - 1) = 0%nat.
Proof.
  intros A W H P prayerRows tz isFriday jumuahSlots anns w h sl.
  unfold AuroraPage.slides.
  destruct (Aurora.getNextPrayer P prayerRows tz) as [next|]; [|discriminate].
  cbn [bind]. intros [= <-].
  set (pre := ([AuroraPage.welcome; AuroraPage.clock; AuroraPage.prayers]
               ++ match next with
                  | Some _ => [AuroraPage.next_prayer]
                  | None => []
                  end
               ++ (if isFriday && (0 <? List.length jumuahSlots)%nat
                   then [AuroraPage.jumuah] else []))%list).
  set (post := (match w with Some _ => [AuroraPage.weather] | None => [] end
                ++ match h with Some _ => [AuroraPage.hadith] | None => [] end
                ++ [AuroraPage.qr])%list).
  match goal with
  | |- context [nth_error ?l _ = Some AuroraPage.announcement] =>
      replace l with (pre ++ map (fun _ => AuroraPage.announcement) anns ++ post)%list
        by (subst pre post; cbn [app]; rewrite <- !app_assoc; reflexivity)
  end.
  assert (Hpre : Forall (fun s => s <> AuroraPage.announcement) pre).
  { subst pre. destruct next, (isFriday && (0 <? List.length jumuahSlots)%nat);
      repeat constructor; discriminate. }
  assert (Hpost : Forall (fun s => s <> AuroraPage.announcement) post).
  { subst post. destruct w, h; repeat constructor; discriminate. }
  assert (Bpre : (3 <= List.length pre <= 5)%nat).
  { subst pre. destruct next, (isFriday && (0 <? List.length jumuahSlots)%nat);
      cbn; lia. }
  assert (Bpost : (1 <= List.length post)%nat).
  { subst post. destruct w, h; cbn; lia. }
  clearbody pre post.
  exists (List.length pre). split; [exact Bpre|]. split; [|split; [|split]].
  - intros i. apply announcement_positions; assumption.
  - intros k Hk. split; [|apply nth_error_Some, Hk].
    unfold AuroraPage.shown_announcement, AuroraPage.announcementIndex.
    rewrite shown_count by assumption.
    replace (Nat.min (List.length pre + k + 1 - List.length pre)
               (List.length anns)) with (S k) by lia.
    destruct (Z.ltb_spec (Z.of_nat (S k) - 1) 0) as [Hneg|_]; [lia|].
    f_equal. lia.
  - rewrite !List.length_app, List.length_map. lia.
  - assert (Hlen : (0 < List.length
                         (pre ++ map (fun _ => AuroraPage.announcement) anns
                          ++ post)%list)%nat)
      by (rewrite !List.length_app; lia).
    unfold AuroraPage.rotate. split.
    + intros prev _. apply Nat.mod_upper_bound. lia.
    + replace (List.length (pre ++ map (fun _ => AuroraPage.announcement) anns
                            ++ post)%list - 1 + 1)%nat
        with (List.length (pre ++ map (fun _ => AuroraPage.announcement) anns
                           ++ post)%list) by lia.
      apply Nat.Div0.mod_same.
Qed.

Lemma announcement_slides_follow_announcements_witness :
  exists base,
    (3 <= base <= 5)%nat
    /\ (forall i,
           nth_error
             [ AuroraPage.welcome; AuroraPage.clock; AuroraPage.prayers;
               AuroraPage.next_prayer; AuroraPage.announcement;
               AuroraPage.announcement; AuroraPage.hadith; AuroraPage.qr ] i
           = Some AuroraPage.announcement
           <-> (base <= i < base + List.length ["Eid"; "Class"])%nat)
    /\ (forall k,
           (k < List.length ["Eid"; "Class"])%nat ->
           AuroraPage.shown_announcement string ["Eid"; "Class"]
             [ AuroraPage.welcome; AuroraPage.clock; AuroraPage.prayers;
               AuroraPage.next_prayer; AuroraPage.announcement;
               AuroraPage.announcement; AuroraPage.hadith; AuroraPage.qr ]
             (base + k)
           = nth_error ["Eid"; "Class"] k
           /\ nth_error ["Eid"; "Class"] k <> None)
    /\ (4 <= 8)%nat
    /\ (forall prev,
           (prev < 8)%nat -> (AuroraPage.rotate 8 prev < 8)%nat)
    /\ AuroraPage.rotate 8 (8 - 1) = 0%nat.
Proof.
  apply (announcement_slides_follow_announcements string unit unit
           (sample_platform "14" "00") sample_rows None true []
           ["Eid"; "Class"] None (Some tt)).
  vm_compute. reflexivity.
Defined.

(* ===================================================================== *)
(** * The first display: properties *)
(* ===================================================================== *)

Lemma drop_space_split l :
  exists sp, l = (sp ++ JS.drop_space l)%list
             /\ Forall (fun c => JS.is_space c = true) sp.
Proof.
  induction l as [|c l (sp & E & H)]; [exists []; split; [reflexivity|constructor]|].
  cbn [JS.drop_space]. destruct (JS.is_space c) eqn:Ec.
  - exists (c :: sp). split; [cbn; congruence | constructor; assumption].
  - exists []. split; [reflexivity | constructor].
Qed.

Lemma drop_space_head l c rest :
  JS.drop_space l = c :: rest -> JS.is_space c = false.
Proof.
  induction l as [|a l IH]; [discriminate|]. cbn [JS.drop_space].
  destruct (JS.is_space a) eqn:Ea; [exact IH|]. intros [= <- _]. exact Ea.
Qed.

Lemma drop_space_fixed l :
  match l with c :: _ => JS.is_space c = false | [] => True end ->
  JS.drop_space l = l.
Proof. destruct l as [|c l]; [reflexivity|]. cbn. intros ->. reflexivity. Qed.

Lemma drop_space_idem l : JS.drop_space (JS.drop_space l) = JS.drop_space l.
Proof.
  apply drop_space_fixed. destruct (JS.drop_space l) eqn:E; [exact I|].
  apply (drop_space_head _ _ _ E).
Qed.

(** A trimmed text starts and ends with no space. *)
Lemma trim_chars_ends l :
  JS.drop_space (JS.trim_chars l) = JS.trim_chars l
  /\ JS.drop_space (rev (JS.trim_chars l)) = rev (JS.trim_chars l).
Proof.
  unfold JS.trim_chars. rewrite rev_involutive. split; [|apply drop_space_idem].
  destruct (drop_space_split (rev (JS.drop_space l))) as (sp & E & _).
  apply (f_equal (@rev ascii)) in E. rewrite rev_involutive, rev_app_distr in E.
  apply drop_space_fixed.
  destruct (rev (JS.drop_space (rev (JS.drop_space l)))) as [|c t] eqn:Et;
    [exact I|].
  cbn [app] in E. apply (drop_space_head _ _ _ E).
Qed.

Lemma trim_chars_idem l : JS.trim_chars (JS.trim_chars l) = JS.trim_chars l.
Proof.
  destruct (trim_chars_ends l) as [H1 H2].
  unfold JS.trim_chars at 1. rewrite H1, H2. apply rev_involutive.
Qed.

Lemma trim_idem s : JS.trim (JS.trim s) = JS.trim s.
Proof.
  unfold JS.trim. rewrite chars_str, trim_chars_idem. reflexivity.
Qed.

Lemma length_zero_empty s : String.length s = 0%nat <-> s = "".
Proof. destruct s; cbn; split; congruence. Qed.

(** X12.  A query parameter of the first display is never an empty or
    a padded text: what [getParam] returns is the value trimmed, it is
    not empty, it starts and ends with no space and trimming it again
    changes nothing; and it returns null exactly when there is no
    window, no such parameter, or a value that is blank. *)
Theorem get_param_is_trimmed :
  forall (window : option (string -> option string)) (name : string),
    (forall s,
        TvHome.getParam window name = Some s ->
        (exists get v,
            window = Some get /\ get name = Some v /\ s = JS.trim v)
        /\ s <> ""
        /\ JS.trim s = s
        /\ JS.drop_space (JS.chars s) = JS.chars s
        /\ JS.drop_space (rev (JS.chars s)) = rev (JS.chars s))
    /\ (TvHome.getParam window name = None
        <-> window = None
            \/ exists get,
                 window = Some get
                 /\ (get name = None
                     \/ exists v, get name = Some v /\ JS.trim v = "")).
Proof.
  intros window name. unfold TvHome.getParam. split.
  - intros s. destruct window as [get|]; [|discriminate].
    destruct (get name) as [v|] eqn:Ev; [|discriminate].
    destruct (negb (String.eqb v "")); cbn [andb]; [|discriminate].
    destruct (Nat.ltb_spec 0 (String.length (JS.trim v))) as [Hlen|];
      [|discriminate].
    intros [= <-]. split; [exists get, v; auto|].
    split; [intros E; rewrite E in Hlen; cbn in Hlen; lia|].
    split; [apply trim_idem|]. unfold JS.trim. rewrite chars_str.
    apply trim_chars_ends.
  - destruct window as [get|]; [|split; auto].
    destruct (get name) as [v|] eqn:Ev.
    + destruct (String.eqb_spec v "") as [->|Hv]; cbn [negb andb].
      * split; [|reflexivity]. intros _. right. exists get.
        split; [reflexivity|]. right. exists "". rewrite Ev. auto.
      * destruct (Nat.ltb_spec 0 (String.length (JS.trim v))) as [Hlen|Hlen].
        -- split; [discriminate|]. intros [H|(get' & [= <-] & [H|(v' & H & E)])];
             try congruence.
           rewrite Ev in H. injection H as <-. rewrite E in Hlen. cbn in Hlen. lia.
        -- split; [|reflexivity]. intros _. right. exists get.
           split; [reflexivity|]. right. exists v. split; [exact Ev|].
           apply length_zero_empty. lia.
    + split; [|reflexivity]. intros _. right. exists get. rewrite Ev. auto.
Qed.

Lemma get_param_is_trimmed_witness :
  (exists get v,
      Some (fun k => if String.eqb k "slug" then Some "  bolzano " else None)
      = Some get
      /\ get "slug" = Some v /\ "bolzano" = JS.trim v)
  /\ "bolzano" <> ""
  /\ JS.trim "bolzano" = "bolzano"
  /\ JS.drop_space (JS.chars "bolzano") = JS.chars "bolzano"
  /\ JS.drop_space (rev (JS.chars "bolzano")) = rev (JS.chars "bolzano").
Proof.
  apply (proj1 (get_param_is_trimmed
                  (Some (fun k => if String.eqb k "slug" then Some "  bolzano "
                                  else None)) "slug") "bolzano").
  vm_compute. reflexivity.
Defined.

Lemma PrayerKey_eqb_sym a b : PrayerKey_eqb a b = PrayerKey_eqb b a.
Proof. destruct a, b; reflexivity. Qed.

Lemma prayers_fold_snoc rows r map k :
  fold_left (fun map r => TvHome.set_row map (TvHome.prayer r) r)
    (rows ++ [r])%list map k
  = if PrayerKey_eqb (TvHome.prayer r) k then Some r
    else fold_left (fun map r => TvHome.set_row map (TvHome.prayer r) r)
           rows map k.
Proof.
  rewrite fold_left_app. cbn [fold_left]. unfold TvHome.set_row at 1.
  rewrite PrayerKey_eqb_sym. reflexivity.
Qed.

(** X13.  The first display keeps, for each prayer, the last of the
    rows it was sent for it (the other clients read the first), and
    null for a prayer without a row or when no rows were sent. *)
Theorem prayers_map_last_row_wins :
  forall (rows : list TvHome.PrayerRow) (k : PrayerKey),
    TvHome.prayers_of (Some rows) k
    = find (fun r => PrayerKey_eqb (TvHome.prayer r) k) (rev rows)
    /\ (TvHome.prayers_of (Some rows) k = None
        <-> forall r, In r rows -> TvHome.prayer r <> k)
    /\ TvHome.prayers_of None k = None.
Proof.
  intros rows k.
  assert (Hfind : TvHome.prayers_of (Some rows) k
                  = find (fun r => PrayerKey_eqb (TvHome.prayer r) k) (rev rows)).
  { unfold TvHome.prayers_of. induction rows as [|r rows IH] using rev_ind;
      [reflexivity|].
    rewrite prayers_fold_snoc, rev_app_distr. cbn [rev app find].
    destruct (PrayerKey_eqb (TvHome.prayer r) k); [reflexivity | exact IH]. }
  split; [exact Hfind | split; [|reflexivity]]. rewrite Hfind. split.
  - intros Hnone r Hin E.
    pose proof (find_none _ _ Hnone r (proj1 (in_rev rows r) Hin)) as Hk.
    cbv beta in Hk. rewrite E in Hk. destruct k; discriminate.
  - intros Hall.
    destruct (find (fun r => PrayerKey_eqb (TvHome.prayer r) k) (rev rows))
      as [r|] eqn:E; [|reflexivity].
    apply find_some in E. destruct E as [Hin Hk]. exfalso.
    apply (Hall r); [apply in_rev; exact Hin|].
    destruct (TvHome.prayer r), k; solve [reflexivity | discriminate].
Qed.



(** The rotation setting after some presses. *)
Example slide_seconds_values :
  map (fun presses => JS.NumberToString (TvHome.slideSeconds presses))
    [ []; [TvHome.Minus]; [TvHome.Minus; TvHome.Minus; TvHome.Minus; TvHome.Minus];
      [TvHome.Plus]; repeat TvHome.Plus 12 ]
  = [ "10"; "8"; "4"; "12"; "30" ].
Proof. vm_compute. reflexivity. Qed.

(* ===================================================================== *)
(** * Remote data proxies: failures and bounds *)
(* ===================================================================== *)

Lemma fetch_loop_all_refused U urls :
  forall lastErr,
    (forall url, In url urls -> refuses U url) ->
    Hadith.fetch_loop U urls lastErr
    = (inr (match error_after U urls lastErr with
            | Some e => e
            | None => "Hadith fetch failed"
            end), urls).
Proof.
  induction urls as [|url urls IH]; intros lastErr Hall; [reflexivity|].
  cbn [Hadith.fetch_loop]. unfold error_after. cbn [fold_left].
  fold (error_after U urls (Some (refusal U url))).
  pose proof (Hall url (or_introl eq_refl)) as Hurl.
  assert (Hrest : forall u, In u urls -> refuses U u)
    by (intros u Hu; apply Hall; right; exact Hu).
  unfold refuses in Hurl. unfold refusal at 1.
  destruct (Hadith.fetch U url) as [r|].
  - rewrite Hurl. cbn [negb]. rewrite (IH _ Hrest). reflexivity.
  - rewrite (IH _ Hrest). reflexivity.
Qed.

Lemma error_after_last U urls url lastErr :
  error_after U (urls ++ [url])%list lastErr = Some (refusal U url).
Proof. unfold error_after. rewrite fold_left_app. reflexivity. Qed.

Lemma error_after_nonempty U urls lastErr :
  urls <> [] ->
  error_after U urls lastErr = Some (refusal U (List.last urls "")).
Proof.
  intros Hne. destruct (exists_last Hne) as (l & url & ->).
  rewrite error_after_last, last_last. reflexivity.
Qed.

Lemma attempts_all_refused U edition candidates :
  forall last,
    (forall url, refuses U url) ->
    Hadith.attempts U edition candidates last
    = ({| code := 502;
          payload :=
            JS.VObject
              [ ("error", JS.VString "Hadith fetch failed");
                ("detail",
                 JS.VString
                   match
                     fold_left
                       (fun _ g =>
                          Some (refusal U
                                  (List.last (Hadith.urls_of edition g) "")))
                       candidates last
                   with
                   | Some m => m
                   | None => ""
                   end) ];
          cache_control := None |},
       List.concat (map (Hadith.urls_of edition) candidates)).
Proof.
  induction candidates as [|g rest IH]; intros last Hall; [reflexivity|].
  cbn [Hadith.attempts map List.concat fold_left].
  unfold Hadith.fetchJsonWithFallback.
  rewrite (fetch_loop_all_refused U _ None (fun url _ => Hall url)).
  rewrite (error_after_nonempty U _ None (urls_of_not_nil edition g)).
  rewrite (IH _ Hall). reflexivity.
Qed.

(** X15.  When the mirrors refuse every URL (the request fails or the
    reply is not ok), the hadith proxy has requested the four URLs of
    each of its five candidates, twenty in all and in order, and answers
    502 with the error "Hadith fetch failed" and, as detail, the message
    for the last URL of the last candidate; nothing is cached. *)
Theorem hadith_all_mirrors_refuse :
  forall (sp : string -> option string) (today : string) (U : Hadith.Upstream),
    (forall url, refuses U url) ->
    let edition := Hadith.edition_of sp in
    let candidates :=
      Hadith.guesses
        (Hadith.hashToInt (edition ++ ":" ++ Hadith.seed_of sp today)) in
    Hadith.GET sp today U
    = ({| code := 502;
          payload :=
            JS.VObject
              [ ("error", JS.VString "Hadith fetch failed");
                ("detail",
                 JS.VString
                   (refusal U
                      (List.last
                         (Hadith.urls_of edition (List.last candidates 0))
                         ""))) ];
          cache_control := None |},
       List.concat (map (Hadith.urls_of edition) candidates))
    /\ List.length (snd (Hadith.GET sp today U)) = 20%nat.
Proof.
  intros sp today U Hall edition candidates.
  unfold Hadith.GET. fold edition.
  rewrite (attempts_all_refused U edition _ None Hall).
  split; reflexivity.
Qed.

Lemma hadith_all_mirrors_refuse_witness :
  Hadith.GET hadith_query_a "2026-11-02" mirrors_404
  = ({| code := 502;
        payload :=
          JS.VObject
            [ ("error", JS.VString "Hadith fetch failed");
              ("detail",
               JS.VString
                 (refusal mirrors_404
                    (List.last
                       (Hadith.urls_of (Hadith.edition_of hadith_query_a)
                          (List.last
                             (Hadith.guesses
                                (Hadith.hashToInt
                                   (Hadith.edition_of hadith_query_a ++ ":"
                                    ++ Hadith.seed_of hadith_query_a
                                         "2026-11-02"))) 0))
                       ""))) ];
        cache_control := None |},
     List.concat
       (map (Hadith.urls_of (Hadith.edition_of hadith_query_a))
          (Hadith.guesses
             (Hadith.hashToInt
                (Hadith.edition_of hadith_query_a ++ ":"
                 ++ Hadith.seed_of hadith_query_a "2026-11-02")))))
  /\ refusal mirrors_404
       (List.last
          (Hadith.urls_of (Hadith.edition_of hadith_query_a)
             (List.last
                (Hadith.guesses
                   (Hadith.hashToInt
                      (Hadith.edition_of hadith_query_a ++ ":"
                       ++ Hadith.seed_of hadith_query_a "2026-11-02"))) 0))
          "")
     = "HTTP 404 for https://raw.githubusercontent.com/fawazahmed0/hadith-api/1/editions/eng-bukhari/1689.json".
Proof.
  split.
  - apply (proj1 (hadith_all_mirrors_refuse hadith_query_a "2026-11-02"
                    mirrors_404 (fun url => eq_refl))).
  - vm_compute. reflexivity.
Defined.

Lemma prefix_length {A : Type} (l1 l2 : list A) :
  prefix l1 l2 -> (List.length l1 <= List.length l2)%nat.
Proof. intros [l3 ->]. rewrite List.length_app. lia. Qed.

Lemma attempts_shape U edition candidates :
  forall last,
    hadith_answer (fst (Hadith.attempts U edition candidates last))
    /\ (List.length (snd (Hadith.attempts U edition candidates last))
        <= 4 * List.length candidates)%nat.
Proof.
  induction candidates as [|g rest IH]; intros last; cbn [Hadith.attempts].
  - split; [|cbn; lia]. right. cbn. repeat split. eexists. reflexivity.
  - unfold Hadith.fetchJsonWithFallback.
    destruct (fetch_loop_trace U (Hadith.urls_of edition g) None) as [Hp _].
    apply prefix_length in Hp.
    change (List.length (Hadith.urls_of edition g)) with 4%nat in Hp.
    destruct (Hadith.fetch_loop U (Hadith.urls_of edition g) None) as [res t].
    cbn [snd] in Hp.
    assert (Hcont : forall e,
       hadith_answer
         (fst (let '(r, t') := Hadith.attempts U edition rest (Some e) in
               (r, (t ++ t')%list)))
       /\ (List.length
             (snd (let '(r, t') := Hadith.attempts U edition rest (Some e) in
                   (r, (t ++ t')%list)))
           <= 4 * List.length (g :: rest))%nat).
    { intros e. destruct (IH (Some e)) as [Hs Hl].
      destruct (Hadith.attempts U edition rest (Some e)) as [r t'].
      cbn [fst snd] in *. split; [exact Hs|].
      rewrite List.length_app. cbn [List.length]. lia. }
    destruct res as [j|e]; [|apply Hcont].
    destruct (negb (JS.truthy
                      (JS.get (JS.at_index (JS.get j "hadiths") 0) "text")));
      [apply Hcont|].
    destruct (Hadith.hadith_out edition g j); [|apply Hcont].
    cbn [fst snd List.length]. split; [left; split; reflexivity | lia].
Qed.

(** X16.  Whatever the mirrors do, the hadith proxy answers either 200
    with the six-hour Cache-Control header, or 502 without one and with
    a body made of the error "Hadith fetch failed" and a detail text;
    and it sends at most twenty requests. *)
Theorem hadith_answers_200_or_502 :
  forall (sp : string -> option string) (today : string) (U : Hadith.Upstream),
    hadith_answer (fst (Hadith.GET sp today U))
    /\ (List.length (snd (Hadith.GET sp today U)) <= 20)%nat.
Proof.
  intros sp today U. unfold Hadith.GET.
  apply (attempts_shape U (Hadith.edition_of sp)
           (Hadith.guesses
              (Hadith.hashToInt
                 (Hadith.edition_of sp ++ ":" ++ Hadith.seed_of sp today)))
           None).
Qed.

Lemma hash_loop_range h c l :
  - 2 ^ 31 <= Hadith.hash_loop h (c :: l) < 2 ^ 31.
Proof.
  revert h c. induction l as [|c' l IH]; intros h c.
  - cbn [Hadith.hash_loop]. unfold Hadith.imul. apply to_int32_range.
  - change (Hadith.hash_loop h (c :: c' :: l))
      with (Hadith.hash_loop
              (Hadith.imul (Hadith.xor32 h (Z.of_nat (nat_of_ascii c))) 16777619)
              (c' :: l)).
    apply IH.
Qed.

Lemma guesses_distinct base : 0 <= base -> NoDup (Hadith.guesses base).
Proof.
  intros Hb. unfold Hadith.guesses. cbn [map].
  repeat constructor; cbn [In]; intros H;
    repeat match type of H with
           | _ \/ _ => destruct H as [H|H]
           end;
    try contradiction;
    rewrite !Z.rem_mod_nonneg in H by lia;
    Z.to_euclidean_division_equations; lia.
Qed.

(** X17.  The hash base of the hadith proxy is a safe integer: for a
    text that is not empty, such as the "edition:seed" text that the
    handler hashes, it lies between 0 and 2^31, so that the five sums
    [base + i * 997] are far below 2^53 and their remainders exact; the
    five candidates are pairwise distinct.  For the empty text the hash
    is its initial value 2166136261, which is not a 32-bit integer. *)
Theorem hash_base_is_safe_integer :
  (forall s, s <> "" -> 0 <= Hadith.hashToInt s <= 2 ^ 31)
  /\ Hadith.hashToInt "" = 2166136261
  /\ (forall (sp : string -> option string) (today : string),
         let base :=
           Hadith.hashToInt
             (Hadith.edition_of sp ++ ":" ++ Hadith.seed_of sp today) in
         0 <= base <= 2 ^ 31
         /\ base + 4 * 997 < 2 ^ 53
         /\ NoDup (Hadith.guesses base)).
Proof.
  assert (Hrange : forall s, s <> "" -> 0 <= Hadith.hashToInt s <= 2 ^ 31).
  { intros s Hs. destruct s as [|c s]; [contradiction|].
    unfold Hadith.hashToInt.
    change (JS.chars (String c s)) with (c :: JS.chars s).
    pose proof (hash_loop_range 2166136261 c (JS.chars s)). lia. }
  split; [exact Hrange | split; [reflexivity|]].
  intros sp today base.
  assert (Hb : 0 <= base <= 2 ^ 31).
  { apply Hrange. destruct (Hadith.edition_of sp); discriminate. }
  split; [exact Hb | split; [lia|]]. apply guesses_distinct. lia.
Qed.

Lemma hash_base_is_safe_integer_witness :
  0 <= Hadith.hashToInt "eng-bukhari:2026-11-02" <= 2 ^ 31.
Proof.
  apply (proj1 hash_base_is_safe_integer). discriminate.
Defined.

Lemma forecast_step_answer U tz locName la lo r :
  Weather.forecast_step U tz locName la lo = Returns r -> weather_answer r.
Proof.
  unfold Weather.forecast_step.
  destruct (Weather.forecast U _ _ tz) as [fRes|]; [|discriminate].
  destruct (ok fRes); cbn [negb].
  - destruct (json fRes) as [f|]; [|discriminate].
    destruct (Weather.daily_entries f) as [days|]; [|discriminate].
    cbn [bind]. intros [= <-]. left. split; reflexivity.
  - intros [= <-]. right. split; [reflexivity|]. cbn. auto.
Qed.

(** X18.  Every answer of the weather proxy is the forecast, with
    status 200 and the fifteen-minute Cache-Control header, or one of
    four errors without a header: 400 "Missing city (or lat/lon)", 502
    "Geocoding failed", 404 "City not found", 502 "Forecast failed".
    The 400 is given exactly when the city is blank and a coordinate is
    missing, and then without consulting any service. *)
Theorem weather_answers :
  forall (sp : string -> option string) (U : Weather.Upstream),
    let blank :=
      String.eqb (JS.trim (param_or (sp "city") "")) ""
      && (negb (present (sp "lat")) || negb (present (sp "lon"))) in
    (forall r, Weather.GET sp U = Returns r -> weather_answer r)
    /\ (blank = true ->
        Weather.GET sp U
        = Returns {| code := 400;
                     payload := error_body "Missing city (or lat/lon)";
                     cache_control := None |})
    /\ (forall r,
           Weather.GET sp U = Returns r -> code r = 400 -> blank = true).
Proof.
  intros sp U blank. subst blank. unfold Weather.GET.
  destruct (String.eqb (JS.trim (param_or (sp "city") "")) ""
            && (negb (present (sp "lat")) || negb (present (sp "lon")))).
  { split; [|split; [reflexivity | reflexivity]].
    intros r [= <-]. right. split; [reflexivity|]. cbn. auto. }
  assert (Hall : forall r,
    match Weather.number_param (sp "lat"), Weather.number_param (sp "lon") with
    | Some la, Some lo =>
        Weather.forecast_step U (JS.trim (param_or (sp "tz") "Europe/Rome"))
          (if String.eqb (JS.trim (param_or (sp "city") "")) "" then "Unknown"
           else JS.trim (param_or (sp "city") "")) la lo
    | _, _ =>
        match Weather.geocode U (JS.trim (param_or (sp "city") "")) with
        | None => Throws
        | Some geoRes =>
            if negb (ok geoRes) then
              Returns {| code := 502; payload := error_body "Geocoding failed";
                         cache_control := None |}
            else
              match json geoRes with
              | None => Throws
              | Some geo =>
                  let first := JS.at_index (JS.get geo "results") 0 in
                  let latitude := Weather.num (JS.get first "latitude") in
                  let longitude := Weather.num (JS.get first "longitude") in
                  locName <- Weather.location_name first
                               (JS.trim (param_or (sp "city") "")) ;;
                  match latitude, longitude with
                  | Some la, Some lo =>
                      Weather.forecast_step U
                        (JS.trim (param_or (sp "tz") "Europe/Rome")) locName
                        la lo
                  | _, _ =>
                      Returns {| code := 404;
                                 payload := error_body "City not found";
                                 cache_control := None |}
                  end
              end
        end
    end = Returns r -> weather_answer r /\ code r <> 400).
  { intros r H.
    assert (Hstep : forall tz locName la lo,
      Weather.forecast_step U tz locName la lo = Returns r ->
      weather_answer r /\ code r <> 400).
    { intros tz locName la lo Hs.
      pose proof (forecast_step_answer _ _ _ _ _ _ Hs) as Ha.
      split; [exact Ha|].
      unfold Weather.forecast_step in Hs.
      destruct (Weather.forecast U _ _ tz) as [fRes|]; [|discriminate].
      destruct (ok fRes); cbn [negb] in Hs.
      - destruct (json fRes) as [f|]; [|discriminate].
        destruct (Weather.daily_entries f) as [days|]; [|discriminate].
        cbn [bind] in Hs. injection Hs as <-. cbn. discriminate.
      - injection Hs as <-. cbn. discriminate. }
    assert (Hgeo : forall E : True,
      match Weather.geocode U (JS.trim (param_or (sp "city") "")) with
      | None => Throws
      | Some geoRes =>
          if negb (ok geoRes) then
            Returns {| code := 502; payload := error_body "Geocoding failed";
                       cache_control := None |}
          else
            match json geoRes with
            | None => Throws
            | Some geo =>
                let first := JS.at_index (JS.get geo "results") 0 in
                let latitude := Weather.num (JS.get first "latitude") in
                let longitude := Weather.num (JS.get first "longitude") in
                locName <- Weather.location_name first
                             (JS.trim (param_or (sp "city") "")) ;;
                match latitude, longitude with
                | Some la, Some lo =>
                    Weather.forecast_step U
                      (JS.trim (param_or (sp "tz") "Europe/Rome")) locName
                      la lo
                | _, _ =>
                    Returns {| code := 404;
                               payload := error_body "City not found";
                               cache_control := None |}
                end
            end
      end = Returns r -> weather_answer r /\ code r <> 400).
    { intros _.
      destruct (Weather.geocode U _) as [geoRes|]; [|discriminate].
      destruct (ok geoRes); cbn [negb].
      2:{ intros [= <-]. split; [|cbn; discriminate].
          right. split; [reflexivity|]. cbn. auto. }
      destruct (json geoRes) as [geo|]; [|discriminate]. cbv zeta.
      destruct (Weather.location_name _ _) as [locName|]; [|discriminate].
      cbn [bind].
      destruct (Weather.num (JS.get (JS.at_index (JS.get geo "results") 0)
                               "latitude")) as [la|];
        destruct (Weather.num (JS.get (JS.at_index (JS.get geo "results") 0)
                                 "longitude")) as [lo|];
        try (intros [= <-]; split; [|cbn; discriminate];
             right; split; [reflexivity|]; cbn; auto).
      apply Hstep. }
    destruct (Weather.number_param (sp "lat")) as [la|];
      destruct (Weather.number_param (sp "lon")) as [lo|];
      solve [apply (Hstep _ _ _ _ H) | apply (Hgeo I H)]. }
  split; [intros r H; apply (Hall r H)|].
  split; [discriminate|].
  intros r H H400. destruct (Hall r H) as [_ Hne]. contradiction.
Qed.

Lemma weather_answers_witness :
  Weather.GET (fun k => if String.eqb k "city" then Some "   " else None)
    sample_weather_upstream
  = Returns {| code := 400;
               payload := error_body "Missing city (or lat/lon)";
               cache_control := None |}.
Proof.
  apply (proj1 (proj2 (weather_answers
                         (fun k => if String.eqb k "city" then Some "   "
                                   else None) sample_weather_upstream))).
  vm_compute. reflexivity.
Defined.

(** X19.  With both coordinates in the query the weather proxy never
    consults the geocoder: the answer is that of the forecast step for
    the Numbers of the two texts, under the name of the city or
    "Unknown", and two upstreams that differ only in their geocoder
    give the same answer.  The coordinates are not checked: a text that
    is no number is passed on as NaN. *)
Theorem weather_coordinates_bypass_geocoder :
  forall (sp : string -> option string) (lat lon : string),
    sp "lat" = Some lat -> sp "lon" = Some lon -> lat <> "" -> lon <> "" ->
    let city := JS.trim (param_or (sp "city") "") in
    (forall U,
        Weather.GET sp U
        = Weather.forecast_step U (JS.trim (param_or (sp "tz") "Europe/Rome"))
            (if String.eqb city "" then "Unknown" else city)
            (JS.StringToNumber lat) (JS.StringToNumber lon))
    /\ (forall U geocoder,
           Weather.GET sp
             {| Weather.geocode := geocoder;
                Weather.forecast := Weather.forecast U |}
           = Weather.GET sp U).
Proof.
  intros sp lat lon Hlat Hlon Nlat Nlon city.
  assert (H : forall U,
    Weather.GET sp U
    = Weather.forecast_step U (JS.trim (param_or (sp "tz") "Europe/Rome"))
        (if String.eqb city "" then "Unknown" else city)
        (JS.StringToNumber lat) (JS.StringToNumber lon)).
  { intros U. unfold Weather.GET. fold city. rewrite Hlat, Hlon.
    unfold present, Weather.number_param.
    apply String.eqb_neq in Nlat, Nlon. rewrite Nlat, Nlon.
    cbn [negb orb]. rewrite andb_false_r. reflexivity. }
  split; [exact H|]. intros U geocoder. rewrite !H. reflexivity.
Qed.

Lemma weather_coordinates_bypass_geocoder_witness :
  Weather.GET unreadable_coordinates
    {| Weather.geocode := fun _ => None;
       Weather.forecast := fun la lo _ =>
         if String.eqb la "NaN" && String.eqb lo "12.5"
         then Some {| ok := false; reply_status := 400; json := None |}
         else None |}
  = Returns {| code := 502; payload := error_body "Forecast failed";
               cache_control := None |}.
Proof.
  rewrite (proj1 (weather_coordinates_bypass_geocoder unreadable_coordinates
                    "north" "12.5" eq_refl eq_refl
                    ltac:(discriminate) ltac:(discriminate))).
  vm_compute. reflexivity.
Defined.

Lemma length_str l : String.length (JS.str l) = List.length l.
Proof. induction l as [|c l IH]; [reflexivity|]. cbn. rewrite <- IH. reflexivity. Qed.

Lemma slice0_prefix n s :
  prefix (JS.chars (JS.slice0 n s)) (JS.chars s)
  /\ (String.length (JS.slice0 n s) <= n)%nat.
Proof.
  unfold JS.slice0. rewrite chars_str, length_str. split.
  - exists (skipn n (JS.chars s)). symmetry. apply firstn_skipn.
  - apply firstn_le_length.
Qed.

(** X20.  The time shown for a row is the first five characters of its
    text, "HH:MM" of "HH:MM:SS".  The dashboard, Aurora and the first
    display show alike, with the placeholder for a time that is null or
    empty; the legacy client agrees on every text that is not empty and
    on null, and shows the empty text, not the placeholder, for the
    empty text. *)
Theorem format_time_shows_first_five :
  forall t : option string,
    let shown := DashboardPage.formatTimeHHMM t in
    AuroraPage.formatTime t = shown
    /\ TvHome.hhmm t = shown
    /\ (absent t = true -> shown = placeholder)
    /\ (forall s,
           t = Some s -> s <> "" ->
           shown = JS.slice0 5 s
           /\ LegacyPage.formatTimeHHMM t = shown
           /\ prefix (JS.chars shown) (JS.chars s)
           /\ (String.length shown <= 5)%nat)
    /\ LegacyPage.formatTimeHHMM None = placeholder
    /\ LegacyPage.formatTimeHHMM (Some "") = "".
Proof.
  intros t shown. subst shown.
  unfold DashboardPage.formatTimeHHMM, AuroraPage.formatTime, TvHome.hhmm.
  split; [reflexivity | split; [reflexivity|]].
  split; [intros ->; reflexivity|].
  split; [|split; reflexivity].
  intros s -> Hs. unfold absent. apply String.eqb_neq in Hs. rewrite Hs.
  split; [reflexivity | split; [reflexivity|]]. apply slice0_prefix.
Qed.

(** The time shown for some texts, by the dashboard and by the legacy
    client. *)
Example format_time_values :
  map (fun t => (String.eqb (DashboardPage.formatTimeHHMM t) placeholder,
                 LegacyPage.formatTimeHHMM t))
    [Some "05:20:00"; Some "5:2"; Some ""]
  = [ (false, "05:20"); (false, "5:2"); (true, "") ].
Proof. vm_compute. reflexivity. Qed.
